(** * DEHY storefront automation tools: a shallow embedding and its properties

    The Python sources under [src/] are embedded as Rocq functions.  A Python
    [str] is a list of Unicode code points, an [int] is a [Z], a raised
    exception is the [Err] branch of [result], and the calls that leave the
    process (storefront API, HTTP transfer, file system, [json.loads]) are
    fields of an environment that every statement quantifies over. *)

From Stdlib Require Import ZArith NArith List String Ascii Bool Lia.
From Stdlib Require Import DecimalPos DecimalN.
Import ListNotations.

(** ** Python runtime: strings *)

Module Py.

(** A [str] is its sequence of code points. *)
Definition pystr := list N.

(** The code points of an ASCII literal. *)
Definition str (s : string) : pystr := map N_of_ascii (list_ascii_of_string s).

Definition str_eqb (a b : pystr) : bool :=
  if list_eq_dec N.eq_dec a b then true else false.

(** The part of the interpreter that the sources reach through [str.strip],
    [str.lower] and [int]: its Unicode database, of which only the ASCII
    range is written out below, and its limit on the digits of an integer
    literal.  Neither is part of the repository. *)
Class UnicodeData := {
  (** [str.isspace] of a code point above 127. *)
  unicode_isspace : N -> bool;
  (** [str.lower] of a string that holds a code point above 127. *)
  unicode_lower : pystr -> pystr;
  (** The digit value of a decimal digit above 127. *)
  unicode_decimal : N -> option N;
  (** [sys.get_int_max_str_digits()]: 0 without a limit (as before
      Python 3.11), 4300 unless the process is told otherwise. *)
  int_max_str_digits : nat
}.

(** The tables that know no character above 127: enough to run the sources on
    ASCII input, where no result depends on the tables. *)
Definition ascii_only : UnicodeData :=
  {| unicode_isspace := fun _ => false;
     unicode_lower := fun s => s;
     unicode_decimal := fun _ => None;
     int_max_str_digits := 4300 |}.

Section Strings.
Context {U : UnicodeData}.

Definition is_ascii (c : N) : bool := (c <? 128)%N.

(** ASCII white space: TAB, LF, VT, FF, CR, FS, GS, RS, US and SPACE. *)
Definition isspace (c : N) : bool :=
  if is_ascii c
  then ((9 <=? c) && (c <=? 13) || (28 <=? c) && (c <=? 31) || (c =? 32))%N
  else unicode_isspace c.

Definition ascii_lower (c : N) : N :=
  if ((65 <=? c) && (c <=? 90))%N then (c + 32)%N else c.

(** [s.lower()] *)
Definition lower (s : pystr) : pystr :=
  if forallb is_ascii s then map ascii_lower s else unicode_lower s.

Fixpoint lstrip (s : pystr) : pystr :=
  match s with
  | c :: s' => if isspace c then lstrip s' else s
  | [] => []
  end.

Definition rstrip (s : pystr) : pystr := rev (lstrip (rev s)).

(** [s.strip()] *)
Definition strip (s : pystr) : pystr := rstrip (lstrip s).

End Strings.

(** [s.startswith(p)] *)
Fixpoint startswith (p s : pystr) : bool :=
  match p, s with
  | [], _ => true
  | a :: p', b :: s' => (a =? b)%N && startswith p' s'
  | _ :: _, [] => false
  end.

(** [sub in s] *)
Fixpoint contains (sub s : pystr) : bool :=
  startswith sub s || match s with [] => false | _ :: s' => contains sub s' end.

(** The character [c] does not occur in [s]. *)
Definition lacks (c : N) (s : pystr) : bool :=
  forallb (fun x => negb (c =? x)%N) s.

(** [s.replace(old, new)] for a non-empty [old]: occurrences are taken from
    the left and do not overlap; [skip] counts the characters of an occurrence
    still to be dropped. *)
Fixpoint replace_from (old new : pystr) (skip : nat) (s : pystr) : pystr :=
  match s with
  | [] => []
  | c :: s' =>
      match skip with
      | S k => replace_from old new k s'
      | O => if startswith old s
             then new ++ replace_from old new (List.length old - 1) s'
             else c :: replace_from old new 0 s'
      end
  end.

Definition replace (old new s : pystr) : pystr := replace_from old new 0 s.

(** [s.split(sep)] for a one-character separator: [cur] is the piece being
    read, in reverse. *)
Fixpoint split_from (sep : N) (cur : pystr) (s : pystr) : list pystr :=
  match s with
  | [] => [rev cur]
  | c :: s' => if (c =? sep)%N then rev cur :: split_from sep [] s'
               else split_from sep (c :: cur) s'
  end.

Definition split (sep : N) (s : pystr) : list pystr := split_from sep [] s.

(** [sep.join(parts)] *)
Fixpoint join (sep : pystr) (parts : list pystr) : pystr :=
  match parts with
  | [] => []
  | [p] => p
  | p :: rest => p ++ sep ++ join sep rest
  end.

(** [s.endswith(p)] *)
Definition endswith (p s : pystr) : bool := startswith (rev p) (rev s).

(** ** Python runtime: exceptions *)

(** The classes derived from [Exception] that the sources or the interpreter
    raise.  [KeyboardInterrupt] and [SystemExit] are control of the process,
    not failures of an operation, and are not modelled. *)
Inductive exn_class :=
| ValueError | KeyError | IndexError | TypeError | AttributeError
| ZeroDivisionError | OverflowError | OSError | RequestException
| JSONDecodeError | UnicodeEncodeError.

(** A raised exception: its class and, when the sources build it themselves,
    its message (the interpreter's own message texts are not modelled). *)
Inductive exn := Exn (cls : exn_class) (msg : option pystr).

Definition raised (c : exn_class) : exn := Exn c None.

Inductive result (A : Type) : Type :=
| Ok (a : A)
| Err (e : exn).
Arguments Ok {A} a.
Arguments Err {A} e.

Definition rbind {A B} (m : result A) (k : A -> result B) : result B :=
  match m with Ok a => k a | Err e => Err e end.

Notation "'let?' x ':=' m 'in' k" := (rbind m (fun x => k))
  (at level 10, x pattern, m at level 100, k at level 200).

(** A comprehension or loop whose body may raise: left to right, the first
    exception ends it. *)
Fixpoint map_result {A B} (f : A -> result B) (l : list A) : result (list B) :=
  match l with
  | [] => Ok []
  | a :: l' => let? b := f a in let? bs := map_result f l' in Ok (b :: bs)
  end.

Definition is_ok {A} (r : result A) : bool :=
  match r with Ok _ => true | Err _ => false end.

(** ** Python runtime: integers *)

(** The decimal digits of a numeral, most significant first. *)
Fixpoint uint_chars (u : Decimal.uint) : pystr :=
  match u with
  | Decimal.Nil => []
  | Decimal.D0 u => 48%N :: uint_chars u
  | Decimal.D1 u => 49%N :: uint_chars u
  | Decimal.D2 u => 50%N :: uint_chars u
  | Decimal.D3 u => 51%N :: uint_chars u
  | Decimal.D4 u => 52%N :: uint_chars u
  | Decimal.D5 u => 53%N :: uint_chars u
  | Decimal.D6 u => 54%N :: uint_chars u
  | Decimal.D7 u => 55%N :: uint_chars u
  | Decimal.D8 u => 56%N :: uint_chars u
  | Decimal.D9 u => 57%N :: uint_chars u
  end.

(** [str(n)] of a natural number. *)
Definition decimal (n : N) : pystr := uint_chars (N.to_uint n).

(** [str(n)] of an int. *)
Definition str_of_int (n : Z) : pystr :=
  if (n <? 0)%Z then 45%N :: decimal (Z.abs_N n) else decimal (Z.abs_N n).

Definition push_digit (d : N) (u : Decimal.uint) : option Decimal.uint :=
  match d with
  | 0%N => Some (Decimal.D0 u) | 1%N => Some (Decimal.D1 u)
  | 2%N => Some (Decimal.D2 u) | 3%N => Some (Decimal.D3 u)
  | 4%N => Some (Decimal.D4 u) | 5%N => Some (Decimal.D5 u)
  | 6%N => Some (Decimal.D6 u) | 7%N => Some (Decimal.D7 u)
  | 8%N => Some (Decimal.D8 u) | 9%N => Some (Decimal.D9 u)
  | _ => None
  end.

Section Integers.
Context {U : UnicodeData}.

Definition digit_value (c : N) : option N :=
  if is_ascii c
  then (if ((48 <=? c) && (c <=? 57))%N then Some (c - 48)%N else None)
  else unicode_decimal c.

(** The digits of an int literal: digits with single underscores between
    them.  [after_digit] tells that the previous character was a digit. *)
Fixpoint int_digits (after_digit : bool) (s : pystr) : option Decimal.uint :=
  match s with
  | [] => if after_digit then Some Decimal.Nil else None
  | c :: s' =>
      if (c =? 95)%N
      then (if after_digit
            then match s' with [] => None | _ => int_digits false s' end
            else None)
      else match digit_value c, int_digits true s' with
           | Some d, Some u => push_digit d u
           | _, _ => None
           end
  end.

(** The white space that [int] skips around a literal: of ASCII only TAB,
    LF, VT, FF, CR and SPACE, not the separators U+001C to U+001F that
    [str.strip] removes; above 127 the white space of [str.isspace]. *)
Definition int_space (c : N) : bool :=
  if is_ascii c then ((9 <=? c) && (c <=? 13) || (c =? 32))%N
  else unicode_isspace c.

Fixpoint int_lskip (s : pystr) : pystr :=
  match s with
  | c :: s' => if int_space c then int_lskip s' else s
  | [] => []
  end.

Definition int_skip (s : pystr) : pystr :=
  rev (int_lskip (rev (int_lskip s))).

(** The interpreter refuses a literal of more digits than its limit, which
    it compares only with literals of more than 640 digits; leading zeros
    count. *)
Definition too_many_digits (u : Decimal.uint) : bool :=
  match int_max_str_digits with
  | O => false
  | S _ => (Nat.max 640 int_max_str_digits <? Decimal.nb_digits u)%nat
  end.

(** [int(s)] of a [str]: white space around, an optional sign, the digits. *)
Definition int (s : pystr) : result Z :=
  let t := int_skip s in
  let '(negative, body) :=
    match t with
    | c :: b => if (c =? 45)%N then (true, b)
                else if (c =? 43)%N then (false, b)
                else (false, t)
    | [] => (false, t)
    end in
  match int_digits false body with
  | Some u => if too_many_digits u then Err (raised ValueError)
              else let n := Z.of_N (N.of_uint u) in
                   Ok (if negative then (- n)%Z else n)
  | None => Err (raised ValueError)
  end.

End Integers.

(** ** Python runtime: true division of ints and [math.ceil] *)

Section TrueDivision.
Local Open Scope Z_scope.

(** The binary64 nearest to [a / b] for [0 < a] and [0 < b], ties to even, as
    a mantissa [m] and an exponent [e]: the value is [m * 2^e], with [m] of 53
    bits.  (A quotient below [2^-1022] would be subnormal; no sum of quantities
    over a list length comes near it.) *)
Definition nearest64 (a b : Z) : Z * Z :=
  let scaled e := if 0 <=? e then a / (b * 2 ^ e) else (a * 2 ^ (- e)) / b in
  let e0 := Z.log2 a - Z.log2 b - 53 in
  let e := if scaled e0 <? 2 ^ 53 then e0 else e0 + 1 in
  let '(num, den) := if 0 <=? e then (a, b * 2 ^ e) else (a * 2 ^ (- e), b) in
  let q := num / den in
  let r := num mod den in
  let m := if 2 * r <? den then q
           else if den <? 2 * r then q + 1
           else if Z.even q then q else q + 1 in
  (m, e).

(** [math.ceil(x)] of the float [m * 2^e]. *)
Definition ceil64 (x : Z * Z) : Z :=
  let '(m, e) := x in
  if 0 <=? e then m * 2 ^ e else - ((- m) / 2 ^ (- e)).

(** [math.ceil(a / b)] for ints [0 <= a] and [0 <= b]. *)
Definition ceil_truediv (a b : Z) : result Z :=
  if b =? 0 then Err (raised ZeroDivisionError)
  else if a =? 0 then Ok 0
  else let '(m, e) := nearest64 a b in
       if 2 ^ 1024 <=? (if 0 <=? e then m * 2 ^ e else 0)
       then Err (raised OverflowError)
       else Ok (ceil64 (m, e)).

End TrueDivision.

(** ** Python runtime: the values that [json.loads] builds *)

(** [None], [bool], [int], [str], [list] and [dict] (keys in insertion order,
    each key once).  Numbers are the integers: no float occurs in the
    documents that the sources traverse. *)
#[warnings="-register-all"]
Inductive value :=
| VNone
| VBool (b : bool)
| VInt (n : Z)
| VStr (s : pystr)
| VList (items : list value)
| VDict (entries : list (pystr * value)).

Definition is_none (v : value) : bool :=
  match v with VNone => true | _ => false end.

(** [d.get(key)] on the entries of a dict. *)
Fixpoint dict_get (d : list (pystr * value)) (key : pystr) : option value :=
  match d with
  | [] => None
  | (k, v) :: d' => if str_eqb k key then Some v else dict_get d' key
  end.

(** [key in d] *)
Definition dict_has (d : list (pystr * value)) (key : pystr) : bool :=
  match dict_get d key with Some _ => true | None => false end.

(** [a == b] *)
Fixpoint py_eq (a b : value) : bool :=
  match a, b with
  | VNone, VNone => true
  | VBool x, VBool y => Bool.eqb x y
  | VBool x, VInt n => (n =? (if x then 1 else 0))%Z
  | VInt n, VBool x => (n =? (if x then 1 else 0))%Z
  | VInt m, VInt n => (m =? n)%Z
  | VStr s, VStr t => str_eqb s t
  | VList l1, VList l2 =>
      (fix all2 (l1 l2 : list value) : bool :=
         match l1, l2 with
         | [], [] => true
         | x :: l1', y :: l2' => py_eq x y && all2 l1' l2'
         | _, _ => false
         end) l1 l2
  | VDict d1, VDict d2 =>
      (List.length d1 =? List.length d2)%nat &&
      (fix sub (d : list (pystr * value)) : bool :=
         match d with
         | [] => true
         | (k, v) :: d' =>
             match dict_get d2 k with
             | Some v' => py_eq v v'
             | None => false
             end && sub d'
         end) d1
  | _, _ => false
  end.

(** [bool(v)] *)
Definition truthy (v : value) : bool :=
  match v with
  | VNone => false
  | VBool b => b
  | VInt n => negb (n =? 0)%Z
  | VStr s => match s with [] => false | _ => true end
  | VList l => match l with [] => false | _ => true end
  | VDict d => match d with [] => false | _ => true end
  end.

(** [v[key]] for a string key. *)
Definition getitem_str (v : value) (key : pystr) : result value :=
  match v with
  | VDict d => match dict_get d key with
               | Some x => Ok x
               | None => Err (Exn KeyError (Some key))
               end
  | _ => Err (raised TypeError)
  end.

(** [v[i]] for an index [i >= 0]. *)
Definition getitem_int (v : value) (i : nat) : result value :=
  match v with
  | VList l => match nth_error l i with
               | Some x => Ok x
               | None => Err (raised IndexError)
               end
  | VStr s => match nth_error s i with
              | Some c => Ok (VStr [c])
              | None => Err (raised IndexError)
              end
  | VDict _ => Err (raised KeyError)
  | _ => Err (raised TypeError)
  end.

(** [v.get(key, default)] *)
Definition py_get (v : value) (key : pystr) (default : value) : result value :=
  match v with
  | VDict d => Ok (match dict_get d key with Some x => x | None => default end)
  | _ => Err (raised AttributeError)
  end.

(** The items that [for x in v] visits. *)
Definition py_iter (v : value) : result (list value) :=
  match v with
  | VList l => Ok l
  | VDict d => Ok (map (fun kv => VStr (fst kv)) d)
  | VStr s => Ok (map (fun c => VStr [c]) s)
  | _ => Err (raised TypeError)
  end.

Definition hashable (v : value) : bool :=
  match v with VList _ | VDict _ => false | _ => true end.

(** [d[k] = v] on the entries of a dict with arbitrary keys. *)
Fixpoint dict_set (d : list (value * value)) (k v : value)
  : list (value * value) :=
  match d with
  | [] => [(k, v)]
  | (k', v') :: d' => if py_eq k' k then (k', v) :: d'
                      else (k', v') :: dict_set d' k v
  end.

(** [d.get(key, default)] on such entries. *)
Fixpoint entries_get (d : list (value * value)) (key : pystr) (default : value)
  : value :=
  match d with
  | [] => default
  | (k, v) :: d' => if py_eq k (VStr key) then v else entries_get d' key default
  end.

(** [join] with the empty separator, as [str.join] does it: every part must
    be a [str]. *)
Fixpoint join_strs (parts : list value) : result pystr :=
  match parts with
  | [] => Ok []
  | VStr s :: rest => let? t := join_strs rest in Ok (s ++ t)
  | _ :: _ => Err (raised TypeError)
  end.

(** [isinstance(v, str)] *)
Definition is_str (v : value) : bool :=
  match v with VStr _ => true | _ => false end.

End Py.

Import Py.

(** ** shopify_utils/utils.py: sanitize *)

Module utils.
Section WithUnicode.
Context {U : UnicodeData}.

(** The class [[a-z0-9_]] of the pattern in [sanitize]. *)
Definition handle_char (c : N) : bool :=
  ((97 <=? c) && (c <=? 122) || (48 <=? c) && (c <=? 57) || (c =? 95))%N.

(** [re.sub(r'[^a-z0-9_]+', '_', t)]: every maximal run of characters outside
    the class becomes one underscore; [in_run] tells that the run was already
    replaced. *)
Fixpoint re_sub_runs (in_run : bool) (t : pystr) : pystr :=
  match t with
  | [] => []
  | c :: t' =>
      if handle_char c then c :: re_sub_runs false t'
      else if in_run then re_sub_runs true t'
      else 95%N :: re_sub_runs true t'
  end.

(** [sanitize(value)] on a [str] argument (the [str(value)] coercion of other
    types happens before the model starts). *)
Definition sanitize (value : pystr) : pystr :=
  re_sub_runs false (lower (strip value)).

End WithUnicode.

(** The loop [for v in ...: found = ...; if found is not None: return found],
    falling through to [return None], over the results in order. *)
Fixpoint first_found (results : list value) : value :=
  match results with
  | [] => VNone
  | found :: rest => if is_none found then first_found rest else found
  end.

Fixpoint recursive_dict_search (data : value) (key : pystr) (target_value : value)
  : value :=
  match data with
  | VDict d =>
      let in_values :=
        (fix values (d : list (pystr * value)) : value :=
           match d with
           | [] => VNone
           | (_, v) :: d' =>
               let found := recursive_dict_search v key target_value in
               if is_none found then values d' else found
           end) d in
      match dict_get d key with
      | Some v => if is_none target_value || py_eq v target_value then v
                  else in_values
      | None => in_values
      end
  | VList l =>
      (fix items (l : list value) : value :=
         match l with
         | [] => VNone
         | item :: l' =>
             let found := recursive_dict_search item key target_value in
             if is_none found then items l' else found
         end) l
  | _ => VNone
  end.

(** The specification's reading of the search: the values of the matching
    entries in depth-first order, a mapping's own entry under [key] before
    the entries nested in its values; the answer is the first of them. *)
Fixpoint matching_values (data : value) (key : pystr) (target_value : value)
  : list value :=
  match data with
  | VDict d =>
      match dict_get d key with
      | Some v => if is_none target_value || py_eq v target_value then [v]
                  else []
      | None => []
      end ++
      (fix values (d : list (pystr * value)) : list value :=
         match d with
         | [] => []
         | (_, v) :: d' => matching_values v key target_value ++ values d'
         end) d
  | VList l =>
      (fix items (l : list value) : list value :=
         match l with
         | [] => []
         | item :: l' => matching_values item key target_value ++ items l'
         end) l
  | _ => []
  end.

(** No value of the list is [None]. *)
Definition all_some (vs : list value) : bool :=
  forallb (fun v => negb (is_none v)) vs.

Definition first_match (data : value) (key : pystr) (target_value : value)
  : value :=
  hd VNone (matching_values data key target_value).

End utils.

(** ** transcription/transcriber.py and shopify_utils/transcriber.py *)

(** The four keys of a recipe transcript, in sorted order. *)
Definition required_keys : list pystr :=
  [str "cocktail_history"; str "ingredients"; str "instructions"; str "intro"].

(** [isinstance(v, list) and all(isinstance(x, str) for x in v)] *)
Definition list_of_str (v : value) : bool :=
  match v with VList l => forallb is_str l | _ => false end.

(** [d[key]] *)
Definition subscript (d : list (pystr * value)) (key : pystr) : result value :=
  match dict_get d key with
  | Some v => Ok v
  | None => Err (Exn KeyError (Some key))
  end.

Module transcription.

(** [sorted(req - set(d.keys()))]: [required_keys] is sorted already. *)
Definition missing (d : list (pystr * value)) : list pystr :=
  filter (fun k => negb (dict_has d k)) required_keys.

Definition validate_response_structure (d : value) : result unit :=
  match d with
  | VDict d =>
      match missing d with
      | (_ :: _) as m =>
          Err (Exn ValueError (Some (str "Missing keys: " ++ join (str ", ") m)))
      | [] =>
          let? ingredients := subscript d (str "ingredients") in
          if negb (list_of_str ingredients)
          then Err (Exn ValueError
                      (Some (str "ingredients must be a list of strings")))
          else
            let? instructions := subscript d (str "instructions") in
            if negb (list_of_str instructions)
            then Err (Exn ValueError
                        (Some (str "instructions must be a list of strings")))
            else Ok tt
      end
  | _ => Err (raised AttributeError)
  end.

End transcription.

Module shopify_transcriber.

(** The order in which the interpreter iterates a set of strings (it varies
    with the hash seed of the process). *)
Class SetOrder := set_iter : list pystr -> list pystr.

Section WithSetOrder.
Context {O : SetOrder}.

Definition validate_response_structure (data : value) : result unit :=
  match data with
  | VDict d =>
      match filter (fun k => negb (dict_has d k)) required_keys with
      | (_ :: _) as m =>
          Err (Exn ValueError
                 (Some (str "Missing keys in recipe output: "
                        ++ join (str ", ") (set_iter m))))
      | [] => Ok tt
      end
  | _ => Err (raised AttributeError)
  end.

End WithSetOrder.

End shopify_transcriber.

(** ** data_ingest/parser.py: ProductParser *)

Module ProductParser.

(** A spreadsheet cell as pandas hands it over: text, a whole number, or the
    NaN of an empty cell. *)
Inductive cell :=
| CellStr (s : pystr)
| CellInt (n : Z)
| CellNaN.

(** [str(cell)] *)
Definition cell_str (c : cell) : pystr :=
  match c with
  | CellStr s => s
  | CellInt n => str_of_int n
  | CellNaN => str "nan"
  end.

Definition size_list : list pystr :=
  [str "Large Bulk"; str "Small Bulk"; str "Hanging Pouch";
   str "Stand Up Pouch"; str "Small Jar"; str "Large Jar"].

Definition cut_list : list pystr := [str "Fine Cut"; str "Hand Cut"].

(** The parsed row that [parse_excel] appends. *)
Record parsed_row := {
  SKU : cell;
  UPC : cell;
  PRODUCT : pystr;
  PRODUCT_TITLE : pystr;
  VARIANT_SIZE : pystr;
  WEIGHT : cell;
  QUANTITY : Z;
  RETAIL_PRICE : cell;
  UNIT_PRICE : cell;
  HANDLE : pystr
}.

(** A sheet read with [header=None]: every row has [sheet_width] cells. *)
Record sheet := {
  sheet_name : pystr;
  sheet_width : nat;
  sheet_rows : list (list cell)
}.

Definition COLUMNS : list pystr :=
  [str "SKU"; str "UPC"; str "PRODUCT"; str "WEIGHT"; str "QUANTITY";
   str "RETAIL_PRICE"; str "UNIT_PRICE"].

Fixpoint index_of (name : pystr) (names : list pystr) : option nat :=
  match names with
  | [] => None
  | n :: rest => if str_eqb n name then Some O
                 else option_map S (index_of name rest)
  end.

(** [next((c for c in candidates if c in product), default)] with the empty
    string as default. *)
Fixpoint first_contained (candidates : list pystr) (product : pystr) : pystr :=
  match candidates with
  | [] => []
  | c :: rest => if contains c product then c else first_contained rest product
  end.

(** [re.split(r" - |_", product)[0]]: the text before the first separator. *)
Fixpoint re_split_head (product : pystr) : pystr :=
  match product with
  | [] => []
  | c :: rest => if startswith (str " - ") product || (c =? 95)%N then []
                 else c :: re_split_head rest
  end.

Section WithUnicode.
Context {U : UnicodeData}.

Definition _calc_avg_quantity (c : cell) : result Z :=
  let cell := replace (str "pc") [] (cell_str c) in
  if contains (str "-") cell then
    let? vals := map_result (fun x => int (strip x)) (split 45 cell) in
    ceil_truediv (fold_right Z.add 0%Z vals) (Z.of_nat (List.length vals))
  else int cell.

Definition _sanitize (s : pystr) : pystr :=
  lower (replace (str " ") (str "_") (strip s)).

(** [row[name]] on a sheet of [width] columns, named by [COLUMNS[:width]]. *)
Definition row_get (width : nat) (row : list cell) (name : pystr) : result cell :=
  match index_of name (firstn width COLUMNS) with
  | Some i => match nth_error row i with
              | Some c => Ok c
              | None => Err (Exn KeyError (Some name))
              end
  | None => Err (Exn KeyError (Some name))
  end.

(** The body of the loop over [df.iterrows()]; [quantity] is the row's entry
    of the column that [_calc_avg_quantity] was applied to. *)
Definition parse_row (width : nat) (rq : list cell * Z) : result parsed_row :=
  let '(row, quantity) := rq in
  let? product_cell := row_get width row (str "PRODUCT") in
  let product := cell_str product_cell in
  let product_name := strip (re_split_head product) in
  let cut := first_contained cut_list product in
  let size := first_contained size_list product in
  let? sku := row_get width row (str "SKU") in
  let? upc := row_get width row (str "UPC") in
  let? weight := row_get width row (str "WEIGHT") in
  let? retail_price := row_get width row (str "RETAIL_PRICE") in
  let? unit_price := row_get width row (str "UNIT_PRICE") in
  Ok {| SKU := sku;
        UPC := upc;
        PRODUCT := product_name;
        PRODUCT_TITLE := product_name ++ str " - " ++ cut;
        VARIANT_SIZE := size;
        WEIGHT := weight;
        QUANTITY := quantity;
        RETAIL_PRICE := retail_price;
        UNIT_PRICE := unit_price;
        HANDLE := str "dehydrated_" ++ _sanitize product_name
                  ++ str "_cocktail_garnish" |}.

(** One sheet named Wholesale or Retail: the columns are named (more than
    seven cannot be), the QUANTITY column is averaged, the rows are parsed. *)
Definition parse_sheet (sh : sheet) : result (list parsed_row) :=
  let width := sheet_width sh in
  if (7 <? width)%nat then Err (raised ValueError) else
  let? quantities :=
    match index_of (str "QUANTITY") (firstn width COLUMNS) with
    | Some i => map_result (fun row => _calc_avg_quantity (nth i row CellNaN))
                  (sheet_rows sh)
    | None => Err (Exn KeyError (Some (str "QUANTITY")))
    end in
  map_result (parse_row width) (combine (sheet_rows sh) quantities).

(** [parse_excel] over the sheets of the workbook, in [wb.sheet_names] order:
    the rows of all the sheets, or the first exception. *)
Fixpoint parse_excel (wb : list sheet) : result (list parsed_row) :=
  match wb with
  | [] => Ok []
  | sh :: rest =>
      if str_eqb (sheet_name sh) (str "Wholesale")
         || str_eqb (sheet_name sh) (str "Retail")
      then let? rows := parse_sheet sh in
           let? more := parse_excel rest in
           Ok (rows ++ more)
      else parse_excel rest
  end.

End WithUnicode.

(** The quantity rule as the specification words it: a trailing "pc" is
    removed; a remainder with a hyphen is a range of two integers, whose
    average is rounded up; any other remainder is an integer. *)
Section SpecReading.
Context {U : UnicodeData}.

Definition strip_trailing_pc (s : pystr) : pystr :=
  if endswith (str "pc") s then firstn (List.length s - 2) s else s.

Definition calc_avg_quantity_spec (c : cell) : result Z :=
  let rest := strip_trailing_pc (cell_str c) in
  if contains (str "-") rest then
    match split 45 rest with
    | [lo; hi] =>
        let? a := int lo in
        let? b := int hi in
        Ok ((a + b + 1) / 2)%Z
    | _ => Err (raised ValueError)
    end
  else int rest.

End SpecReading.

(** Product names on which the parser's [_sanitize] and the shared [sanitize]
    cannot differ: ASCII letters, digits and underscores, separated by single
    spaces. *)
Fixpoint single_spaced (t : pystr) : bool :=
  match t with
  | a :: (b :: _) as t' => negb ((a =? 32) && (b =? 32))%N && single_spaced t'
  | _ => true
  end.

Definition plain_name (t : pystr) : bool :=
  forallb (fun c => (c =? 32)%N || utils.handle_char (ascii_lower c)) t
  && single_spaced t.

End ProductParser.

(** ** The world outside the process *)

Module Effects.

(** The GraphQL documents that the modelled functions send, by operation. *)
Inductive operation :=
| ReorderVariants
| UpdateVariant
| stagedUploadsCreate
| fileCreate.

(** The lines that [log] prints, by call site, with the values formatted
    into them. *)
Inductive log_message :=
| NoVariantsMatched
| VariantPositionsUpdated (result : value)
| ParsedEmpty
| NoQuantityFound (product_title size : pystr)
| VariantMetafieldsUpdated (result : value)
| Uploaded (file_path : pystr) (file_id : value)
| UploadFailed (file_path : pystr) (e : exn).

(** What a run does to the world, in order; a line of the log counts once
    it is printed. *)
Inductive event :=
| Logged (m : log_message)
| Queried (op : operation) (variables : value)
| Posted (url : value) (data : list (value * value)) (file_name : pystr).

(** The storefront, the network and the file system: each call answers or
    raises, and may change the world. *)
Class World := {
  world : Type;
  (** [ShopifyAPI.query(document, variables)] *)
  api_query : operation -> value -> world -> result value * world;
  (** [os.path.getsize(path)] *)
  os_getsize : pystr -> world -> result Z * world;
  (** [open(path, "rb")] *)
  open_rb : pystr -> world -> result unit * world;
  (** [requests.post(url, data=data, files=..., timeout=600)]: the status code
      of the response. *)
  requests_post : value -> list (value * value) -> pystr -> world
                  -> result Z * world;
  (** [print(line)] of a line of the log: the standard output takes the
      line, or [print] raises (UnicodeEncodeError for a text that the
      output cannot encode, OSError for an output that is closed). *)
  stdout_print : log_message -> world -> result unit * world
}.

Section Monad.
Context {W : World}.

Definition state : Type := world * list event.

(** A computation: its outcome and the state it leaves, also when it raises. *)
Definition M (A : Type) : Type := state -> result A * state.

Definition ret {A} (a : A) : M A := fun st => (Ok a, st).

Definition raise {A} (e : exn) : M A := fun st => (Err e, st).

Definition bind {A B} (m : M A) (k : A -> M B) : M B :=
  fun st => match m st with
            | (Ok a, st') => k a st'
            | (Err e, st') => (Err e, st')
            end.

(** [try: m except Exception as e: handler(e)] *)
Definition try_except {A} (m : M A) (handler : exn -> M A) : M A :=
  fun st => match m st with
            | (Ok a, st') => (Ok a, st')
            | (Err e, st') => handler e st'
            end.

Definition lift {A} (r : result A) : M A := fun st => (r, st).

Definition emit (ev : event) : M unit :=
  fun st => (Ok tt, (fst st, snd st ++ [ev])).

Definition call {A} (f : world -> result A * world) : M A :=
  fun st => let '(r, w) := f (fst st) in (r, (w, snd st)).

(** [log(message)]: the line is printed, and an exception of [print]
    leaves the call. *)
Definition log (m : log_message) : M unit :=
  bind (call (stdout_print m)) (fun _ => emit (Logged m)).

Definition query (op : operation) (variables : value) : M value :=
  bind (emit (Queried op variables)) (fun _ => call (api_query op variables)).

Definition post (url : value) (data : list (value * value)) (file_name : pystr)
  : M Z :=
  bind (emit (Posted url data file_name))
       (fun _ => call (requests_post url data file_name)).

End Monad.

Notation "'let!' x ':=' m 'in' k" := (bind m (fun x => k))
  (at level 10, x pattern, m at level 100, k at level 200).

End Effects.

(** ** Floats *)

(** The binary64 operations behind [float(s)], [x / n] and the rendering of
    a float by [json.dumps]: they belong to the interpreter, and the
    statements hold for every implementation of them. *)
Class Floats := {
  float : Type;
  (** [float(s)]: the float, or [ValueError]. *)
  float_of_str : pystr -> result float;
  (** [x / n] for an int [n <> 0] that converts to a float. *)
  float_div_int : float -> Z -> float;
  (** [json.dumps(x)] *)
  json_float : float -> pystr
}.

(** ** shopify_utils/products.py: VariantUpdater *)

Module VariantUpdater.
Import Effects ProductParser.

(** A variant as [cmd_variants_update] normalizes it: the dict with the keys
    id, title, price and option1, all texts of the storefront's answer. *)
Record variant := {
  v_id : pystr;
  v_title : pystr;
  v_price : pystr;
  v_option1 : pystr
}.

Definition VARIANT_ORDER : list (pystr * Z) :=
  [(str "Pouch", 1); (str "Small Jar", 2); (str "Large Jar", 3);
   (str "Small Bulk", 4); (str "Large Bulk", 5)]%Z.

(** [VARIANT_ORDER.get(size)] *)
Fixpoint order_get (table : list (pystr * Z)) (size : pystr) : option Z :=
  match table with
  | [] => None
  | (k, pos) :: rest => if str_eqb k size then Some pos else order_get rest size
  end.

(** The loop that collects [positions]. *)
Definition collect_positions (variants : list variant) : list (pystr * Z) :=
  fold_left
    (fun positions v =>
       match order_get VARIANT_ORDER (v_option1 v) with
       | Some pos => if (pos =? 0)%Z then positions
                     else positions ++ [(v_id v, pos)]
       | None => positions
       end)
    variants [].

(** The pair that a variant contributes, if any. *)
Definition position_pair (v : variant) : list (pystr * Z) :=
  match order_get VARIANT_ORDER (v_option1 v) with
  | Some pos => [(v_id v, pos)]
  | None => []
  end.

(** [parsed_df.loc[(PRODUCT_TITLE == product_title) & (VARIANT_SIZE == size)]] *)
Definition matching_rows (parsed_df : list parsed_row) (v : variant)
    (product_title : pystr) : list parsed_row :=
  filter (fun r => str_eqb (PRODUCT_TITLE r) product_title
                   && str_eqb (VARIANT_SIZE r) (v_option1 v)) parsed_df.

Definition position_input (p : pystr * Z) : value :=
  VDict [(str "id", VStr (fst p)); (str "position", VInt (snd p))].

(** The double quote. *)
Definition dquote : pystr := [34%N].

Section WithWorld.
Context {W : World} {F : Floats}.

Definition _update_variant_positions (product_id : pystr)
    (variants : list variant) : M unit :=
  let positions := collect_positions variants in
  match positions with
  | [] => log NoVariantsMatched
  | _ :: _ =>
      let! result :=
        query ReorderVariants
          (VDict [(str "productId", VStr product_id);
                  (str "positions", VList (map position_input positions))]) in
      log (VariantPositionsUpdated result)
  end.

(** The least int whose conversion to a float overflows: half an ulp above
    the largest float. *)
Definition float_overflow : Z := 2 ^ 1024 - 2 ^ 970.

(** [float(price) / qty_val]: the price is parsed, the quantity is converted
    to a float, and only then compared with zero. *)
Definition price_per_piece_amount (price : pystr) (qty_val : Z) : result float :=
  let? p := float_of_str price in
  if (float_overflow <=? Z.abs qty_val)%Z then Err (raised OverflowError)
  else if (qty_val =? 0)%Z then Err (raised ZeroDivisionError)
  else Ok (float_div_int p qty_val).

(** [json.dumps({"amount": amount, "currency_code": "USD"})] *)
Definition dumps_money (amount : float) : pystr :=
  str "{" ++ dquote ++ str "amount" ++ dquote ++ str ": " ++ json_float amount
  ++ str ", " ++ dquote ++ str "currency_code" ++ dquote ++ str ": "
  ++ dquote ++ str "USD" ++ dquote ++ str "}".

Definition metafield (key type : string) (v : pystr) : value :=
  VDict [(str "namespace", VStr (str "custom")); (str "key", VStr (str key));
         (str "type", VStr (str type)); (str "value", VStr v)].

Definition _update_variant_metafields (parsed_df : list parsed_row)
    (v : variant) (product_title : pystr) : M unit :=
  match parsed_df with
  | [] => log ParsedEmpty
  | _ :: _ =>
      let size := v_option1 v in
      let qty := matching_rows parsed_df v product_title in
      match qty with
      | [] => log (NoQuantityFound product_title size)
      | row :: _ =>
          let qty_val := QUANTITY row in
          let! amount := lift (price_per_piece_amount (v_price v) qty_val) in
          let variables :=
            VDict [(str "input",
                    VDict [(str "id", VStr (v_id v));
                           (str "metafields",
                            VList [metafield "quantity" "number_integer"
                                     (str_of_int qty_val);
                                   metafield "price_per_piece" "money"
                                     (dumps_money amount)])])] in
          let! result := query UpdateVariant variables in
          log (VariantMetafieldsUpdated result)
      end
  end.

End WithWorld.

End VariantUpdater.

(** ** shopify_utils/media.py: MediaUploader *)

Module MediaUploader.
Import Effects.

(** [os.path.basename(path)] *)
Fixpoint basename_from (cur : pystr) (path : pystr) : pystr :=
  match path with
  | [] => rev cur
  | c :: rest => if (c =? 47)%N then basename_from [] rest
                 else basename_from (c :: cur) rest
  end.

Definition basename (path : pystr) : pystr := basename_from [] path.

(** The name split at its last dot, read from the end: the stem, and the
    extension with its dot. *)
Fixpoint split_last_dot (reversed : pystr) (ext : pystr) : option (pystr * pystr) :=
  match reversed with
  | [] => None
  | c :: rest => if (c =? 46)%N then Some (rev rest, 46%N :: ext)
                 else split_last_dot rest (c :: ext)
  end.

(** [os.path.splitext(path)[1]]: a name made of leading dots only has no
    extension. *)
Definition splitext_ext (path : pystr) : pystr :=
  match split_last_dot (rev (basename path)) [] with
  | Some (stem, ext) => if existsb (fun c => negb (c =? 46)%N) stem then ext else []
  | None => []
  end.

(** [data[k] = v] for each parameter [p] of the staged target. *)
Fixpoint form_data (ps : list value) (data : list (value * value))
  : result (list (value * value)) :=
  match ps with
  | [] => Ok data
  | p :: rest =>
      let? name := getitem_str p (str "name") in
      let? v := getitem_str p (str "value") in
      if hashable name then form_data rest (dict_set data name v)
      else Err (raised TypeError)
  end.

Section WithWorld.
Context {U : UnicodeData} {W : World}.

Definition _get_content_type (file_path : pystr) : pystr :=
  let ext := lower (splitext_ext file_path) in
  if str_eqb ext (str ".jpg") || str_eqb ext (str ".jpeg") then str "image/jpeg"
  else if str_eqb ext (str ".png") then str "image/png"
  else if str_eqb ext (str ".gif") then str "image/gif"
  else if str_eqb ext (str ".mp4") then str "video/mp4"
  else str "application/octet-stream".

Definition _create_staged_upload (file_path : pystr) : M value :=
  let file_name := basename file_path in
  let mime_type := _get_content_type file_path in
  let! file_size := call (os_getsize file_path) in
  let resource := if str_eqb mime_type (str "video/mp4")
                  then str "VIDEO" else str "IMAGE" in
  let variables :=
    VDict [(str "input",
            VList [VDict [(str "resource", VStr resource);
                          (str "filename", VStr file_name);
                          (str "mimeType", VStr mime_type);
                          (str "httpMethod", VStr (str "POST"));
                          (str "fileSize", VStr (str_of_int file_size))]])] in
  let! result := query stagedUploadsCreate variables in
  lift (let? data := getitem_str result (str "data") in
        let? created := getitem_str data (str "stagedUploadsCreate") in
        let? targets := getitem_str created (str "stagedTargets") in
        getitem_int targets 0).

Definition _upload_to_staged_target (staged_target : value) (file_path : pystr)
  : M value :=
  let! tt := call (open_rb file_path) in
  let! parameters := lift (getitem_str staged_target (str "parameters")) in
  let! ps := lift (py_iter parameters) in
  let! data := lift (form_data ps []) in
  let! url := lift (getitem_str staged_target (str "url")) in
  let! status := post url data (basename file_path) in
  let! tt := (if (400 <=? status)%Z && (status <? 600)%Z
             then raise (raised RequestException) else ret tt) in
  lift (getitem_str staged_target (str "resourceUrl")).

Definition _finalize_upload (resource_url : value) (file_name : pystr) : M value :=
  let content_type := if endswith (str ".mp4") (lower file_name)
                      then str "VIDEO" else str "IMAGE" in
  let variables :=
    VDict [(str "files",
            VList [VDict [(str "filename", VStr file_name);
                          (str "alt", VStr file_name);
                          (str "originalSource", resource_url);
                          (str "contentType", VStr content_type);
                          (str "duplicateResolutionMode",
                           VStr (str "REPLACE"))]])] in
  let! result := query fileCreate variables in
  let! files := lift (let? data := getitem_str result (str "data") in
                      let? created := getitem_str data (str "fileCreate") in
                      getitem_str created (str "files")) in
  if truthy files
  then lift (let? first := getitem_int files 0 in getitem_str first (str "id"))
  else ret VNone.

Definition upload_file (file_path : pystr) : M (value * value) :=
  try_except
    (let! staged_target := _create_staged_upload file_path in
     let! resource_url := _upload_to_staged_target staged_target file_path in
     let! file_id := _finalize_upload resource_url (basename file_path) in
     let! tt := log (Uploaded file_path file_id) in
     ret (file_id, resource_url))
    (fun e =>
       let! tt := log (UploadFailed file_path e) in
       ret (VNone, VNone)).

End WithWorld.
End MediaUploader.

(** ** main.py: the image loop of cmd_recipes_publish *)

Module main.
Import Effects.

(** [os.path.join(folder, fn)] *)
Definition path_join (folder fn : pystr) : pystr :=
  if startswith (str "/") fn then fn
  else match folder with
       | [] => fn
       | _ :: _ => if endswith (str "/") folder then folder ++ fn
                   else folder ++ str "/" ++ fn
       end.

Section WithWorld.
Context {U : UnicodeData} {W : World}.

Definition is_image (fn : pystr) : bool :=
  let name := lower fn in
  endswith (str ".jpg") name || endswith (str ".jpeg") name
  || endswith (str ".png") name || endswith (str ".gif") name.

(** The loop over [sorted(os.listdir(folder))], given the sorted listing. *)
Fixpoint upload_images (folder : pystr) (names : list pystr)
    (image_ids : list value) : M (list value) :=
  match names with
  | [] => ret image_ids
  | fn :: rest =>
      if is_image fn
      then let! (file_id, _) := MediaUploader.upload_file (path_join folder fn) in
           upload_images folder rest
             (if truthy file_id then image_ids ++ [file_id] else image_ids)
      else upload_images folder rest image_ids
  end.

End WithWorld.
End main.

(** ** youtube/uploader.py: the description of a video *)

(** [json.loads], and the text that an f-string gives a list or a dict: both
    belong to the interpreter. *)
Class Json := {
  json_loads : pystr -> result value;
  container_repr : value -> pystr
}.

Module uploader.

Section WithJson.
Context {U : UnicodeData} {J : Json}.

(** [f"{v}"] *)
Definition format_value (v : value) : pystr :=
  match v with
  | VStr s => s
  | VInt n => str_of_int n
  | VBool true => str "True"
  | VBool false => str "False"
  | VNone => str "None"
  | _ => container_repr v
  end.

(** The text of a link: the values of its text children, joined. *)
Definition link_text (child : value) : result pystr :=
  let? children := py_get child (str "children") (VList []) in
  let? cs := py_iter children in
  let? values :=
    map_result
      (fun c => let? type := py_get c (str "type") VNone in
                if py_eq type (VStr (str "text"))
                then let? v := py_get c (str "value") (VStr []) in Ok [v]
                else Ok [])
      cs in
  join_strs (List.concat values).

(** What one child of an item appends to [parts]. *)
Definition child_parts (child : value) : result (list value) :=
  let? type := py_get child (str "type") VNone in
  if py_eq type (VStr (str "text"))
  then let? v := py_get child (str "value") (VStr []) in Ok [v]
  else
    let? type := py_get child (str "type") VNone in
    if py_eq type (VStr (str "link"))
    then
      let? text := link_text child in
      let? t := py_get child (str "title") VNone in
      let title := if truthy t then t else VStr [] in
      Ok [VStr (if truthy title
                then format_value title ++ str ": " ++ text
                else text)]
    else Ok [].

(** The line of one item, or nothing when the line is empty. *)
Definition item_line (ordered : bool) (i : nat) (item : value)
  : result (list pystr) :=
  let? children := py_get item (str "children") (VList []) in
  let? cs := py_iter children in
  let? parts := map_result child_parts cs in
  let? joined := join_strs (List.concat parts) in
  let line := strip joined in
  match line with
  | [] => Ok []
  | _ :: _ => Ok [if ordered
                  then decimal (N.of_nat i) ++ str ". " ++ line
                  else [8226%N; 32%N] ++ line]
  end.

(** The loop over [enumerate(items, 1)]. *)
Fixpoint item_lines (ordered : bool) (i : nat) (items : list value)
  : result (list pystr) :=
  match items with
  | [] => Ok []
  | item :: rest =>
      let? line := item_line ordered i item in
      let? more := item_lines ordered (S i) rest in
      Ok (line ++ more)
  end.

(** The body of [_format_rich_list] after [json.loads]. *)
Definition format_rich_data (data : value) : result pystr :=
  let? children := py_get data (str "children") (VList [VDict []]) in
  let? first := getitem_int children 0 in
  let? items := py_get first (str "children") (VList []) in
  let? children' := py_get data (str "children") (VList [VDict []]) in
  let? first' := getitem_int children' 0 in
  let? list_type := py_get first' (str "listType") (VStr (str "unordered")) in
  let? its := py_iter items in
  let? lines := item_lines (py_eq list_type (VStr (str "ordered"))) 1 its in
  Ok (join [10%N] lines).

(** [_format_rich_list(json_data)]: [json.loads] refuses what is no [str]
    with a TypeError, which the handler catches as well. *)
Definition _format_rich_list (json_data : value) : result pystr :=
  match json_data with
  | VStr s => match json_loads s with
              | Ok data => format_rich_data data
              | Err _ => Ok []
              end
  | _ => Ok []
  end.

(** [{f["key"]: f["value"] for f in fs}] *)
Fixpoint field_dict (fs : list value) (fields : list (value * value))
  : result (list (value * value)) :=
  match fs with
  | [] => Ok fields
  | f :: rest =>
      let? k := getitem_str f (str "key") in
      let? v := getitem_str f (str "value") in
      if hashable k then field_dict rest (dict_set fields k v)
      else Err (raised TypeError)
  end.

(** [s.strip()] on a value. *)
Definition strip_value (v : value) : result pystr :=
  match v with
  | VStr s => Ok (strip s)
  | _ => Err (raised AttributeError)
  end.

(** [bool(s)] of a [str]. *)
Definition nonempty (s : pystr) : bool :=
  match s with [] => false | _ :: _ => true end.

(** The description from the [fields] dict. *)
Definition describe (fields : list (value * value)) : result pystr :=
  let intro := entries_get fields (str "intro") (VStr []) in
  let history := entries_get fields (str "cocktail_history") (VStr []) in
  let or_empty v := if truthy v then v else VStr [] in
  let? ingredients :=
    _format_rich_list (or_empty (entries_get fields (str "ingredients") (VStr []))) in
  let? instructions :=
    _format_rich_list (or_empty (entries_get fields (str "instructions") (VStr []))) in
  let? history' := strip_value history in
  let? intro' := strip_value intro in
  let sections :=
    [history'; intro';
     match ingredients with
     | [] => []
     | _ :: _ => str "Ingredients:" ++ [10%N] ++ ingredients
     end;
     match instructions with
     | [] => []
     | _ :: _ => str "Instructions:" ++ [10%N] ++ instructions
     end] in
  Ok (strip (join [10%N; 10%N] (filter nonempty sections))).


Definition _video_description_from_meta (meta : value) : result pystr :=
  let? fs := py_get meta (str "fields") (VList []) in
  let? fs := py_iter fs in
  let? fields := field_dict fs [] in
  describe fields.

End WithJson.
End uploader.

(** The description as a function of its four parts. *)
Module Description.
Import uploader.

Section WithUnicode.
Context {U : UnicodeData}.



End WithUnicode.
End Description.

(** ** shopify_utils/metaobjects.py: generate_blog_html *)

Module MetaobjectManager.
Import uploader.

Section WithJson.
Context {U : UnicodeData} {J : Json}.









End WithJson.
End MetaobjectManager.

(** ** Sample inputs *)

Module Samples.
Import ProductParser.

Definition sample_row (product quantity : string) : list cell :=
  [CellStr (str "SKU-1"); CellStr (str "0001"); CellStr (str product);
   CellStr (str "10g"); CellStr (str quantity); CellStr (str "16.50");
   CellStr (str "9.00")].

(** A workbook with a sheet that is skipped and a Retail sheet of one row. *)
Definition workbook (product quantity : string) : list sheet :=
  [ {| sheet_name := str "Notes"; sheet_width := 1;
       sheet_rows := [[CellStr (str "internal")]] |};
    {| sheet_name := str "Retail"; sheet_width := 7;
       sheet_rows := [sample_row product quantity] |} ].

(** A list of two mappings, the first holding [None] under "id". *)
Definition null_then_id : value :=
  VList [VDict [(str "id", VNone)];
         VDict [(str "id", VStr (str "gid://shopify/Metaobject/2"))]].

(** A mapping whose first value nests the key that the mapping holds
    itself. *)
Definition nested_then_own : value :=
  VDict [(str "node", VDict [(str "id", VStr (str "inner"))]);
         (str "id", VStr (str "outer"))].

(** The response to an upsert. *)
Definition upsert_response : value :=
  VDict [(str "data",
          VDict [(str "metaobjectUpsert",
                  VDict [(str "metaobject",
                          VDict [(str "id", VStr (str "gid://shopify/Metaobject/1"));
                                 (str "handle", VStr (str "blood_orange_mule"))]);
                         (str "userErrors", VList [])])])].

(** A transcript with all four keys whose ingredients hold a number. *)
Definition transcript_with_number : value :=
  VDict [(str "cocktail_history", VStr (str "A classic."));
         (str "intro", VStr (str "Bright and bitter."));
         (str "ingredients", VList [VStr (str "2 oz gin"); VInt 2]);
         (str "instructions", VList [VStr (str "Stir."); VStr (str "Strain.")])].

(** A transcript without its instructions. *)
Definition transcript_without_instructions : value :=
  VDict [(str "cocktail_history", VStr (str "A classic."));
         (str "intro", VStr (str "Bright and bitter."));
         (str "ingredients", VList [VStr (str "2 oz gin")])].

(** A conformant transcript. *)
Definition transcript_ok : value :=
  VDict [(str "cocktail_history", VStr (str "A classic."));
         (str "intro", VStr (str "Bright and bitter."));
         (str "ingredients", VList [VStr (str "2 oz gin")]);
         (str "instructions", VList [VStr (str "Stir.")])].

(** The parsed row of "Lemon - Fine Cut - Small Jar" with a quantity. *)
Definition lemon_row (quantity : Z) : parsed_row :=
  {| SKU := CellStr (str "SKU-1"); UPC := CellStr (str "0001");
     PRODUCT := str "Lemon"; PRODUCT_TITLE := str "Lemon - Fine Cut";
     VARIANT_SIZE := str "Small Jar"; WEIGHT := CellStr (str "10g");
     QUANTITY := quantity; RETAIL_PRICE := CellStr (str "16.50");
     UNIT_PRICE := CellStr (str "9.00");
     HANDLE := str "dehydrated_lemon_cocktail_garnish" |}.

Definition sample_variant (n size : string) : VariantUpdater.variant :=
  {| VariantUpdater.v_id := str "gid://shopify/ProductVariant/" ++ str n;
     VariantUpdater.v_title := str size;
     VariantUpdater.v_price := str "16.50";
     VariantUpdater.v_option1 := str size |}.

(** Variants with the sizes Small Jar, Unknown Size and Large Bulk. *)
Definition three_variants : list VariantUpdater.variant :=
  [sample_variant "1" "Small Jar"; sample_variant "2" "Unknown Size";
   sample_variant "3" "Large Bulk"].

(** Variants with the two pouch sizes of the parser. *)
Definition pouch_variants : list VariantUpdater.variant :=
  [sample_variant "4" "Hanging Pouch"; sample_variant "5" "Stand Up Pouch"].

(** Floats as the expressions that denote them: enough to run the sources
    where only the shape of a float matters. *)
Inductive symbolic_float :=
| FloatOf (s : pystr)
| FloatDiv (x : symbolic_float) (n : Z).

Fixpoint symbolic_repr (x : symbolic_float) : pystr :=
  match x with
  | FloatOf s => s
  | FloatDiv x n => symbolic_repr x ++ str "/" ++ str_of_int n
  end.

Definition symbolic_floats : Floats :=
  {| float := symbolic_float;
     float_of_str := fun s => Ok (FloatOf s);
     float_div_int := FloatDiv;
     json_float := symbolic_repr |}.

(** A storefront that answers every staging request with one target, every
    file creation with one file, and a network that refuses the transfer of
    "b.jpg". *)
Definition staged_target : value :=
  VDict [(str "url", VStr (str "https://upload.example/stage"));
         (str "resourceUrl", VStr (str "https://upload.example/resource"));
         (str "parameters",
          VList [VDict [(str "name", VStr (str "key"));
                        (str "value", VStr (str "tmp/1"))]])].

Definition scripted_query (op : Effects.operation) (variables : value) : value :=
  match op with
  | Effects.stagedUploadsCreate =>
      VDict [(str "data",
              VDict [(str "stagedUploadsCreate",
                      VDict [(str "stagedTargets", VList [staged_target])])])]
  | Effects.fileCreate =>
      VDict [(str "data",
              VDict [(str "fileCreate",
                      VDict [(str "files",
                              VList [VDict [(str "id",
                                             VStr (str "gid://shopify/MediaImage/7"))]]);
                             (str "userErrors", VList [])])])]
  | _ => VDict [(str "data", VDict [])]
  end.

Definition scripted_world : Effects.World :=
  {| Effects.world := unit;
     Effects.api_query := fun op variables w => (Ok (scripted_query op variables), w);
     Effects.os_getsize := fun _ w => (Ok 2048%Z, w);
     Effects.open_rb := fun _ w => (Ok tt, w);
     Effects.requests_post := fun _ _ name w =>
       if str_eqb name (str "b.jpg")
       then (Err (raised RequestException), w)
       else (Ok 201%Z, w);
     Effects.stdout_print := fun _ w => (Ok tt, w) |}.

(** A code point that no text encoding accepts: a lone surrogate, as
    [os.listdir] gives it for a byte of a file name that is no text. *)
Definition is_surrogate (c : N) : bool := ((55296 <=? c) && (c <=? 57343))%N.

(** The same storefront and network behind a standard output in UTF-8:
    [print] raises on a line that holds a path with a lone surrogate. *)
Definition utf8_stdout_world : Effects.World :=
  {| Effects.world := unit;
     Effects.api_query := fun op variables w => (Ok (scripted_query op variables), w);
     Effects.os_getsize := fun _ w => (Ok 2048%Z, w);
     Effects.open_rb := fun _ w => (Ok tt, w);
     Effects.requests_post := fun _ _ _ w => (Err (raised RequestException), w);
     Effects.stdout_print := fun m w =>
       match m with
       | Effects.Uploaded path _ | Effects.UploadFailed path _ =>
           if existsb is_surrogate path
           then (Err (raised UnicodeEncodeError), w)
           else (Ok tt, w)
       | _ => (Ok tt, w)
       end |}.

(** A file name with the byte 0xFF, as [os.listdir] decodes it. *)
Definition undecodable_name : pystr := [56575%N] ++ str ".jpg".

(** [json.loads] tabulated at the texts of the examples; every other text is
    refused. *)
Definition sample_json : Json :=
  {| json_loads := fun s =>
       if str_eqb s (str "[]") then Ok (VList [])
       else if str_eqb s (str "{}") then Ok (VDict [])
       else Err (raised JSONDecodeError);
     container_repr := fun _ => [] |}.



End Samples.

(** ** Further models *)

(** *** shopify_utils/utils.py: what the search can return *)

Module Search.

(** Every value stored under [key] in [data], at any depth. *)
Fixpoint stored_under (key : pystr) (data : value) : list value :=
  match data with
  | VDict d =>
      match dict_get d key with Some v => [v] | None => [] end ++
      (fix values (d : list (pystr * value)) : list value :=
         match d with
         | [] => []
         | (_, v) :: d' => stored_under key v ++ values d'
         end) d
  | VList l =>
      (fix items (l : list value) : list value :=
         match l with
         | [] => []
         | item :: l' => stored_under key item ++ items l'
         end) l
  | _ => []
  end.

(** [v] is stored under [key] in [data] and equal to the target, if one is
    given. *)
Definition sound_result (key : pystr) (target : value) (data v : value) : Prop :=
  In v (stored_under key data) /\
  (is_none target = false -> py_eq v target = true).

End Search.

(** *** shopify_utils/media.py: what an upload leaves in the trace *)

Module Protocol.
Import Effects.

(** The requests of one [upload_file(file_path)], in order, as far as the
    call gets: the staging request, the transfer and the file creation. *)
Inductive upload_requests (file_path : pystr) : list event -> Prop :=
| none_sent :
    upload_requests file_path []
| staged staging :
    upload_requests file_path [Queried stagedUploadsCreate staging]
| transferred staging url data :
    upload_requests file_path
      [Queried stagedUploadsCreate staging;
       Posted url data (MediaUploader.basename file_path)]
| created staging url data files :
    upload_requests file_path
      [Queried stagedUploadsCreate staging;
       Posted url data (MediaUploader.basename file_path);
       Queried fileCreate files].

(** What one [upload_file(file_path)] answers, with the events that it
    adds: the pair of a success after the three requests and its line of
    the log; [(None, None)] after the requests that were made and the line
    of the failure; or the exception of [print], when the handler could not
    print that line, after the requests alone. *)
Inductive upload_outcome (file_path : pystr)
  : result (value * value) -> list event -> Prop :=
| uploaded staging url data files file_id resource_url :
    upload_outcome file_path (Ok (file_id, resource_url))
      [Queried stagedUploadsCreate staging;
       Posted url data (MediaUploader.basename file_path);
       Queried fileCreate files;
       Logged (Uploaded file_path file_id)]
| failed requests e :
    upload_requests file_path requests ->
    upload_outcome file_path (Ok (VNone, VNone))
      (requests ++ [Logged (UploadFailed file_path e)])
| print_raised requests e :
    upload_requests file_path requests ->
    upload_outcome file_path (Err e) requests.

End Protocol.

(** *** shopify_utils/utils.py: title_case *)

(** [str.title] of a string that holds a code point above 127: the casing
    tables of the interpreter. *)
Class UnicodeTitle := unicode_title : pystr -> pystr.

Module Titles.

Definition ascii_upper (c : N) : N :=
  if ((97 <=? c) && (c <=? 122))%N then (c - 32)%N else c.

(** The cased characters of ASCII. *)
Definition is_letter (c : N) : bool :=
  ((65 <=? c) && (c <=? 90) || (97 <=? c) && (c <=? 122))%N.

(** [s.title()] on ASCII: a letter that follows a letter is lowered, any
    other letter is raised, and what is no letter stays. *)
Fixpoint title_from (previous_is_cased : bool) (s : pystr) : pystr :=
  match s with
  | [] => []
  | c :: s' =>
      (if previous_is_cased then ascii_lower c else ascii_upper c)
      :: title_from (is_letter c) s'
  end.

Section WithUnicode.
Context {U : UnicodeData} {T : UnicodeTitle}.

Definition title (s : pystr) : pystr :=
  if forallb is_ascii s then title_from false s else unicode_title s.

(** [title_case(value)] *)
Definition title_case (value : pystr) : pystr :=
  title (strip (replace (str "_") (str " ") value)).

End WithUnicode.

(** The handles that a title leads back to: characters of [[a-z0-9_]] with
    every underscore between two other characters. *)
Fixpoint separated (after_underscore : bool) (h : pystr) : bool :=
  match h with
  | [] => negb after_underscore
  | c :: h' =>
      if (c =? 95)%N then negb after_underscore && separated true h'
      else utils.handle_char c && separated false h'
  end.

Definition clean_handle (h : pystr) : bool :=
  match h with
  | [] => true
  | _ :: _ => separated true h
  end.

(** The casing table that knows no character above 127. *)
Definition ascii_titles : UnicodeTitle := fun s => s.

End Titles.

(** *** shopify_utils/collections.py: CollectionManager *)

Module CollectionManager.

(** The GraphQL documents of collections.py, by operation. *)
Inductive operation :=
| getCollectionByHandle
| collectionAddProducts
| CollectionCreate.

(** What a call does, in order: a request, or the line of the log that
    tells that every product is in the collection already, once it is
    printed. *)
Inductive event :=
| Queried (op : operation) (variables : value)
| LoggedNoNewProducts (title : pystr).

(** The storefront behind [ShopifyAPI.query], which answers or raises and
    may change, and the standard output, on which [print] of the line about
    a title succeeds or raises (UnicodeEncodeError for a title that the
    output cannot encode). *)
Class Storefront := {
  store : Type;
  api_query : operation -> value -> store -> result value * store;
  stdout_print : pystr -> store -> result unit * store
}.

Section WithStorefront.
Context {U : UnicodeData} {S : Storefront}.

Definition state : Type := store * list event.

Definition M (A : Type) : Type := state -> result A * state.

Definition ret {A} (a : A) : M A := fun st => (Ok a, st).

Definition bind {A B} (m : M A) (k : A -> M B) : M B :=
  fun st => match m st with
            | (Ok a, st') => k a st'
            | (Err e, st') => (Err e, st')
            end.

Definition lift {A} (r : result A) : M A := fun st => (r, st).

Definition emit (ev : event) : M unit :=
  fun st => (Ok tt, (fst st, snd st ++ [ev])).

Definition query (op : operation) (variables : value) : M value :=
  bind (emit (Queried op variables))
       (fun _ st => let '(r, w) := api_query op variables (fst st) in
                    (r, (w, snd st))).

(** [log(f"No new products to add to collection '{title}'.")] *)
Definition log_no_new_products (title : pystr) : M unit :=
  bind (fun st => let '(r, w) := stdout_print title (fst st) in (r, (w, snd st)))
       (fun _ => emit (LoggedNoNewProducts title)).

Definition get_collection_by_handle (handle : pystr) : M value :=
  bind (query getCollectionByHandle (VDict [(str "handle", VStr handle)]))
       (fun result =>
          ret (utils.recursive_dict_search result (str "collectionByHandle") VNone)).

(** [[e["node"]["id"] for e in collection["products"]["edges"]]] *)
Definition existing_ids (collection : value) : result (list value) :=
  let? products := getitem_str collection (str "products") in
  let? edges := getitem_str products (str "edges") in
  let? es := py_iter edges in
  map_result (fun e => let? node := getitem_str e (str "node") in
                       getitem_str node (str "id")) es.

(** [pid in existing_ids] *)
Definition py_in (pid : value) (ids : list value) : bool :=
  existsb (fun x => py_eq x pid) ids.

(** [title.strip().lower().replace(" ", "-")] *)
Definition collection_handle (title : pystr) : pystr :=
  replace (str " ") (str "-") (lower (strip title)).

Definition update_or_create_collection (title : pystr) (product_ids : list value)
  : M value :=
  let handle := collection_handle title in
  bind (get_collection_by_handle handle) (fun collection =>
  if truthy collection
  then
    bind (lift (existing_ids collection)) (fun existing =>
    let new_ids := filter (fun pid => negb (py_in pid existing)) product_ids in
    match new_ids with
    | [] =>
        bind (log_no_new_products title) (fun _ =>
        lift (getitem_str collection (str "id")))
    | _ :: _ =>
        bind (lift (getitem_str collection (str "id"))) (fun id =>
        bind (query collectionAddProducts
                (VDict [(str "id", id); (str "productIds", VList new_ids)]))
             (fun result =>
        ret (utils.recursive_dict_search result (str "id") VNone)))
    end)
  else
    bind (query CollectionCreate
            (VDict [(str "input",
                     VDict [(str "handle", VStr handle);
                            (str "title", VStr title);
                            (str "products", VList product_ids)])]))
         (fun result =>
    ret (utils.recursive_dict_search result (str "id") VNone))).

End WithStorefront.

(** What follows the lookup in the trace of one
    [update_or_create_collection(title, product_ids)]. *)
Inductive collection_requests (title : pystr) (product_ids : list value)
  : list event -> Prop :=
| lookup_only :
    collection_requests title product_ids []
| nothing_new :
    collection_requests title product_ids [LoggedNoNewProducts title]
| products_added id new_ids :
    new_ids <> [] -> incl new_ids product_ids ->
    collection_requests title product_ids
      [Queried collectionAddProducts
         (VDict [(str "id", id); (str "productIds", VList new_ids)])]
| collection_created handle :
    collection_requests title product_ids
      [Queried CollectionCreate
         (VDict [(str "input",
                  VDict [(str "handle", VStr handle);
                         (str "title", VStr title);
                         (str "products", VList product_ids)])])].

(** A storefront whose collection "summer-picks" holds the products 1 and 2,
    and that knows no other collection. *)
Definition summer_picks : value :=
  VDict [(str "id", VStr (str "gid://shopify/Collection/9"));
         (str "title", VStr (str "Summer Picks"));
         (str "products",
          VDict [(str "edges",
                  VList [VDict [(str "node",
                                 VDict [(str "id", VStr (str "gid://shopify/Product/1"));
                                        (str "title", VStr (str "Lemon"))])];
                         VDict [(str "node",
                                 VDict [(str "id", VStr (str "gid://shopify/Product/2"));
                                        (str "title", VStr (str "Lime"))])]])])].

Definition scripted_storefront : Storefront :=
  {| store := unit;
     api_query := fun op variables w =>
       match op with
       | getCollectionByHandle =>
           (Ok (VDict [(str "data",
                        VDict [(str "collectionByHandle",
                                if py_eq variables
                                     (VDict [(str "handle", VStr (str "summer-picks"))])
                                then summer_picks else VNone)])]), w)
       | _ =>
           (Ok (VDict [(str "data",
                        VDict [(str "collection",
                                VDict [(str "id",
                                        VStr (str "gid://shopify/Collection/9"))])])]),
            w)
       end;
     stdout_print := fun title w =>
       if forallb is_ascii title then (Ok tt, w)
       else (Err (raised UnicodeEncodeError), w) |}.

End CollectionManager.

(** *** main.py: the fields of a recipe *)

Module recipes.

(** The loop over [enumerate(image_ids[:3], start=1)], from [i] on. *)
Fixpoint image_fields (i : nat) (image_ids : list value) : list value :=
  match image_ids with
  | [] => []
  | img_id :: rest =>
      VDict [(str "key", VStr (str "image_" ++ decimal (N.of_nat i)));
             (str "value", img_id)]
      :: image_fields (S i) rest
  end.

(** [fields] as [cmd_recipes_publish] hands it to the upsert. *)
Definition recipe_fields (title : pystr) (image_ids : list value) : list value :=
  VDict [(str "key", VStr (str "title")); (str "value", VStr title)]
  :: image_fields 1 (firstn 3 image_ids).

End recipes.

(** *** The two transcribers: the text of the answer without its fence *)

(** [s.strip(chars)] *)
Fixpoint lstrip_chars (chars : pystr) (s : pystr) : pystr :=
  match s with
  | c :: s' => if existsb (N.eqb c) chars then lstrip_chars chars s' else s
  | [] => []
  end.

Definition strip_chars (chars : pystr) (s : pystr) : pystr :=
  rev (lstrip_chars chars (rev (lstrip_chars chars s))).

Module Fences.

(** The characters of ["` \n"]. *)
Definition fence_chars : pystr := [96; 32; 10]%N.

Module shopify_transcriber.
Section WithUnicode.
Context {U : UnicodeData}.

(** [generate_corrected_transcript] from the content of the answer on. *)
Definition generate_corrected_transcript (content : pystr) : pystr :=
  let text := strip content in
  strip (replace (str "json" ++ [10%N]) [] (strip_chars fence_chars text)).

End WithUnicode.
End shopify_transcriber.

Module transcription.
Section WithUnicode.
Context {U : UnicodeData}.

(** [generate_corrected_transcript] from the content of the answer on. *)
Definition generate_corrected_transcript (content : pystr) : pystr :=
  let out := strip content in
  let out := strip_chars fence_chars out in
  if startswith (str "json") (lower out) then strip (skipn 4 out) else out.

End WithUnicode.
End transcription.

Section WithUnicode.
Context {U : UnicodeData}.

(** A text begins with a character that neither [strip()] nor
    [strip("` \n")] removes. *)
Definition kept_edge (s : pystr) : bool :=
  match s with
  | c :: _ => negb (isspace c || (c =? 96)%N)
  | [] => false
  end.

(** A text that begins and ends with such a character. *)
Definition bare (body : pystr) : bool := kept_edge body && kept_edge (rev body).

End WithUnicode.

(** The answer in a fence tagged json. *)
Definition fenced (body : pystr) : pystr :=
  str "```json" ++ [10%N] ++ body ++ [10%N] ++ str "```".

End Fences.

(** *** media_processing/image_tools.py *)

Module image_tools.

(** Pillow: the file that opening a file, resizing its picture to a width
    and saving it with quality 90 writes, or the exception. *)
Class Pictures := {
  content : Type;
  resized : content -> Z -> result content
}.

Section WithPictures.
Context {U : UnicodeData} {P : Pictures}.

(** The files of the disk, by path. *)
Definition disk : Type := pystr -> option content.

Definition write (fs : disk) (path : pystr) (c : content) : disk :=
  fun p => if str_eqb p path then Some c else fs p.

(** [os.remove(path)] *)
Definition remove (fs : disk) (path : pystr) : disk :=
  fun p => if str_eqb p path then None else fs p.

(** [resize_image(image_path, output_path, width)]: a file that is missing
    raises FileNotFoundError, an [OSError]. *)
Definition resize_image (image_path output_path : pystr) (width : Z) (fs : disk)
  : result disk :=
  match fs image_path with
  | Some c => let? out := resized c width in Ok (write fs output_path out)
  | None => Err (raised OSError)
  end.

(** [fn.lower().endswith(("png", "jpg", "jpeg", "gif", "bmp"))] *)
Definition is_picture (fn : pystr) : bool :=
  let name := lower fn in
  endswith (str "png") name || endswith (str "jpg") name
  || endswith (str "jpeg") name || endswith (str "gif") name
  || endswith (str "bmp") name.

(** [f"{immediate_dir}_{counter}.jpg"] *)
Definition new_name (immediate_dir : pystr) (counter : N) : pystr :=
  immediate_dir ++ str "_" ++ decimal counter ++ str ".jpg".

(** The loop over the files of one directory, from [counter] on. *)
Fixpoint rename_files (subdir : pystr) (width : Z) (counter : N)
    (files : list pystr) (fs : disk) : result disk :=
  match files with
  | [] => Ok fs
  | fn :: rest =>
      if is_picture fn
      then
        let src := main.path_join subdir fn in
        let dst := main.path_join subdir
                     (new_name (MediaUploader.basename subdir) counter) in
        let? fs1 := resize_image src dst width fs in
        rename_files subdir width (counter + 1) rest (remove fs1 src)
      else rename_files subdir width counter rest fs
  end.


End WithPictures.

(** Files that are their own description, and a resizing that notes the
    width. *)
Definition noted_pictures : Pictures :=
  {| content := pystr;
     resized := fun c width => Ok (c ++ str "@" ++ str_of_int width) |}.

(** A folder that an earlier run has left with one picture, and a new
    picture beside it. *)
Definition mule_folder : @disk noted_pictures :=
  fun p => if str_eqb p (str "pics/mule/mule_1.jpg") then Some (str "first")
           else if str_eqb p (str "pics/mule/new.png") then Some (str "second")
           else None.

End image_tools.

(** *** shopify_utils/products.py: what an update leaves in the trace *)

Module VariantProtocol.
Import Effects.


End VariantProtocol.

(** *** youtube/uploader.py: the lines of a list *)

Module RichLines.

Section WithJson.
Context {U : UnicodeData} {J : Json}.

(** The text of an item in [_format_rich_list]: its parts, joined and
    stripped. *)
Definition item_text (item : value) : result pystr :=
  let? children := py_get item (str "children") (VList []) in
  let? cs := py_iter children in
  let? parts := map_result uploader.child_parts cs in
  let? joined := join_strs (List.concat parts) in
  Ok (strip joined).

End WithJson.

(** What stands before the text of the item at the position [i]. *)
Definition marker (ordered : bool) (i : nat) : pystr :=
  if ordered then decimal (N.of_nat i) ++ str ". " else [8226%N; 32%N].

(** The lines of a list whose items have the texts [texts], the first of
    them at the position [i]: an item with an empty text has no line, and
    the other items keep their positions. *)
Fixpoint lines_of (ordered : bool) (i : nat) (texts : list pystr) : list pystr :=
  match texts with
  | [] => []
  | [] :: rest => lines_of ordered (S i) rest
  | text :: rest => (marker ordered i ++ text) :: lines_of ordered (S i) rest
  end.

End RichLines.

(** * Properties *)

(** Case analysis on every comparison of code points in sight. *)
Ltac cmp_cases :=
  repeat match goal with
  | H : context [(?a <=? ?b)%N] |- _ => destruct (N.leb_spec a b)
  | H : context [(?a <? ?b)%N] |- _ => destruct (N.ltb_spec a b)
  | H : context [(?a =? ?b)%N] |- _ => destruct (N.eqb_spec a b)
  | |- context [(?a <=? ?b)%N] => destruct (N.leb_spec a b)
  | |- context [(?a <? ?b)%N] => destruct (N.ltb_spec a b)
  | |- context [(?a =? ?b)%N] => destruct (N.eqb_spec a b)
  end;
  simpl in *; try reflexivity; try discriminate; try lia.

Section SanitizeFacts.
Context {U : UnicodeData}.
Import utils.

Lemma handle_char_ascii c : handle_char c = true -> is_ascii c = true.
Proof. unfold handle_char, is_ascii; intros H; cmp_cases. Qed.

Lemma handle_char_not_space c : handle_char c = true -> isspace c = false.
Proof.
  intros H. unfold isspace. rewrite (handle_char_ascii _ H).
  unfold handle_char in H. cmp_cases.
Qed.

Lemma handle_char_lower c : handle_char c = true -> ascii_lower c = c.
Proof. unfold handle_char, ascii_lower. intros H. cmp_cases. Qed.

Lemma re_sub_runs_class b t : forallb handle_char (re_sub_runs b t) = true.
Proof.
  revert b. induction t as [|c t IH]; intros b; simpl; [reflexivity|].
  destruct (handle_char c) eqn:E; simpl.
  - now rewrite E, IH.
  - destruct b; simpl; now rewrite ?IH.
Qed.

Lemma re_sub_runs_fixed t :
  forallb handle_char t = true -> re_sub_runs false t = t.
Proof.
  induction t as [|c t IH]; simpl; [reflexivity|].
  intros H. apply andb_prop in H as [Hc Ht]. now rewrite Hc, IH.
Qed.

Lemma lstrip_fixed t : forallb handle_char t = true -> lstrip t = t.
Proof.
  destruct t as [|c t]; simpl; [reflexivity|].
  intros H. apply andb_prop in H as [Hc _].
  now rewrite (handle_char_not_space _ Hc).
Qed.

Lemma forallb_rev {A} (f : A -> bool) l : forallb f (rev l) = forallb f l.
Proof.
  induction l as [|a l IH]; simpl; [reflexivity|].
  rewrite forallb_app, IH. simpl. rewrite andb_true_r. apply andb_comm.
Qed.

Lemma strip_fixed t : forallb handle_char t = true -> strip t = t.
Proof.
  intros H. unfold strip, rstrip. rewrite (lstrip_fixed _ H).
  rewrite lstrip_fixed by now rewrite forallb_rev.
  apply rev_involutive.
Qed.

Lemma lower_fixed t : forallb handle_char t = true -> lower t = t.
Proof.
  intros H. unfold lower.
  assert (Ha : forallb is_ascii t = true).
  { rewrite forallb_forall in *. intros c Hc. now apply handle_char_ascii, H. }
  rewrite Ha. clear Ha.
  induction t as [|c t IH]; simpl; [reflexivity|].
  simpl in H. apply andb_prop in H as [Hc Ht].
  now rewrite (handle_char_lower _ Hc), IH.
Qed.

(** C9. [sanitize] is idempotent on every string, and
    [sanitize("Lemon - Fine Cut")] is ["lemon_fine_cut"]: the run [" - "]
    outside [[a-z0-9_]] collapses to one underscore. *)
Theorem sanitize_idempotent_and_example :
  (forall s : pystr, sanitize (sanitize s) = sanitize s) /\
  sanitize (str "Lemon - Fine Cut") = str "lemon_fine_cut".
Proof.
  split; [|reflexivity].
  intros s. unfold sanitize at 1.
  pose proof (re_sub_runs_class false (lower (strip s))) as H.
  fold (sanitize s) in H.
  now rewrite (strip_fixed _ H), (lower_fixed _ H), (re_sub_runs_fixed _ H).
Qed.

End SanitizeFacts.

(** ** True division and ceiling *)

Section CeilTrueDiv.
Local Open Scope Z_scope.

(** Rounding a scaled quotient to the nearest mantissa never reaches down to
    an integer that the exact quotient exceeds, as long as the dividend has
    fewer bits than the mantissa. *)
Lemma ceil_of_rounded a b P m :
  0 < a < 2 ^ 52 -> 0 < b -> 1 < P ->
  2 ^ 52 <= (a * P) / b ->
  (m = (a * P) / b \/ m = (a * P) / b + 1) ->
  ((a * P) mod b = 0 -> m = (a * P) / b) ->
  - ((- m) / P) = (a + b - 1) / b.
Proof.
  intros Ha Hb HP Hq Hm Hexact.
  pose proof (Z.div_mod a b ltac:(lia)) as Ea.
  pose proof (Z.mod_pos_bound a b Hb) as Hr0.
  pose proof (Z.div_mod (a * P) b ltac:(lia)) as Eq.
  pose proof (Z.mod_pos_bound (a * P) b Hb) as Hr.
  set (k := a / b) in *. set (r0 := a mod b) in *.
  set (q := (a * P) / b) in *. set (r := (a * P) mod b) in *.
  assert (Hk : 0 <= k) by (apply Z.div_pos; lia).
  destruct (Z.eq_dec r0 0) as [Hz | Hnz].
  - (* the quotient is an integer: nothing is rounded *)
    assert (Hqk : q = k * P).
    { unfold q. replace (a * P) with ((k * P) * b) by nia.
      apply Z.div_mul. lia. }
    assert (Hr' : r = 0) by nia.
    rewrite (Hexact Hr'), Hqk.
    replace (- (k * P)) with ((- k) * P) by ring.
    rewrite Z.div_mul by lia.
    replace (a + b - 1) with (k * b + (b - 1)) by nia.
    rewrite Z.div_add_l by lia. rewrite Z.div_small by lia. lia.
  - (* a proper fraction: the mantissa stays above k * P *)
    assert (Hupper : q < (k + 1) * P).
    { apply Z.div_lt_upper_bound; [lia | nia]. }
    assert (Hlower : k * P < m).
    { destruct (Z_lt_le_dec (k * P) q) as [Hlt | Hle]; [lia|].
      exfalso.
      assert (Hqk : k * P <= q) by (apply Z.div_le_lower_bound; nia).
      assert (Hq' : q = k * P) by lia.
      assert (Hsmall : r0 * P < b) by nia.
      assert (1 <= k) by nia.
      nia. }
    assert (Hm' : m <= (k + 1) * P) by lia.
    replace (a + b - 1) with ((k + 1) * b + (r0 - 1)) by nia.
    rewrite Z.div_add_l by lia. rewrite (Z.div_small (r0 - 1)) by lia.
    assert (E : (- m) / P = - (k + 1)).
    { symmetry. apply Z.div_unique with (r := (k + 1) * P - m); [left|]; nia. }
    rewrite E. lia.
Qed.

Lemma nearest64_small a b :
  0 < a < 2 ^ 52 -> 0 < b ->
  let '(m, e) := nearest64 a b in
  e < 0 /\ - ((- m) / 2 ^ (- e)) = (a + b - 1) / b.
Proof.
  intros Ha Hb. unfold nearest64.
  pose proof (Z.log2_spec a ltac:(lia)) as La.
  pose proof (Z.log2_spec b Hb) as Lb.
  pose proof (Z.log2_nonneg b) as Lb0.
  assert (La52 : Z.log2 a < 52).
  { apply Z.log2_lt_pow2; lia. }
  pose proof (Z.log2_nonneg a) as La0.
  set (la := Z.log2 a) in *. set (lb := Z.log2 b) in *.
  set (e0 := la - lb - 53).
  assert (He0 : e0 <= -2) by (unfold e0; lia).
  destruct (Z.leb_spec 0 e0) as [?|_]; [lia|].
  assert (Hs0 : 2 ^ 52 <= a * 2 ^ (- e0) / b).
  { apply Z.div_le_lower_bound; [lia|].
    assert (E : 2 ^ la * 2 ^ (- e0) = 2 ^ 52 * 2 ^ Z.succ lb).
    { rewrite <- !Z.pow_add_r by lia. f_equal. unfold e0. lia. }
    assert (0 < 2 ^ (- e0)) by (apply Z.pow_pos_nonneg; lia).
    nia. }
  assert (Hpow : 2 ^ (- e0) = 2 * 2 ^ (- (e0 + 1))).
  { replace (- e0) with (Z.succ (- (e0 + 1))) by lia.
    rewrite Z.pow_succ_r by lia. reflexivity. }
  assert (HP1 : 1 < 2 ^ (- (e0 + 1))).
  { apply Z.pow_gt_1; lia. }
  destruct (Z.ltb_spec (a * 2 ^ (- e0) / b) (2 ^ 53)) as [Hlt | Hge].
  - (* 53 bits at e0 *)
    destruct (Z.leb_spec 0 e0) as [?|_]; [lia|].
    split; [lia|].
    set (P := 2 ^ (- e0)) in *.
    assert (HP : 1 < P) by lia.
    apply ceil_of_rounded; try assumption.
    + destruct (Z.ltb_spec (2 * (a * P mod b)) b); [now left|].
      destruct (Z.ltb_spec b (2 * (a * P mod b))); [now right|].
      destruct (Z.even (a * P / b)); [now left | now right].
    + intros Hz. rewrite Hz.
      destruct (Z.ltb_spec (2 * 0) b); [reflexivity | lia].
  - (* 54 bits at e0: one exponent up *)
    destruct (Z.leb_spec 0 (e0 + 1)) as [?|_]; [lia|].
    split; [lia|].
    set (P := 2 ^ (- (e0 + 1))) in *.
    assert (Hs1 : 2 ^ 52 <= a * P / b).
    { apply Z.div_le_lower_bound; [lia|].
      assert (2 ^ 53 * b <= a * 2 ^ (- e0)).
      { pose proof (Z.mul_div_le (a * 2 ^ (- e0)) b Hb). nia. }
      change (2 ^ 53) with (2 * 2 ^ 52) in *. nia. }
    apply ceil_of_rounded; try assumption.
    + destruct (Z.ltb_spec (2 * (a * P mod b)) b); [now left|].
      destruct (Z.ltb_spec b (2 * (a * P mod b))); [now right|].
      destruct (Z.even (a * P / b)); [now left | now right].
    + intros Hz. rewrite Hz.
      destruct (Z.ltb_spec (2 * 0) b); [reflexivity | lia].
Qed.

(** Below [2^52] the binary64 quotient rounds up to the exact ceiling. *)
Lemma ceil_truediv_exact a b :
  0 <= a < 2 ^ 52 -> 0 < b -> ceil_truediv a b = Ok ((a + b - 1) / b).
Proof.
  intros Ha Hb. unfold ceil_truediv.
  destruct (Z.eqb_spec b 0) as [?|_]; [lia|].
  destruct (Z.eqb_spec a 0) as [-> | Hnz].
  - rewrite Z.div_small by lia. reflexivity.
  - pose proof (@nearest64_small a b ltac:(lia) Hb) as H.
    destruct (nearest64 a b) as [m e]. destruct H as [He H].
    destruct (Z.leb_spec 0 e) as [?|_]; [lia|].
    destruct (Z.leb_spec (2 ^ 1024) 0) as [Hbig|_].
    { exfalso. assert (0 < 2 ^ 1024) by (apply Z.pow_pos_nonneg; lia). lia. }
    unfold ceil64. destruct (Z.leb_spec 0 e) as [?|_]; [lia|].
    now rewrite H.
Qed.

End CeilTrueDiv.

(** ** Strings: splitting, stripping and int literals *)

Section StringFacts.
Context {U : UnicodeData}.

Lemma contains_char_false c s : contains [c] s = false -> lacks c s = true.
Proof.
  induction s as [|x s IH]; simpl; [reflexivity|].
  rewrite andb_true_r. intros H. apply orb_false_elim in H as [H1 H2].
  now rewrite H1, (IH H2).
Qed.

Lemma contains_char_app c a b : contains [c] (a ++ c :: b) = true.
Proof.
  induction a as [|x a IH]; simpl.
  - now rewrite N.eqb_refl.
  - rewrite IH. apply orb_true_r.
Qed.

Lemma split_from_lacks c cur a :
  lacks c a = true -> split_from c cur a = [rev cur ++ a].
Proof.
  revert cur. induction a as [|x a IH]; intros cur; simpl.
  - now rewrite app_nil_r.
  - intros H. apply andb_prop in H as [Hx Ha].
    rewrite N.eqb_sym. apply negb_true_iff in Hx. rewrite Hx.
    rewrite (IH _ Ha). simpl. now rewrite <- app_assoc.
Qed.

Lemma split_from_app c cur a b :
  lacks c a = true ->
  split_from c cur (a ++ c :: b) = (rev cur ++ a) :: split_from c [] b.
Proof.
  revert cur. induction a as [|x a IH]; intros cur; simpl.
  - intros _. now rewrite N.eqb_refl, app_nil_r.
  - intros H. apply andb_prop in H as [Hx Ha].
    rewrite N.eqb_sym. apply negb_true_iff in Hx. rewrite Hx.
    rewrite (IH _ Ha). simpl. now rewrite <- app_assoc.
Qed.

(** A text with one hyphen splits into the texts around it. *)
Lemma split_range lo hi :
  contains (str "-") lo = false -> contains (str "-") hi = false ->
  split 45 (lo ++ str "-" ++ hi) = [lo; hi].
Proof.
  intros Hlo Hhi. unfold split. change (str "-" ++ hi) with (45%N :: hi).
  rewrite split_from_app by now apply contains_char_false.
  rewrite split_from_lacks by now apply contains_char_false.
  reflexivity.
Qed.

Lemma forallb_lstrip (P : N -> bool) s :
  forallb P s = true -> forallb P (lstrip s) = true.
Proof.
  induction s as [|x s IH]; simpl; [reflexivity|].
  intros H. destruct (isspace x).
  - apply andb_prop in H as [_ H]. now apply IH.
  - exact H.
Qed.

Lemma forallb_strip (P : N -> bool) s :
  forallb P s = true -> forallb P (strip s) = true.
Proof.
  intros H. unfold strip, rstrip.
  rewrite forallb_rev. apply forallb_lstrip.
  rewrite forallb_rev. now apply forallb_lstrip.
Qed.

Lemma forallb_int_lskip (P : N -> bool) s :
  forallb P s = true -> forallb P (int_lskip s) = true.
Proof.
  induction s as [|x s IH]; simpl; [reflexivity|].
  intros H. destruct (int_space x).
  - apply andb_prop in H as [_ H]. now apply IH.
  - exact H.
Qed.

Lemma forallb_int_skip (P : N -> bool) s :
  forallb P s = true -> forallb P (int_skip s) = true.
Proof.
  intros H. unfold int_skip.
  rewrite forallb_rev. apply forallb_int_lskip.
  rewrite forallb_rev. now apply forallb_int_lskip.
Qed.

(** A literal without a minus sign denotes no negative number. *)
Lemma int_nonneg s n : lacks 45 s = true -> int s = Ok n -> (0 <= n)%Z.
Proof.
  intros Hs. unfold int.
  pose proof (forallb_int_skip _ _ Hs) as Ht.
  destruct (int_skip s) as [|c t]; simpl.
  - discriminate.
  - cbn [forallb] in Ht. apply andb_prop in Ht as [Hc _].
    apply negb_true_iff in Hc. rewrite N.eqb_sym in Hc. rewrite Hc.
    destruct (c =? 43)%N;
      match goal with
      | |- context [int_digits false ?b] =>
          destruct (int_digits false b) as [u|]; [destruct (too_many_digits u)|]
      end; intros E; inversion E; lia.
Qed.

End StringFacts.

(** *** Literals in decimal *)

Section IntFacts.
Context {U : UnicodeData}.
Import utils.

Lemma uint_chars_digits u :
  forallb (fun c => (48 <=? c) && (c <=? 57))%N (uint_chars u) = true.
Proof. induction u; cbn [uint_chars forallb]; auto. Qed.

Lemma decimal_nonempty n : decimal n <> [].
Proof.
  unfold decimal, N.to_uint. destruct n as [|p]; [discriminate|].
  pose proof (DecimalPos.Unsigned.to_uint_nonnil p) as H.
  destruct (Pos.to_uint p); try discriminate. now destruct H.
Qed.

Lemma int_digits_uint_chars u :
  int_digits true (uint_chars u) = Some u /\
  (u <> Decimal.Nil -> int_digits false (uint_chars u) = Some u).
Proof.
  induction u as [|u [IH _]|u [IH _]|u [IH _]|u [IH _]|u [IH _]
                  |u [IH _]|u [IH _]|u [IH _]|u [IH _]|u [IH _]];
    (split; [|intros Hn]); try reflexivity; try congruence;
    cbn [uint_chars int_digits]; unfold digit_value, is_ascii;
    cbn [N.eqb N.ltb N.leb N.compare Pos.compare Pos.compare_cont andb Pos.eqb
         N.sub Pos.sub Pos.sub_mask Pos.double_mask Pos.succ_double_mask
         Pos.double_pred_mask Pos.pred_double];
    rewrite IH; reflexivity.
Qed.

Lemma digits_lack (c : N) s :
  (c <? 48)%N = true \/ (57 <? c)%N = true ->
  forallb (fun x => (48 <=? x) && (x <=? 57))%N s = true -> lacks c s = true.
Proof.
  intros Hc H. unfold lacks. rewrite forallb_forall in *. intros x Hx.
  specialize (H x Hx). destruct Hc; cmp_cases.
Qed.

Lemma digits_handle s :
  forallb (fun x => (48 <=? x) && (x <=? 57))%N s = true ->
  forallb handle_char s = true.
Proof.
  intros H. rewrite forallb_forall in *. intros x Hx.
  specialize (H x Hx). unfold handle_char. cmp_cases.
Qed.

Lemma int_lskip_fixed t : forallb handle_char t = true -> int_lskip t = t.
Proof.
  destruct t as [|c t]; simpl; [reflexivity|].
  intros H. apply andb_prop in H as [Hc _].
  assert (int_space c = false) as ->; [|reflexivity].
  unfold int_space, is_ascii, handle_char in *. cmp_cases.
Qed.

Lemma int_skip_fixed t : forallb handle_char t = true -> int_skip t = t.
Proof.
  intros H. unfold int_skip. rewrite (int_lskip_fixed _ H).
  rewrite int_lskip_fixed by now rewrite forallb_rev.
  apply rev_involutive.
Qed.

Lemma little_double_digits d :
  (Decimal.nb_digits (Decimal.Little.double d) <= S (Decimal.nb_digits d))%nat /\
  (Decimal.nb_digits (Decimal.Little.succ_double d) <= S (Decimal.nb_digits d))%nat.
Proof. induction d; cbn [Decimal.Little.double Decimal.Little.succ_double Decimal.nb_digits]; lia. Qed.

Lemma to_little_uint_digits p :
  (Decimal.nb_digits (Pos.to_little_uint p) <= Pos.size_nat p)%nat.
Proof.
  induction p as [p IH|p IH|]; cbn [Pos.to_little_uint Pos.size_nat].
  - pose proof (little_double_digits (Pos.to_little_uint p)). lia.
  - pose proof (little_double_digits (Pos.to_little_uint p)). lia.
  - cbn. lia.
Qed.

Lemma size_nat_below p k : (Npos p < 2 ^ N.of_nat k)%N -> (Pos.size_nat p <= k)%nat.
Proof.
  revert k. induction p as [p IH|p IH|]; intros k H; cbn [Pos.size_nat];
    (destruct k as [|k]; [cbn in H; lia|]);
    rewrite Nat2N.inj_succ, N.pow_succ_r' in H.
  - apply le_n_S, IH. lia.
  - apply le_n_S, IH. lia.
  - lia.
Qed.

(** A number below [2^k] is written with [k] digits at most. *)
Lemma to_uint_digits n k :
  (n < 2 ^ N.of_nat k)%N -> (Decimal.nb_digits (N.to_uint n) <= Nat.max 1 k)%nat.
Proof.
  destruct n as [|p]; intros H.
  { change (N.to_uint 0) with (Decimal.D0 Decimal.Nil).
    cbn [Decimal.nb_digits]. lia. }
  cbn [N.to_uint]. unfold Pos.to_uint. rewrite DecimalFacts.nb_digits_rev.
  pose proof (to_little_uint_digits p). pose proof (size_nat_below p k H). lia.
Qed.

(** [int(str(n))] is [n], for a number that stays below the limit on
    digits. *)
Lemma int_decimal n : (n < 2 ^ 640)%N -> int (decimal n) = Ok (Z.of_N n).
Proof.
  intros Hn. unfold int, decimal.
  rewrite (int_skip_fixed _ (digits_handle _ (uint_chars_digits (N.to_uint n)))).
  pose proof (decimal_nonempty n) as Hne.
  pose proof (uint_chars_digits (N.to_uint n)) as Hd.
  unfold decimal in *.
  destruct (uint_chars (N.to_uint n)) as [|c t] eqn:E; [congruence|].
  cbn [forallb] in Hd. apply andb_prop in Hd as [Hc _].
  assert (E45 : (c =? 45)%N = false) by cmp_cases.
  assert (E43 : (c =? 43)%N = false) by cmp_cases.
  rewrite E45, E43, <- E.
  destruct (int_digits_uint_chars (N.to_uint n)) as [_ H].
  rewrite H.
  - assert (too_many_digits (N.to_uint n) = false) as ->.
    { unfold too_many_digits. destruct int_max_str_digits; [reflexivity|].
      apply Nat.ltb_ge.
      pose proof (to_uint_digits n 640 Hn). lia. }
    now rewrite DecimalN.Unsigned.of_to.
  - intros Hnil. rewrite Hnil in E. discriminate.
Qed.

End IntFacts.

(** ** C5: the quantity cell *)

Section QuantityFacts.
Context {U : UnicodeData}.
Import ProductParser.

Lemma calc_avg_quantity_plain (c : cell) :
  contains (str "-") (replace (str "pc") [] (cell_str c)) = false ->
  _calc_avg_quantity c = int (replace (str "pc") [] (cell_str c)).
Proof. intros H. unfold _calc_avg_quantity. now rewrite H. Qed.

Lemma calc_avg_quantity_range (c : cell) (lo hi : pystr) :
  replace (str "pc") [] (cell_str c) = lo ++ str "-" ++ hi ->
  contains (str "-") lo = false -> contains (str "-") hi = false ->
  _calc_avg_quantity c =
    let? a := int (strip lo) in
    let? b := int (strip hi) in
    if (a + b <? 2 ^ 52)%Z then Ok ((a + b + 1) / 2)%Z
    else ceil_truediv (a + b) 2.
Proof.
  intros E Hlo Hhi. unfold _calc_avg_quantity.
  rewrite E. pose proof (split_range _ _ Hlo Hhi) as Hsplit.
  change (lo ++ str "-" ++ hi) with (lo ++ 45%N :: hi) in *.
  change (str "-") with [45%N] in *.
  rewrite contains_char_app, Hsplit. simpl map_result.
  destruct (int (strip lo)) as [a|e] eqn:Ea; [|reflexivity].
  destruct (int (strip hi)) as [b|e] eqn:Eb; [|reflexivity].
  cbn [rbind fold_right List.length]. change (Z.of_nat 2) with 2%Z.
  rewrite Z.add_0_r.
  assert (0 <= a)%Z.
  { apply (int_nonneg (strip lo)); [|exact Ea].
    apply forallb_strip. now apply contains_char_false. }
  assert (0 <= b)%Z.
  { apply (int_nonneg (strip hi)); [|exact Eb].
    apply forallb_strip. now apply contains_char_false. }
  destruct (Z.ltb_spec (a + b) (2 ^ 52)) as [Hlt|Hge]; [|reflexivity].
  rewrite ceil_truediv_exact by lia.
  do 2 f_equal. lia.
Qed.

(** The literals of the examples. *)
Lemma int_small (n : N) : (n < 100)%N -> int (decimal n) = Ok (Z.of_N n).
Proof.
  intros H. apply int_decimal.
  assert (100 < 2 ^ 640)%N by (apply (N.lt_trans _ (2 ^ 7)); [reflexivity|];
                                apply N.pow_lt_mono_r; lia).
  lia.
Qed.

(** C5 (amended).  [_calc_avg_quantity] removes every occurrence of "pc" from
    the cell's text.  A remainder without a hyphen is parsed as an integer
    (and the call fails when it is none).  A remainder [lo-hi] with one hyphen
    is a range: both sides are trimmed and parsed as integers (the call fails
    when one is none), and the result is the ceiling of the average of the
    endpoints when their sum is below [2^52], the ceiling of the binary64
    quotient beyond.  "10-12pc" gives 11, "7pc" gives 7, "10-11pc" gives 11. *)
Theorem calc_avg_quantity_removes_every_pc (c : cell) :
  let rest := replace (str "pc") [] (cell_str c) in
  (contains (str "-") rest = false -> _calc_avg_quantity c = int rest) /\
  (forall lo hi : pystr,
      rest = lo ++ str "-" ++ hi ->
      contains (str "-") lo = false -> contains (str "-") hi = false ->
      _calc_avg_quantity c =
        let? a := int (strip lo) in
        let? b := int (strip hi) in
        if (a + b <? 2 ^ 52)%Z then Ok ((a + b + 1) / 2)%Z
        else ceil_truediv (a + b) 2) /\
  (_calc_avg_quantity (CellStr (str "10-12pc")) = Ok 11%Z /\
   _calc_avg_quantity (CellStr (str "7pc")) = Ok 7%Z /\
   _calc_avg_quantity (CellStr (str "10-11pc")) = Ok 11%Z).
Proof.
  intros rest. split; [|split].
  - apply calc_avg_quantity_plain.
  - apply calc_avg_quantity_range.
  - pose proof (int_small 10 eq_refl) as E10.
    pose proof (int_small 11 eq_refl) as E11.
    pose proof (int_small 12 eq_refl) as E12.
    pose proof (int_small 7 eq_refl) as E7.
    change (decimal 10) with (str "10") in E10.
    change (decimal 11) with (str "11") in E11.
    change (decimal 12) with (str "12") in E12.
    change (decimal 7) with (str "7") in E7.
    split; [|split].
    + rewrite (calc_avg_quantity_range _ (str "10") (str "12"));
        try reflexivity.
      change (strip (str "10")) with (str "10").
      change (strip (str "12")) with (str "12").
      now rewrite E10, E12.
    + rewrite calc_avg_quantity_plain by reflexivity.
      exact E7.
    + rewrite (calc_avg_quantity_range _ (str "10") (str "11"));
        try reflexivity.
      change (strip (str "10")) with (str "10").
      change (strip (str "11")) with (str "11").
      now rewrite E10, E11.
Qed.

End QuantityFacts.

(** *** Ranges written in decimal *)

Section DecimalRanges.
Context {U : UnicodeData}.
Import ProductParser utils.

Lemma lacks_contains c s : lacks c s = true -> contains [c] s = false.
Proof.
  induction s as [|x s IH]; cbn [lacks forallb contains startswith].
  - reflexivity.
  - intros H. apply andb_prop in H as [Hx Hs]. apply negb_true_iff in Hx.
    rewrite Hx. cbn [andb orb]. now apply IH.
Qed.

(** Without a "p" in the text, the only "pc" of [t ++ "pc"] is the suffix. *)
Lemma replace_trailing_pc t :
  lacks 112 t = true -> replace (str "pc") [] (t ++ str "pc") = t.
Proof.
  unfold replace. change (str "pc") with [112%N; 99%N].
  induction t as [|c t IH]; [reflexivity|].
  intros H. cbn [lacks forallb] in H. apply andb_prop in H as [Hc Ht].
  apply negb_true_iff in Hc.
  cbn [app replace_from startswith]. rewrite Hc. cbn [andb].
  f_equal. now apply IH.
Qed.

Lemma lacks_app c a b : lacks c (a ++ b) = lacks c a && lacks c b.
Proof. apply forallb_app. Qed.

(** A cell "lo-hi pc" written with decimal endpoints whose sum is below
    [2^52] yields the ceiling of their average, and "n pc" yields [n]. *)
Lemma calc_avg_quantity_decimal lo hi :
  (lo + hi < 2 ^ 52)%N ->
  _calc_avg_quantity (CellStr (decimal lo ++ str "-" ++ decimal hi ++ str "pc"))
  = Ok ((Z.of_N lo + Z.of_N hi + 1) / 2)%Z /\
  _calc_avg_quantity (CellStr (decimal lo ++ str "pc")) = Ok (Z.of_N lo).
Proof.
  intros Hsum.
  pose proof (uint_chars_digits (N.to_uint lo)) as Dlo.
  pose proof (uint_chars_digits (N.to_uint hi)) as Dhi.
  fold (decimal lo) in Dlo. fold (decimal hi) in Dhi.
  split.
  - unfold _calc_avg_quantity, cell_str.
    replace (decimal lo ++ str "-" ++ decimal hi ++ str "pc")
      with ((decimal lo ++ str "-" ++ decimal hi) ++ str "pc")
      by now rewrite <- !app_assoc.
    rewrite replace_trailing_pc.
    2:{ rewrite !lacks_app.
        rewrite (digits_lack 112 (decimal lo)), (digits_lack 112 (decimal hi))
          by (auto; now right).
        reflexivity. }
    change (decimal lo ++ str "-" ++ decimal hi)
      with (decimal lo ++ 45%N :: decimal hi).
    change (str "-") with [45%N]. rewrite contains_char_app.
    unfold split. rewrite split_from_app by (apply digits_lack; auto).
    rewrite split_from_lacks by (apply digits_lack; auto).
    cbn [rev app map_result].
    rewrite !(strip_fixed _ (digits_handle _ Dlo)).
    rewrite !(strip_fixed _ (digits_handle _ Dhi)).
    assert (H640 : (2 ^ 52 < 2 ^ 640)%N) by (apply N.pow_lt_mono_r; lia).
    rewrite !int_decimal by lia. cbn [rbind fold_right List.length].
    change (Z.of_nat 2) with 2%Z. rewrite Z.add_0_r.
    rewrite ceil_truediv_exact by lia.
    do 2 f_equal. lia.
  - unfold _calc_avg_quantity, cell_str.
    rewrite replace_trailing_pc by (apply digits_lack; auto; now right).
    change (str "-") with [45%N].
    rewrite lacks_contains by (apply digits_lack; auto).
    assert (H640 : (2 ^ 52 < 2 ^ 640)%N) by (apply N.pow_lt_mono_r; lia).
    apply int_decimal. lia.
Qed.

End DecimalRanges.

Section QuantityExamples.
Import ProductParser.
#[local] Existing Instance ascii_only.

(** The decimal range 10-12 and its suffix. *)
Lemma calc_avg_quantity_decimal_witness :
  (10 + 12 < 2 ^ 52)%N /\
  _calc_avg_quantity (CellStr (decimal 10 ++ str "-" ++ decimal 12 ++ str "pc"))
  = Ok 11%Z.
Proof.
  split; [reflexivity|].
  apply (calc_avg_quantity_decimal (U := ascii_only) 10 12). reflexivity.
Defined.

(** The theorem at the cell "10-12pc": the remainder is the range 10-12. *)
Lemma calc_avg_quantity_range_witness :
  replace (str "pc") [] (cell_str (CellStr (str "10-12pc")))
    = str "10" ++ str "-" ++ str "12" /\
  contains (str "-") (str "10") = false /\
  contains (str "-") (str "12") = false /\
  _calc_avg_quantity (CellStr (str "10-12pc")) = Ok 11%Z.
Proof.
  split; [reflexivity|]. split; [reflexivity|]. split; [reflexivity|].
  destruct (calc_avg_quantity_removes_every_pc (CellStr (str "10-12pc")))
    as [_ [H _]].
  rewrite (H (str "10") (str "12")); reflexivity.
Defined.

(** C5 as it was stated fails on the cell "10pc-12pc": only a trailing "pc"
    removed leaves "10pc-12", whose first endpoint is no integer, while the
    code removes both and answers 11. *)
Lemma calc_avg_quantity_inner_pc :
  _calc_avg_quantity (CellStr (str "10pc-12pc")) = Ok 11%Z /\
  calc_avg_quantity_spec (CellStr (str "10pc-12pc")) = Err (raised ValueError).
Proof. split; reflexivity. Qed.

(** Beyond [2^52] the binary64 quotient can round down to an integer:
    the average of 2^53 + 1 and 0 is answered by 2^52. *)
Lemma calc_avg_quantity_rounds_beyond :
  _calc_avg_quantity (CellStr (str "9007199254740993-0"))
  = Ok 4503599627370496%Z.
Proof. vm_compute. reflexivity. Qed.

(** [int] skips the white space of C only: the separator U+001C before a
    digit is refused by [int], although [str.strip] removes it from the
    endpoint of a range. *)
Lemma calc_avg_quantity_separator :
  int [28%N; 55%N] = Err (raised ValueError) /\
  _calc_avg_quantity (CellStr [28%N; 55%N]) = Err (raised ValueError) /\
  _calc_avg_quantity (CellStr ([28%N; 55%N] ++ str "-9")) = Ok 8%Z.
Proof. repeat split. Qed.

End QuantityExamples.

(** ** C1: the handle of a parsed row *)

Section HandleFacts.
Context {U : UnicodeData}.
Import ProductParser utils.

Lemma map_result_In {A B} (f : A -> result B) l bs b :
  map_result f l = Ok bs -> In b bs -> exists a, In a l /\ f a = Ok b.
Proof.
  revert bs. induction l as [|a l IH]; simpl; intros bs H Hb.
  - inversion H; subst. destruct Hb.
  - destruct (f a) as [b0|e] eqn:Ea; simpl in H; [|discriminate].
    destruct (map_result f l) as [bs0|e]; simpl in H; [|discriminate].
    inversion H; subst. destruct Hb as [-> | Hb].
    + exists a. auto.
    + destruct (IH _ eq_refl Hb) as [a' [Ha' Hf]]. exists a'. auto.
Qed.

Lemma parse_row_handle width rq row :
  parse_row width rq = Ok row ->
  HANDLE row = str "dehydrated_" ++ _sanitize (PRODUCT row)
               ++ str "_cocktail_garnish".
Proof.
  unfold parse_row. destruct rq as [cells quantity].
  repeat match goal with
  | |- rbind ?m _ = _ -> _ => destruct m; cbn [rbind]; [|discriminate]
  end.
  intros E. inversion E. reflexivity.
Qed.

Lemma parse_excel_rows wb rows row :
  parse_excel wb = Ok rows -> In row rows ->
  exists width rq, parse_row width rq = Ok row.
Proof.
  revert rows. induction wb as [|sh wb IH]; simpl; intros rows H Hin.
  - inversion H; subst. destruct Hin.
  - destruct (str_eqb (sheet_name sh) (str "Wholesale")
              || str_eqb (sheet_name sh) (str "Retail")); [|eauto].
    destruct (parse_sheet sh) as [rs|e] eqn:Es; cbn [rbind] in H; [|discriminate].
    destruct (parse_excel wb) as [more|e]; cbn [rbind] in H; [|discriminate].
    inversion H; subst. apply in_app_or in Hin as [Hin | Hin]; [|eauto].
    unfold parse_sheet in Es.
    destruct (7 <? sheet_width sh)%nat; [discriminate|].
    match type of Es with rbind ?m _ = _ => destruct m; cbn [rbind] in Es end;
      [|discriminate].
    destruct (map_result_In _ _ _ _ Es Hin) as [rq [_ Hrq]]. eauto.
Qed.

Lemma replace_space t :
  replace (str " ") (str "_") t = map (fun c => if (c =? 32)%N then 95%N else c) t.
Proof.
  unfold replace. change (str " ") with [32%N]. change (str "_") with [95%N].
  induction t as [|c t IH]; [reflexivity|].
  cbn [replace_from startswith map List.length Nat.sub app].
  rewrite N.eqb_sym, andb_true_r. destruct (c =? 32)%N; now rewrite IH.
Qed.

Lemma re_sub_runs_plain b t :
  forallb (fun c => (c =? 32)%N || handle_char (ascii_lower c)) t = true ->
  single_spaced t = true ->
  (b = true -> match t with c :: _ => (c =? 32)%N = false | [] => True end) ->
  re_sub_runs b (map ascii_lower t)
  = map ascii_lower (map (fun c => if (c =? 32)%N then 95%N else c) t).
Proof.
  revert b. induction t as [|c t IH]; intros b Hc Hs Hb; [reflexivity|].
  cbn [forallb] in Hc. apply andb_prop in Hc as [Hc Ht].
  assert (Hs' : single_spaced t = true).
  { destruct t; [reflexivity|]. cbn [single_spaced] in Hs.
    now apply andb_prop in Hs as [_ Hs]. }
  cbn [map re_sub_runs].
  destruct (N.eqb_spec c 32) as [-> | Hne].
  - change (handle_char (ascii_lower 32)) with false. cbv iota.
    assert (b = false) as ->.
    { destruct b; [|reflexivity]. specialize (Hb eq_refl). discriminate. }
    change (ascii_lower 95) with 95%N. f_equal.
    apply IH; try assumption.
    intros _. destruct t as [|d t]; [exact I|].
    cbn [single_spaced] in Hs. apply andb_prop in Hs as [Hs _].
    rewrite N.eqb_refl in Hs. simpl in Hs. now apply negb_true_iff in Hs.
  - simpl in Hc. rewrite Hc. f_equal.
    apply IH; try assumption. discriminate.
Qed.

(** On a plain name the two sanitizers agree. *)
Lemma sanitize_agree s :
  plain_name (strip s) = true -> _sanitize s = sanitize s.
Proof.
  unfold plain_name, _sanitize, sanitize. intros H.
  apply andb_prop in H as [Hc Hs].
  set (t := strip s) in *.
  assert (Ha : forallb is_ascii t = true).
  { rewrite forallb_forall in *. intros c Hin. specialize (Hc c Hin).
    unfold is_ascii, handle_char, ascii_lower in *. cmp_cases. }
  rewrite replace_space. unfold lower. rewrite Ha.
  assert (Ha' : forallb is_ascii
                  (map (fun c => if (c =? 32)%N then 95%N else c) t) = true).
  { rewrite forallb_forall in *. intros c Hin.
    apply in_map_iff in Hin as [d [<- Hd]]. specialize (Ha d Hd).
    destruct (d =? 32)%N; [reflexivity | exact Ha]. }
  rewrite Ha'. symmetry. apply re_sub_runs_plain; try assumption. discriminate.
Qed.

(** C1 (amended).  Every row that [parse_excel] produces has the handle
    "dehydrated_" + [_sanitize(product_name)] + "_cocktail_garnish", where
    [_sanitize] is the parser's own helper (strip, every space replaced by an
    underscore, lowercase); it is the shared [sanitize] of utils.py whenever
    the name is made of ASCII letters, digits and underscores separated by
    single spaces. *)
Theorem parse_excel_handle wb rows row :
  parse_excel wb = Ok rows -> In row rows ->
  HANDLE row = str "dehydrated_" ++ _sanitize (PRODUCT row)
               ++ str "_cocktail_garnish" /\
  (plain_name (strip (PRODUCT row)) = true ->
   HANDLE row = str "dehydrated_" ++ sanitize (PRODUCT row)
                ++ str "_cocktail_garnish").
Proof.
  intros H Hin. destruct (parse_excel_rows _ _ _ H Hin) as [w [rq Hrow]].
  pose proof (parse_row_handle _ _ _ Hrow) as Hh. split; [exact Hh|].
  intros Hp. now rewrite <- (sanitize_agree _ Hp).
Qed.

End HandleFacts.

Section HandleExamples.
Import ProductParser utils Samples.
#[local] Existing Instance ascii_only.

(** The theorem at the row "Lemon - Fine Cut - Small Jar". *)
Lemma parse_excel_handle_witness :
  parse_excel (workbook "Lemon - Fine Cut - Small Jar" "10-12pc")
    = Ok [lemon_row 11] /\
  HANDLE (lemon_row 11) = str "dehydrated_" ++ sanitize (PRODUCT (lemon_row 11))
                          ++ str "_cocktail_garnish".
Proof.
  split; [reflexivity|].
  apply (parse_excel_handle
           (workbook "Lemon - Fine Cut - Small Jar" "10-12pc")
           [lemon_row 11] (lemon_row 11));
    [reflexivity | left; reflexivity | reflexivity].
Defined.

(** C1 as it was stated fails on the product "Lemon & Lime - Fine Cut": the
    parser keeps the ampersand that the shared [sanitize] would fold into the
    underscore run. *)
Lemma parse_excel_handle_differs :
  exists row,
    parse_excel (workbook "Lemon & Lime - Fine Cut - Small Jar" "7pc") = Ok [row] /\
    PRODUCT row = str "Lemon & Lime" /\
    HANDLE row = str "dehydrated_lemon_&_lime_cocktail_garnish" /\
    str "dehydrated_" ++ sanitize (PRODUCT row) ++ str "_cocktail_garnish"
      = str "dehydrated_lemon_lime_cocktail_garnish" /\
    str_eqb (HANDLE row)
      (str "dehydrated_" ++ sanitize (PRODUCT row) ++ str "_cocktail_garnish")
    = false.
Proof. eexists. repeat split. Qed.

End HandleExamples.

(** ** C3: the recursive search *)

Section SearchFacts.
Import utils.

(** Induction on a value with the hypothesis for every item and entry. *)
Lemma value_nested_ind (P : value -> Prop) :
  P VNone -> (forall b, P (VBool b)) -> (forall n, P (VInt n)) ->
  (forall s, P (VStr s)) ->
  (forall l, Forall P l -> P (VList l)) ->
  (forall d, Forall (fun kv => P (snd kv)) d -> P (VDict d)) ->
  forall v, P v.
Proof.
  intros HN HB HI HS HL HD.
  fix IH 1. intros [| b | n | s | l | d].
  - exact HN.
  - apply HB.
  - apply HI.
  - apply HS.
  - apply HL. induction l as [|x l IHl]; constructor; [apply IH | exact IHl].
  - apply HD. induction d as [|[k x] d IHd]; constructor; [apply IH | exact IHd].
Qed.

Lemma search_list l key target :
  recursive_dict_search (VList l) key target
  = first_found (map (fun v => recursive_dict_search v key target) l).
Proof.
  cbn [recursive_dict_search].
  induction l as [|x l IH]; [reflexivity|].
  cbn [map first_found]. now rewrite IH.
Qed.

Lemma search_dict d key target :
  recursive_dict_search (VDict d) key target
  = let in_values :=
      first_found (map (fun kv => recursive_dict_search (snd kv) key target) d) in
    match dict_get d key with
    | Some v => if is_none target || py_eq v target then v else in_values
    | None => in_values
    end.
Proof.
  cbn [recursive_dict_search]. cbv zeta.
  assert (E : (fix values (d0 : list (pystr * value)) : value :=
                 match d0 with
                 | [] => VNone
                 | (_, v) :: d' =>
                     if is_none (recursive_dict_search v key target)
                     then values d'
                     else recursive_dict_search v key target
                 end) d
              = first_found
                  (map (fun kv => recursive_dict_search (snd kv) key target) d)).
  { induction d as [|[k x] d IH]; [reflexivity|].
    cbn [map first_found snd]. now rewrite IH. }
  now rewrite E.
Qed.

Lemma matching_list l key target :
  matching_values (VList l) key target
  = flat_map (fun v => matching_values v key target) l.
Proof.
  cbn [matching_values].
  induction l as [|x l IH]; [reflexivity|].
  cbn [flat_map]. now rewrite IH.
Qed.

Lemma matching_dict d key target :
  matching_values (VDict d) key target
  = match dict_get d key with
    | Some v => if is_none target || py_eq v target then [v] else []
    | None => []
    end ++ flat_map (fun kv => matching_values (snd kv) key target) d.
Proof.
  cbn [matching_values]. f_equal.
  induction d as [|[k x] d IH]; [reflexivity|].
  cbn [flat_map snd]. now rewrite IH.
Qed.

(** The loop returns the head of the concatenated matches when every part
    does and no match is [None]. *)
Lemma first_found_flat_map {A} (f : A -> value) (g : A -> list value) l :
  Forall (fun a => all_some (g a) = true -> f a = hd VNone (g a)) l ->
  all_some (flat_map g l) = true ->
  first_found (map f l) = hd VNone (flat_map g l).
Proof.
  induction 1 as [|a l Ha _ IH]; intros Hall; [reflexivity|].
  cbn [map first_found flat_map] in *. unfold all_some in *.
  rewrite forallb_app in Hall. apply andb_prop in Hall as [Hga Hrest].
  rewrite (Ha Hga). destruct (g a) as [|x xs]; cbn [hd app is_none].
  - now apply IH.
  - cbn [forallb] in Hga. apply andb_prop in Hga as [Hx _].
    apply negb_true_iff in Hx. now rewrite Hx.
Qed.

Lemma search_is_first_match data key target :
  all_some (matching_values data key target) = true ->
  recursive_dict_search data key target
  = hd VNone (matching_values data key target).
Proof.
  revert data.
  apply (value_nested_ind
           (fun data => all_some (matching_values data key target) = true ->
                        recursive_dict_search data key target
                        = hd VNone (matching_values data key target)));
    try reflexivity.
  - intros l IH Hall. rewrite search_list, matching_list in *.
    now apply first_found_flat_map.
  - intros d IH Hall. rewrite search_dict, matching_dict in *. cbv zeta.
    unfold all_some in Hall. rewrite forallb_app in Hall.
    apply andb_prop in Hall as [_ Hrest].
    destruct (dict_get d key) as [v|].
    + destruct (is_none target || py_eq v target); [reflexivity|].
      now apply first_found_flat_map.
    + now apply first_found_flat_map.
Qed.

(** C3 (amended).  The search examines, at a mapping, the mapping's own entry
    under [key] before it descends into the mapping's values in order, and
    the items of a sequence in order.  When no matching entry (key equal to
    [key] and, with a [target_value], value equal to it) holds [None], the
    search returns the value of the first matching entry in that order; and
    it returns [None] when no entry matches. *)
Theorem recursive_dict_search_first_match data key target :
  (all_some (matching_values data key target) = true ->
   recursive_dict_search data key target = first_match data key target) /\
  (matching_values data key target = [] ->
   recursive_dict_search data key target = VNone).
Proof.
  split.
  - apply search_is_first_match.
  - intros H. rewrite search_is_first_match; now rewrite H.
Qed.

End SearchFacts.

Section SearchExamples.
Import utils Samples.

(** The theorem on an upsert response: the metaobject is found. *)
Lemma recursive_dict_search_witness :
  all_some (matching_values upsert_response (str "metaobject") VNone) = true /\
  recursive_dict_search upsert_response (str "metaobject") VNone
  = VDict [(str "id", VStr (str "gid://shopify/Metaobject/1"));
           (str "handle", VStr (str "blood_orange_mule"))].
Proof.
  split; [reflexivity|].
  rewrite (proj1 (recursive_dict_search_first_match upsert_response
                    (str "metaobject") VNone)); reflexivity.
Defined.

(** C3 as it was stated fails where the first matching entry holds [None]:
    the search passes over it and returns the next match. *)
Lemma recursive_dict_search_skips_none :
  first_match null_then_id (str "id") VNone = VNone /\
  recursive_dict_search null_then_id (str "id") VNone
  = VStr (str "gid://shopify/Metaobject/2").
Proof. split; reflexivity. Qed.

(** The mapping's own entry is examined before the nested ones. *)
Lemma recursive_dict_search_own_entry_first :
  recursive_dict_search nested_then_own (str "id") VNone = VStr (str "outer").
Proof. reflexivity. Qed.

End SearchExamples.

(** ** C2: validation of the transcript *)

Section TranscriptFacts.
Import Samples.

Lemma missing_nil d :
  transcription.missing d = [] <->
  (forall k, In k required_keys -> dict_has d k = true).
Proof.
  unfold transcription.missing. split.
  - intros H k Hk. destruct (dict_has d k) eqn:E; [reflexivity|].
    assert (Hin : In k (filter (fun k => negb (dict_has d k)) required_keys)).
    { apply filter_In. split; [exact Hk | now rewrite E]. }
    rewrite H in Hin. destruct Hin.
  - intros H. destruct (filter _ _) as [|k m] eqn:E; [reflexivity|].
    assert (Hin : In k (filter (fun k => negb (dict_has d k)) required_keys))
      by (rewrite E; now left).
    apply filter_In in Hin as [Hk Hn]. rewrite (H k Hk) in Hn. discriminate.
Qed.

(** transcription/transcriber.py accepts a parsed object exactly when the
    four keys are present and both lists hold strings only; a missing key
    is reported by name, a wrong list as such. *)
Lemma transcription_validate_spec d :
  (transcription.validate_response_structure (VDict d) = Ok tt <->
   (forall k, In k required_keys -> dict_has d k = true) /\
   (exists l, dict_get d (str "ingredients") = Some (VList l)
              /\ forallb is_str l = true) /\
   (exists l, dict_get d (str "instructions") = Some (VList l)
              /\ forallb is_str l = true)) /\
  (transcription.missing d <> [] ->
   transcription.validate_response_structure (VDict d)
   = Err (Exn ValueError
            (Some (str "Missing keys: "
                   ++ join (str ", ") (transcription.missing d))))) /\
  (transcription.missing d = [] ->
   (forall v, dict_get d (str "ingredients") = Some v -> list_of_str v = false) ->
   transcription.validate_response_structure (VDict d)
   = Err (Exn ValueError (Some (str "ingredients must be a list of strings")))).
Proof.
  unfold transcription.validate_response_structure, subscript.
  split; [|split].
  - split.
    + intros H. destruct (transcription.missing d) eqn:Em; [|discriminate].
      split; [now apply missing_nil|].
      destruct (dict_get d (str "ingredients")) as [i|]; [|discriminate].
      cbn [rbind] in H.
      destruct (list_of_str i) eqn:Ei; [|discriminate]. cbn [negb] in H.
      destruct (dict_get d (str "instructions")) as [j|]; [|discriminate].
      cbn [rbind] in H.
      destruct (list_of_str j) eqn:Ej; [|discriminate].
      destruct i; try discriminate. destruct j; try discriminate.
      split; eexists; split; try reflexivity; assumption.
    + intros [Hk [[l [El Hl]] [l' [El' Hl']]]].
      apply missing_nil in Hk. rewrite Hk, El. cbn [rbind list_of_str].
      rewrite Hl, El'. cbn [negb rbind list_of_str]. now rewrite Hl'.
  - intros H. destruct (transcription.missing d); [congruence | reflexivity].
  - intros Hm Hi. rewrite Hm.
    pose proof (proj1 (missing_nil d) Hm (str "ingredients")) as Hk.
    unfold dict_has in Hk.
    destruct (dict_get d (str "ingredients")) as [i|].
    + cbn [rbind]. now rewrite (Hi i eq_refl).
    + discriminate Hk. cbn. auto.
Qed.

End TranscriptFacts.

Section TranscriptExamples.
Import Samples.
Context {O : shopify_transcriber.SetOrder}.

(** C2 (defect in shopify_utils/transcriber.py).  On a transcript with all
    four keys whose ingredients hold a number, the validation of
    transcription/transcriber.py fails, and the one of
    shopify_utils/transcriber.py, which checks the keys only, accepts. *)
Theorem shopify_validate_accepts_number :
  shopify_transcriber.validate_response_structure transcript_with_number = Ok tt /\
  transcription.validate_response_structure transcript_with_number
  = Err (Exn ValueError (Some (str "ingredients must be a list of strings"))).
Proof. split; reflexivity. Qed.

(** A transcript without instructions is refused by name, a conformant one
    is accepted. *)
Lemma transcription_validate_examples :
  transcription.validate_response_structure transcript_without_instructions
  = Err (Exn ValueError (Some (str "Missing keys: instructions"))) /\
  transcription.validate_response_structure transcript_ok = Ok tt.
Proof. split; reflexivity. Qed.

End TranscriptExamples.

(** ** C4: variant positions *)

Section PositionFacts.
Import Effects VariantUpdater Samples.
Context {W : World}.

Lemma str_eqb_eq a b : str_eqb a b = true <-> a = b.
Proof. unfold str_eqb. destruct (list_eq_dec N.eq_dec a b); split; congruence. Qed.

Lemma order_get_table size pos :
  order_get VARIANT_ORDER size = Some pos <-> In (size, pos) VARIANT_ORDER.
Proof.
  unfold VARIANT_ORDER. cbn [order_get In]. split.
  - repeat match goal with
    | |- context [str_eqb ?k size] =>
        let E := fresh "E" in
        destruct (str_eqb k size) eqn:E;
        [apply str_eqb_eq in E; subst size; intros H; inversion H; tauto|]
    end. discriminate.
  - intros H. repeat destruct H as [H|H]; inversion H; reflexivity.
Qed.

Lemma order_get_nonzero size pos :
  order_get VARIANT_ORDER size = Some pos -> (pos =? 0)%Z = false.
Proof.
  intros H. apply order_get_table in H. unfold VARIANT_ORDER in H.
  repeat destruct H as [H|H]; inversion H; reflexivity.
Qed.

Lemma collect_positions_from acc variants :
  fold_left
    (fun positions v =>
       match order_get VARIANT_ORDER (v_option1 v) with
       | Some pos => if (pos =? 0)%Z then positions
                     else positions ++ [(v_id v, pos)]
       | None => positions
       end) variants acc
  = acc ++ flat_map position_pair variants.
Proof.
  revert acc. induction variants as [|v vs IH]; intros acc; cbn [fold_left flat_map].
  - now rewrite app_nil_r.
  - rewrite IH. unfold position_pair at 2.
    destruct (order_get VARIANT_ORDER (v_option1 v)) as [pos|] eqn:E.
    + rewrite (order_get_nonzero _ _ E). now rewrite <- app_assoc.
    + reflexivity.
Qed.

Lemma collect_positions_pairs variants :
  collect_positions variants = flat_map position_pair variants.
Proof. unfold collect_positions. now rewrite collect_positions_from. Qed.

Lemma log_trace m st :
  snd (snd (log m st)) = snd st \/ snd (snd (log m st)) = snd st ++ [Logged m].
Proof.
  unfold log, bind, call, emit.
  destruct (stdout_print m (fst st)) as [[[]|e] w]; cbn [fst snd]; auto.
Qed.

(** C4.  [_update_variant_positions] generates a pair [{id, position}]
    exactly for the variants whose [option1] is a key of the table Pouch 1,
    Small Jar 2, Large Jar 3, Small Bulk 4, Large Bulk 5, in the order of the
    variants: when the pairs are not empty it sends one reorder mutation
    that carries the product id and these pairs, and nothing else before it.
    "Hanging Pouch" and "Stand Up Pouch" are no keys.  When no variant
    matches, the call is the line of the log alone and the trace gains no
    request.  The sizes Small Jar, Unknown Size, Large Bulk give the
    mutation with the two pairs of positions 2 and 5. *)
Theorem update_variant_positions_pairs :
  (forall size pos,
      order_get VARIANT_ORDER size = Some pos <->
      In (size, pos)
         [(str "Pouch", 1); (str "Small Jar", 2); (str "Large Jar", 3);
          (str "Small Bulk", 4); (str "Large Bulk", 5)]%Z) /\
  (order_get VARIANT_ORDER (str "Hanging Pouch") = None /\
   order_get VARIANT_ORDER (str "Stand Up Pouch") = None) /\
  (forall product_id variants st,
      flat_map (fun v => match order_get VARIANT_ORDER (v_option1 v) with
                         | Some pos => [(v_id v, pos)]
                         | None => []
                         end) variants <> [] ->
      _update_variant_positions product_id variants st
      = (let! result :=
           query ReorderVariants
             (VDict [(str "productId", VStr product_id);
                     (str "positions",
                      VList
                        (map (fun p => VDict [(str "id", VStr (fst p));
                                              (str "position", VInt (snd p))])
                           (flat_map
                              (fun v =>
                                 match order_get VARIANT_ORDER (v_option1 v) with
                                 | Some pos => [(v_id v, pos)]
                                 | None => []
                                 end) variants)))]) in
         log (VariantPositionsUpdated result)) st) /\
  (forall product_id variants st,
      (forall v, In v variants ->
                 order_get VARIANT_ORDER (v_option1 v) = None) ->
      _update_variant_positions product_id variants st = log NoVariantsMatched st /\
      (snd (snd (_update_variant_positions product_id variants st)) = snd st \/
       snd (snd (_update_variant_positions product_id variants st))
       = snd st ++ [Logged NoVariantsMatched])) /\
  (forall product_id st,
      _update_variant_positions product_id three_variants st
      = (let! result :=
           query ReorderVariants
             (VDict [(str "productId", VStr product_id);
                     (str "positions",
                      VList [VDict [(str "id",
                                     VStr (str "gid://shopify/ProductVariant/1"));
                                    (str "position", VInt 2)];
                             VDict [(str "id",
                                     VStr (str "gid://shopify/ProductVariant/3"));
                                    (str "position", VInt 5)]])]) in
         log (VariantPositionsUpdated result)) st).
Proof.
  split; [|split; [|split; [|split]]].
  - apply order_get_table.
  - split; reflexivity.
  - intros product_id variants st Hne.
    unfold _update_variant_positions. rewrite collect_positions_pairs.
    fold position_pair in *.
    destruct (flat_map position_pair variants); [congruence | reflexivity].
  - intros product_id variants st Hnone.
    assert (E : collect_positions variants = []).
    { rewrite collect_positions_pairs.
      induction variants as [|v vs IH]; [reflexivity|].
      cbn [flat_map]. unfold position_pair at 1.
      rewrite (Hnone v) by now left.
      apply IH. intros v' Hv'. apply Hnone. now right. }
    unfold _update_variant_positions. rewrite E.
    split; [reflexivity | apply log_trace].
  - reflexivity.
Qed.

End PositionFacts.

(** ** C6 and C7: variant metafields *)

Section MetafieldFacts.
Import Effects VariantUpdater ProductParser Samples.
Context {W : World} {F : Floats}.

Lemma update_variant_metafields_matched parsed_df v product_title row rest st :
  matching_rows parsed_df v product_title = row :: rest ->
  _update_variant_metafields parsed_df v product_title st
  = (let! amount := lift (price_per_piece_amount (v_price v) (QUANTITY row)) in
     let! result :=
       query UpdateVariant
         (VDict [(str "input",
                  VDict [(str "id", VStr (v_id v));
                         (str "metafields",
                          VList [metafield "quantity" "number_integer"
                                   (str_of_int (QUANTITY row));
                                 metafield "price_per_piece" "money"
                                   (dumps_money amount)])])]) in
     log (VariantMetafieldsUpdated result)) st.
Proof.
  unfold _update_variant_metafields. intros E.
  destruct parsed_df as [|r df]; [discriminate|].
  now rewrite E.
Qed.

Lemma float_overflow_positive : (0 < float_overflow)%Z.
Proof. reflexivity. Qed.


(** C7 (amended).  The division by the matched quantity is unguarded: with
    a matched quantity of zero the call raises before anything is sent, and
    what it raises is ZeroDivisionError as soon as the price is a float.
    With a positive quantity no division by zero occurs: below
    [2^1024 - 2^970] the division yields its quotient and the call goes on
    to send the update; from there on the quantity is too large to convert
    to a float, and the call raises OverflowError before anything is
    sent. *)
Theorem update_variant_metafields_division parsed_df v product_title row rest st :
  matching_rows parsed_df v product_title = row :: rest ->
  (QUANTITY row = 0%Z ->
   exists e, _update_variant_metafields parsed_df v product_title st = (Err e, st)) /\
  (forall p,
      float_of_str (v_price v) = Ok p ->
      (QUANTITY row = 0%Z ->
       _update_variant_metafields parsed_df v product_title st
       = (Err (raised ZeroDivisionError), st)) /\
      ((0 < QUANTITY row < 2 ^ 1024 - 2 ^ 970)%Z ->
       price_per_piece_amount (v_price v) (QUANTITY row)
       = Ok (float_div_int p (QUANTITY row)) /\
       _update_variant_metafields parsed_df v product_title st
       = (let! result :=
            query UpdateVariant
              (VDict [(str "input",
                       VDict [(str "id", VStr (v_id v));
                              (str "metafields",
                               VList [metafield "quantity" "number_integer"
                                        (str_of_int (QUANTITY row));
                                      metafield "price_per_piece" "money"
                                        (dumps_money
                                           (float_div_int p (QUANTITY row)))])])]) in
          log (VariantMetafieldsUpdated result)) st) /\
      ((2 ^ 1024 - 2 ^ 970 <= QUANTITY row)%Z ->
       _update_variant_metafields parsed_df v product_title st
       = (Err (raised OverflowError), st))).
Proof.
  intros E. rewrite (update_variant_metafields_matched _ _ _ _ _ _ E).
  unfold price_per_piece_amount. fold float_overflow.
  pose proof float_overflow_positive as Hpos. split.
  - intros Hz. rewrite Hz. unfold bind, lift.
    destruct (float_of_str (v_price v)) as [p|e]; cbn [rbind Z.abs Z.eqb];
      [|eauto].
    destruct (Z.leb_spec float_overflow 0) as [?|_]; [lia | eauto].
  - intros p Hp. rewrite Hp. cbn [rbind]. split; [|split].
    + intros Hz. rewrite Hz. cbn [Z.abs].
      destruct (Z.leb_spec float_overflow 0) as [?|_]; [lia | reflexivity].
    + intros Hq.
      destruct (Z.leb_spec float_overflow (Z.abs (QUANTITY row))) as [?|_]; [lia|].
      destruct (Z.eqb_spec (QUANTITY row) 0) as [?|_]; [lia|].
      split; reflexivity.
    + intros Hq.
      destruct (Z.leb_spec float_overflow (Z.abs (QUANTITY row))) as [_|?]; [|lia].
      reflexivity.
Qed.

End MetafieldFacts.

Section PositionExamples.
Import Effects VariantUpdater Samples.

(** C4 on the sizes Small Jar, Unknown Size and Large Bulk: the call sends
    the reorder mutation with the two pairs, and logs the answer. *)
Lemma update_variant_positions_witness :
  _update_variant_positions (W := scripted_world)
    (str "gid://shopify/Product/1") three_variants (tt, [])
  = (Ok tt,
     (tt,
      [Queried ReorderVariants
         (VDict [(str "productId", VStr (str "gid://shopify/Product/1"));
                 (str "positions",
                  VList [VDict [(str "id",
                                 VStr (str "gid://shopify/ProductVariant/1"));
                                (str "position", VInt 2)];
                         VDict [(str "id",
                                 VStr (str "gid://shopify/ProductVariant/3"));
                                (str "position", VInt 5)]])]);
       Logged (VariantPositionsUpdated (VDict [(str "data", VDict [])]))])).
Proof.
  destruct (update_variant_positions_pairs (W := scripted_world))
    as [_ [_ [Hsend _]]].
  rewrite (Hsend (str "gid://shopify/Product/1") three_variants (tt, []));
    [reflexivity | discriminate].
Defined.

(** On the two pouch sizes of the parser nothing matches, and nothing is
    sent. *)
Lemma update_variant_positions_pouches :
  _update_variant_positions (W := scripted_world)
    (str "gid://shopify/Product/1") pouch_variants (tt, [])
  = (Ok tt, (tt, [Logged NoVariantsMatched])).
Proof. reflexivity. Qed.

End PositionExamples.

Section MetafieldExamples.
Import Effects VariantUpdater ProductParser Samples.
#[local] Existing Instance ascii_only.
#[local] Existing Instance symbolic_floats.
#[local] Existing Instance scripted_world.



(** C7 at the quantity cell "0pc": the parser yields the quantity 0, and the
    metafield update of the matching variant raises ZeroDivisionError. *)
Lemma update_variant_metafields_division_witness :
  parse_excel (workbook "Lemon - Fine Cut - Small Jar" "0pc") = Ok [lemon_row 0] /\
  _update_variant_metafields [lemon_row 0] (sample_variant "1" "Small Jar")
    (str "Lemon - Fine Cut") (tt, [])
  = (Err (raised ZeroDivisionError), (tt, [])).
Proof.
  split; [reflexivity|].
  destruct (update_variant_metafields_division
              (W := scripted_world) (F := symbolic_floats) [lemon_row 0]
              (sample_variant "1" "Small Jar") (str "Lemon - Fine Cut")
              (lemon_row 0) [] (tt, []) eq_refl) as [_ H].
  destruct (H (FloatOf (str "16.50")) eq_refl) as [Hzero _].
  exact (Hzero eq_refl).
Defined.

(** C7 as it was stated fails on the least quantity that does not convert
    to a float: it is positive, yet the division is not defined and the call
    raises OverflowError; one less, and the update is sent. *)
Lemma update_variant_metafields_beyond_floats :
  (0 <? QUANTITY (lemon_row (2 ^ 1024 - 2 ^ 970)))%Z = true /\
  price_per_piece_amount (str "16.50") (2 ^ 1024 - 2 ^ 970)
  = Err (raised OverflowError) /\
  _update_variant_metafields [lemon_row (2 ^ 1024 - 2 ^ 970)]
    (sample_variant "1" "Small Jar") (str "Lemon - Fine Cut") (tt, [])
  = (Err (raised OverflowError), (tt, [])) /\
  price_per_piece_amount (str "16.50") (2 ^ 1024 - 2 ^ 970 - 1)
  = Ok (FloatDiv (FloatOf (str "16.50")) (2 ^ 1024 - 2 ^ 970 - 1)).
Proof. repeat split. Qed.

End MetafieldExamples.

(** ** C8: upload_file contains the failures of its phases *)

Section UploadFacts.
Import Effects MediaUploader main.
Context {U : UnicodeData} {W : World}.

(** The handler of [upload_file]. *)
Lemma upload_file_outcome file_path st :
  upload_file file_path st
  = match (let! staged_target := _create_staged_upload file_path in
           let! resource_url := _upload_to_staged_target staged_target file_path in
           let! file_id := _finalize_upload resource_url (basename file_path) in
           let! tt := log (Uploaded file_path file_id) in
           ret (file_id, resource_url)) st with
    | (Ok answer, st') => (Ok answer, st')
    | (Err e, st') =>
        (let! tt := log (UploadFailed file_path e) in ret (VNone, VNone)) st'
    end.
Proof. reflexivity. Qed.

Lemma log_printed m st w :
  stdout_print m (fst st) = (Ok tt, w) ->
  log m st = (Ok tt, (w, snd st ++ [Logged m])).
Proof. intros H. unfold log, bind, call, emit. now rewrite H. Qed.

Lemma log_refused m st e w :
  stdout_print m (fst st) = (Err e, w) -> log m st = (Err e, (w, snd st)).
Proof. intros H. unfold log, bind, call, emit. now rewrite H. Qed.

Lemma log_returns m st :
  (forall m w, fst (stdout_print m w) = Ok tt) ->
  exists w, log m st = (Ok tt, (w, snd st ++ [Logged m])).
Proof.
  intros Hout. specialize (Hout m (fst st)).
  destruct (stdout_print m (fst st)) as [r w] eqn:E. cbn [fst] in Hout. subst r.
  exists w. now apply log_printed.
Qed.

Lemma upload_file_returns file_path st :
  (forall m w, fst (stdout_print m w) = Ok tt) ->
  exists file_id resource_url st',
    upload_file file_path st = (Ok (file_id, resource_url), st').
Proof.
  intros Hout. rewrite upload_file_outcome.
  match goal with |- context [match ?m with _ => _ end] =>
    destruct m as [[[i u]|e] st'] end; [eauto|].
  unfold bind. destruct (log_returns (UploadFailed file_path e) st' Hout) as [w ->].
  unfold ret. eauto.
Qed.

Lemma upload_images_returns folder names :
  (forall m w, fst (stdout_print m w) = Ok tt) ->
  forall image_ids st,
  exists ids st', upload_images folder names image_ids st = (Ok ids, st').
Proof.
  intros Hout.
  induction names as [|fn names IH]; intros image_ids st; cbn [upload_images].
  - unfold ret. eauto.
  - destruct (is_image fn); [|apply IH].
    unfold bind.
    destruct (upload_file_returns (path_join folder fn) st Hout)
      as [file_id [url [st' E]]].
    rewrite E. apply IH.
Qed.

(** C8 (amended).  A failure of the staging, of the transfer or of the
    finalization never leaves [upload_file] as it is: it reaches the handler,
    which logs it and answers [(None, None)]; when the three phases succeed
    and the line of the log is printed, the answer is
    [(file_id, resource_url)].  The handler itself is not guarded: when
    [print] raises on its line, that exception leaves [upload_file].  Where
    the standard output takes every line, [upload_file] returns a pair on
    every path, and the loop that uploads the images of a folder runs to its
    end whatever fails. *)
Theorem upload_file_contains_failures file_path st :
  (forall e st1,
      _create_staged_upload file_path st = (Err e, st1) ->
      upload_file file_path st
      = (let! tt := log (UploadFailed file_path e) in ret (VNone, VNone)) st1) /\
  (forall target st1 e st2,
      _create_staged_upload file_path st = (Ok target, st1) ->
      _upload_to_staged_target target file_path st1 = (Err e, st2) ->
      upload_file file_path st
      = (let! tt := log (UploadFailed file_path e) in ret (VNone, VNone)) st2) /\
  (forall target st1 url st2 e st3,
      _create_staged_upload file_path st = (Ok target, st1) ->
      _upload_to_staged_target target file_path st1 = (Ok url, st2) ->
      _finalize_upload url (basename file_path) st2 = (Err e, st3) ->
      upload_file file_path st
      = (let! tt := log (UploadFailed file_path e) in ret (VNone, VNone)) st3) /\
  (forall e st1,
      (forall w,
          stdout_print (UploadFailed file_path e) (fst st1) = (Ok tt, w) ->
          (let! tt := log (UploadFailed file_path e) in ret (VNone, VNone)) st1
          = (Ok (VNone, VNone),
             (w, snd st1 ++ [Logged (UploadFailed file_path e)]))) /\
      (forall e' w,
          stdout_print (UploadFailed file_path e) (fst st1) = (Err e', w) ->
          (let! tt := log (UploadFailed file_path e) in ret (VNone, VNone)) st1
          = (Err e', (w, snd st1)))) /\
  (forall target st1 url st2 file_id st3 w,
      _create_staged_upload file_path st = (Ok target, st1) ->
      _upload_to_staged_target target file_path st1 = (Ok url, st2) ->
      _finalize_upload url (basename file_path) st2 = (Ok file_id, st3) ->
      stdout_print (Uploaded file_path file_id) (fst st3) = (Ok tt, w) ->
      upload_file file_path st
      = (Ok (file_id, url),
         (w, snd st3 ++ [Logged (Uploaded file_path file_id)]))) /\
  ((forall m w, fst (stdout_print m w) = Ok tt) ->
   (exists file_id resource_url st',
       upload_file file_path st = (Ok (file_id, resource_url), st')) /\
   (forall folder names image_ids,
       exists ids st', upload_images folder names image_ids st = (Ok ids, st'))).
Proof.
  split; [|split; [|split; [|split; [|split]]]].
  - intros e st1 H1. rewrite upload_file_outcome. unfold bind at 1. now rewrite H1.
  - intros target st1 e st2 H1 H2. rewrite upload_file_outcome.
    unfold bind at 1. rewrite H1. unfold bind at 1. now rewrite H2.
  - intros target st1 url st2 e st3 H1 H2 H3. rewrite upload_file_outcome.
    unfold bind at 1. rewrite H1. unfold bind at 1. rewrite H2.
    unfold bind at 1. now rewrite H3.
  - intros e st1. split.
    + intros w Hp. unfold bind. now rewrite (log_printed _ _ _ Hp).
    + intros e' w Hp. unfold bind. now rewrite (log_refused _ _ _ _ Hp).
  - intros target st1 url st2 file_id st3 w H1 H2 H3 Hp.
    rewrite upload_file_outcome.
    unfold bind at 1. rewrite H1. unfold bind at 1. rewrite H2.
    unfold bind at 1. rewrite H3. unfold bind.
    now rewrite (log_printed _ _ _ Hp).
  - intros Hout. split.
    + now apply upload_file_returns.
    + intros folder names image_ids. now apply upload_images_returns.
Qed.

End UploadFacts.

Section UploadExamples.
Import Effects MediaUploader main Samples.
#[local] Existing Instance ascii_only.

(** Three images of which the second cannot be transferred: its upload
    answers [(None, None)], and the loop keeps the two other ids. *)
Lemma upload_images_skips_failed :
  fst (upload_file (W := scripted_world) (str "recipes/mule/b.jpg") (tt, []))
  = Ok (VNone, VNone) /\
  fst (upload_file (W := scripted_world) (str "recipes/mule/a.jpg") (tt, []))
  = Ok (VStr (str "gid://shopify/MediaImage/7"),
        VStr (str "https://upload.example/resource")) /\
  fst (upload_images (W := scripted_world) (str "recipes/mule")
         [str "a.jpg"; str "b.jpg"; str "c.JPG"; str "notes.txt"] [] (tt, []))
  = Ok [VStr (str "gid://shopify/MediaImage/7");
        VStr (str "gid://shopify/MediaImage/7")].
Proof. repeat split. Qed.

(** C8 on the image whose transfer is refused: the staging succeeds, the
    transfer raises, the line of the failure is printed, and [upload_file]
    answers [(None, None)]. *)
Lemma upload_file_contains_failures_witness :
  exists target st1 e st2,
    _create_staged_upload (W := scripted_world) (str "recipes/mule/b.jpg") (tt, [])
    = (Ok target, st1) /\
    _upload_to_staged_target (W := scripted_world) target
      (str "recipes/mule/b.jpg") st1 = (Err e, st2) /\
    upload_file (W := scripted_world) (str "recipes/mule/b.jpg") (tt, [])
    = (Ok (VNone, VNone),
       (fst st2,
        snd st2 ++ [Logged (UploadFailed (str "recipes/mule/b.jpg") e)])).
Proof.
  do 4 eexists. split; [cbv; reflexivity|]. split; [cbv; reflexivity|].
  destruct (upload_file_contains_failures (U := ascii_only)
              (W := scripted_world) (str "recipes/mule/b.jpg") (tt, []))
    as [_ [H _]].
  erewrite H; [|cbv; reflexivity|cbv; reflexivity]. reflexivity.
Defined.

(** C8 as it was stated fails on a file name that is no text, behind a
    standard output in UTF-8: the transfer is refused, the handler logs the
    failure with the path, [print] raises UnicodeEncodeError, and the
    exception leaves [upload_file] and, with it, the loop over the folder. *)
Lemma upload_file_propagates_print :
  is_image (path_join (str "recipes/mule") undecodable_name) = true /\
  upload_file (W := utf8_stdout_world)
    (path_join (str "recipes/mule") undecodable_name) (tt, [])
  = (Err (raised UnicodeEncodeError),
     (tt,
      [Queried stagedUploadsCreate
         (VDict [(str "input",
                  VList [VDict [(str "resource", VStr (str "IMAGE"));
                                (str "filename", VStr undecodable_name);
                                (str "mimeType", VStr (str "image/jpeg"));
                                (str "httpMethod", VStr (str "POST"));
                                (str "fileSize", VStr (str "2048"))]])]);
       Posted (VStr (str "https://upload.example/stage"))
         [(VStr (str "key"), VStr (str "tmp/1"))] undecodable_name])) /\
  fst (upload_images (W := utf8_stdout_world) (str "recipes/mule")
         [str "a.jpg"; undecodable_name; str "c.jpg"] [] (tt, []))
  = Err (raised UnicodeEncodeError).
Proof. repeat split. Qed.

End UploadExamples.

(** ** C10: the rich-text list of a video description *)

Section RichListFacts.
Import uploader Description MetaobjectManager.
Context {U : UnicodeData} {J : Json}.




(** Valid JSON that is no mapping makes the function raise. *)
Lemma format_rich_list_not_a_mapping s data :
  json_loads s = Ok data ->
  (forall d, data <> VDict d) ->
  _format_rich_list (VStr s) = Err (raised AttributeError).
Proof.
  intros E Hd. unfold _format_rich_list. rewrite E.
  destruct data; try reflexivity. now destruct (Hd entries).
Qed.

End RichListFacts.

Section RichListExamples.
Import uploader Description MetaobjectManager Samples.
#[local] Existing Instance ascii_only.
#[local] Existing Instance sample_json.



End RichListExamples.

(** * Further properties *)

(** ** sanitize: the alphabet of a handle *)

Section SanitizeAlphabet.
Context {U : UnicodeData}.
Import utils.

(** Whatever the input, [sanitize] returns characters of [[a-z0-9_]] only:
    no upper case, no white space, nothing outside ASCII. *)
Theorem sanitize_alphabet (s : pystr) :
  forallb handle_char (sanitize s) = true /\
  forallb is_ascii (sanitize s) = true /\
  lacks 32 (sanitize s) = true.
Proof.
  pose proof (re_sub_runs_class false (lower (strip s))) as H.
  fold (sanitize s) in H. split; [exact H|].
  split; unfold lacks; rewrite forallb_forall in *; intros c Hc;
    specialize (H c Hc).
  - now apply handle_char_ascii.
  - unfold handle_char in H. cmp_cases.
Qed.

End SanitizeAlphabet.

(** ** recursive_dict_search: what it can return *)

Section SearchSoundness.
Import utils Search.

Lemma stored_list key l :
  stored_under key (VList l) = flat_map (stored_under key) l.
Proof.
  cbn [stored_under]. induction l as [|x l IH]; [reflexivity|].
  cbn [flat_map]. now rewrite IH.
Qed.

Lemma stored_dict key d :
  stored_under key (VDict d)
  = match dict_get d key with Some v => [v] | None => [] end
    ++ flat_map (fun kv => stored_under key (snd kv)) d.
Proof.
  cbn [stored_under]. f_equal.
  induction d as [|[k x] d IH]; [reflexivity|].
  cbn [flat_map snd]. now rewrite IH.
Qed.

Lemma first_found_In {A} (f : A -> value) l v :
  first_found (map f l) = v -> is_none v = false ->
  exists a, In a l /\ f a = v.
Proof.
  induction l as [|a l IH]; cbn [map first_found]; intros E Hv.
  - subst v. discriminate.
  - destruct (is_none (f a)) eqn:Ea.
    + destruct (IH E Hv) as [b [Hb Hf]]. exists b. split; [now right | exact Hf].
    + exists a. split; [now left | exact E].
Qed.

Lemma search_sound key target data :
  forall v, recursive_dict_search data key target = v -> is_none v = false ->
            sound_result key target data v.
Proof.
  revert data.
  apply (value_nested_ind
           (fun data => forall v,
                recursive_dict_search data key target = v ->
                is_none v = false -> sound_result key target data v)).
  1-4: (intros; subst; discriminate).
  - intros l IH v E Hv. rewrite search_list in E.
    destruct (first_found_In _ _ _ E Hv) as [x [Hx Hf]].
    rewrite Forall_forall in IH.
    destruct (IH x Hx v Hf Hv) as [Hin Heq].
    split; [|exact Heq].
    rewrite stored_list. apply in_flat_map. eauto.
  - intros d IH v E Hv. rewrite search_dict in E. cbv zeta in E.
    assert (Hvalues :
              first_found
                (map (fun kv => recursive_dict_search (snd kv) key target) d) = v ->
              sound_result key target (VDict d) v).
    { intros E'. destruct (first_found_In _ _ _ E' Hv) as [kv [Hkv Hf]].
      rewrite Forall_forall in IH.
      destruct (IH kv Hkv v Hf Hv) as [Hin Heq].
      split; [|exact Heq].
      rewrite stored_dict. apply in_or_app. right.
      apply in_flat_map. eauto. }
    destruct (dict_get d key) as [x|] eqn:Ex; [|auto].
    destruct (is_none target || py_eq x target) eqn:Ec; [|auto].
    subst x. split.
    + rewrite stored_dict, Ex. now left.
    + intros Ht. rewrite Ht in Ec. exact Ec.
Qed.

(** A result other than [None] is a value that the structure stores under
    [key] at some depth and, when a [target_value] is given, one equal to
    it: the search never makes a value up and never returns a value of
    another key. *)
Theorem recursive_dict_search_sound data key target v :
  recursive_dict_search data key target = v ->
  is_none v = false ->
  In v (stored_under key data) /\
  (is_none target = false -> py_eq v target = true).
Proof. intros E Hv. exact (search_sound key target data v E Hv). Qed.

End SearchSoundness.

Section SearchSoundnessExamples.
Import utils Search Samples.

Lemma recursive_dict_search_sound_witness :
  recursive_dict_search null_then_id (str "id") VNone
  = VStr (str "gid://shopify/Metaobject/2") /\
  In (VStr (str "gid://shopify/Metaobject/2"))
     (stored_under (str "id") null_then_id).
Proof.
  split; [reflexivity|].
  apply (recursive_dict_search_sound null_then_id (str "id") VNone
           (VStr (str "gid://shopify/Metaobject/2"))); reflexivity.
Defined.

End SearchSoundnessExamples.

(** ** _calc_avg_quantity: no negative quantity *)

Section QuantitySign.
Context {U : UnicodeData}.
Import ProductParser.
Local Open Scope Z_scope.

Lemma nearest64_nonneg a b m e :
  0 < a -> 0 < b -> nearest64 a b = (m, e) -> 0 <= m.
Proof.
  intros Ha Hb. unfold nearest64.
  set (e' := if _ <? 2 ^ 53 then _ else _).
  destruct (Z.leb_spec 0 e') as [He|He]; intros E; inversion E; subst; clear E.
  - assert (0 < b * 2 ^ e') by (apply Z.mul_pos_pos; [lia|apply Z.pow_pos_nonneg; lia]).
    assert (0 <= a / (b * 2 ^ e')) by (apply Z.div_pos; lia).
    repeat match goal with |- context [if ?c then _ else _] => destruct c end; lia.
  - assert (0 < 2 ^ (- e')) by (apply Z.pow_pos_nonneg; lia).
    assert (0 <= a * 2 ^ (- e') / b) by (apply Z.div_pos; nia).
    repeat match goal with |- context [if ?c then _ else _] => destruct c end; lia.
Qed.

Lemma ceil_truediv_nonneg a b q :
  0 <= a -> 0 < b -> ceil_truediv a b = Ok q -> 0 <= q.
Proof.
  intros Ha Hb. unfold ceil_truediv.
  destruct (Z.eqb_spec b 0) as [?|_]; [lia|].
  destruct (Z.eqb_spec a 0) as [_|Hnz].
  - intros E. inversion E. lia.
  - destruct (nearest64 a b) as [m e] eqn:En.
    pose proof (nearest64_nonneg a b m e ltac:(lia) Hb En) as Hm.
    destruct (2 ^ 1024 <=? _); [discriminate|].
    intros E. inversion E; subst; clear E. unfold ceil64.
    destruct (Z.leb_spec 0 e) as [He|He].
    + apply Z.mul_nonneg_nonneg; [lia | apply Z.pow_nonneg; lia].
    + assert (0 < 2 ^ (- e)) by (apply Z.pow_pos_nonneg; lia).
      assert (- m / 2 ^ (- e) <= 0).
      { apply Z.div_le_upper_bound; lia. }
      lia.
Qed.

Lemma split_from_pieces sep cur s :
  lacks sep cur = true ->
  Forall (fun piece => lacks sep piece = true) (split_from sep cur s).
Proof.
  revert cur. induction s as [|c s IH]; intros cur Hcur; cbn [split_from].
  - constructor; [|constructor]. unfold lacks in *. now rewrite forallb_rev.
  - destruct (N.eqb_spec c sep) as [->|Hne].
    + constructor; [unfold lacks in *; now rewrite forallb_rev|].
      now apply IH.
    + apply IH. unfold lacks in *. cbn [forallb]. rewrite Hcur.
      destruct (N.eqb_spec sep c); [congruence | reflexivity].
Qed.

Lemma map_int_nonneg pieces vals :
  Forall (fun piece => lacks 45 piece = true) pieces ->
  map_result (fun x => int (strip x)) pieces = Ok vals ->
  0 <= fold_right Z.add 0 vals /\ List.length vals = List.length pieces.
Proof.
  intros H. revert vals. induction H as [|p ps Hp _ IH]; intros vals E.
  - inversion E. cbn. lia.
  - cbn [map_result] in E.
    destruct (int (strip p)) as [x|] eqn:Ex; cbn [rbind] in E; [|discriminate].
    destruct (map_result _ ps) as [xs|]; cbn [rbind] in E; [|discriminate].
    inversion E; subst; clear E. destruct (IH xs eq_refl) as [Hs Hl].
    pose proof (int_nonneg (strip p) x (forallb_strip _ _ Hp) Ex).
    cbn [fold_right List.length]. lia.
Qed.

Lemma split_from_nonempty sep cur s : split_from sep cur s <> [].
Proof.
  revert cur. induction s as [|c s IH]; intros cur; cbn [split_from].
  - discriminate.
  - destruct (c =? sep)%N; [discriminate | apply IH].
Qed.

Lemma quantity_is_natural c q : _calc_avg_quantity c = Ok q -> 0 <= q.
Proof.
  unfold _calc_avg_quantity.
  set (cell := replace (str "pc") [] (cell_str c)).
  destruct (contains (str "-") cell) eqn:Ec.
  - destruct (map_result _ (split 45 cell)) as [vals|] eqn:Ev; [|discriminate].
    cbn [rbind].
    destruct (map_int_nonneg _ _ (split_from_pieces 45 [] cell eq_refl) Ev)
      as [Hs Hl].
    apply ceil_truediv_nonneg; [exact Hs|].
    fold (split 45 cell) in Hl.
    pose proof (split_from_nonempty 45 [] cell) as Hne.
    fold (split 45 cell) in Hne.
    destruct (split 45 cell); [congruence|]. cbn [List.length] in Hl. lia.
  - apply int_nonneg. change (str "-") with [45%N] in Ec.
    now apply contains_char_false.
Qed.

(** No cell makes [_calc_avg_quantity] return a negative quantity: a minus
    sign is read as the hyphen of a range, never as the sign of a number. *)
Theorem calc_avg_quantity_nonneg c q :
  _calc_avg_quantity c = Ok q -> 0 <= q.
Proof. exact (quantity_is_natural c q). Qed.

End QuantitySign.

Section QuantitySignExamples.
Import ProductParser.

Lemma calc_avg_quantity_nonneg_witness :
  _calc_avg_quantity (U := ascii_only) (CellInt (-5)) = Err (raised ValueError) /\
  _calc_avg_quantity (U := ascii_only) (CellStr (str "0-1")) = Ok 1%Z /\
  (0 <= 1)%Z.
Proof.
  split; [reflexivity|]. split; [reflexivity|].
  apply (calc_avg_quantity_nonneg (U := ascii_only) (CellStr (str "0-1")) 1).
  reflexivity.
Defined.

End QuantitySignExamples.

(** ** shopify_utils/transcriber.py: what its validation checks *)

Section ShopifyValidation.
Context {O : shopify_transcriber.SetOrder}.

(** The validation of shopify_utils/transcriber.py accepts a parsed object
    exactly when the four keys are present, whatever their values are. *)
Theorem shopify_validate_keys_only d :
  shopify_transcriber.validate_response_structure (VDict d) = Ok tt <->
  (forall k, In k required_keys -> dict_has d k = true).
Proof.
  unfold shopify_transcriber.validate_response_structure.
  rewrite <- missing_nil. unfold transcription.missing.
  destruct (filter _ required_keys); split; intros H;
    try reflexivity; discriminate.
Qed.

End ShopifyValidation.

(** ** parse_excel: what every parsed row satisfies *)

Section ParsedRows.
Context {U : UnicodeData}.
Import ProductParser.

Lemma map_result_combine {A B} (f : A -> result B) l bs a b :
  map_result f l = Ok bs -> In (a, b) (combine l bs) -> f a = Ok b.
Proof.
  revert bs. induction l as [|x l IH]; intros bs E Hin; cbn [map_result] in E.
  - inversion E; subst. destruct Hin.
  - destruct (f x) as [y|] eqn:Ey; cbn [rbind] in E; [|discriminate].
    destruct (map_result f l) as [ys|]; cbn [rbind] in E; [|discriminate].
    inversion E; subst; clear E. destruct Hin as [Hin|Hin].
    + inversion Hin; subst. exact Ey.
    + exact (IH ys eq_refl Hin).
Qed.

Lemma parse_excel_row_origin wb rows row :
  parse_excel wb = Ok rows -> In row rows ->
  exists width cells q c,
    parse_row width (cells, q) = Ok row /\ _calc_avg_quantity c = Ok q.
Proof.
  revert rows. induction wb as [|sh wb IH]; cbn [parse_excel]; intros rows H Hin.
  - inversion H; subst. destruct Hin.
  - destruct (str_eqb (sheet_name sh) (str "Wholesale")
              || str_eqb (sheet_name sh) (str "Retail")); [|eauto].
    destruct (parse_sheet sh) as [rs|e] eqn:Es; cbn [rbind] in H; [|discriminate].
    destruct (parse_excel wb) as [more|e]; cbn [rbind] in H; [|discriminate].
    inversion H; subst. apply in_app_or in Hin as [Hin | Hin]; [|eauto].
    unfold parse_sheet in Es.
    destruct (7 <? sheet_width sh)%nat; [discriminate|].
    destruct (index_of (str "QUANTITY") (firstn (sheet_width sh) COLUMNS))
      as [i|]; [|discriminate].
    destruct (map_result _ (sheet_rows sh)) as [qs|] eqn:Eq; cbn [rbind] in Es;
      [|discriminate].
    destruct (map_result_In _ _ _ _ Es Hin) as [[cells q] [Hrq Hrow]].
    exists (sheet_width sh), cells, q, (nth i cells CellNaN).
    split; [exact Hrow|].
    exact (map_result_combine _ _ _ _ _ Eq Hrq).
Qed.

Lemma re_split_head_lacks product : lacks 95 (re_split_head product) = true.
Proof.
  induction product as [|c rest IH]; [reflexivity|].
  cbn [re_split_head].
  destruct (startswith (str " - ") (c :: rest)); [reflexivity|].
  cbn [orb]. destruct (N.eqb_spec c 95) as [|Hne]; [reflexivity|].
  unfold lacks in *. cbn [forallb]. rewrite IH.
  destruct (N.eqb_spec 95 c); [congruence | reflexivity].
Qed.

Lemma first_contained_In candidates product :
  In (first_contained candidates product) ([] :: candidates).
Proof.
  induction candidates as [|c rest IH]; cbn [first_contained]; [now left|].
  destruct (contains c product); [right; now left|].
  destruct IH as [IH|IH]; [now left | right; now right].
Qed.

Lemma parse_row_fields width cells q row :
  parse_row width (cells, q) = Ok row ->
  exists product,
    QUANTITY row = q /\
    PRODUCT row = strip (re_split_head product) /\
    VARIANT_SIZE row = first_contained size_list product /\
    PRODUCT_TITLE row
    = PRODUCT row ++ str " - " ++ first_contained cut_list product.
Proof.
  unfold parse_row.
  repeat match goal with
  | |- rbind ?m _ = _ -> _ => destruct m; cbn [rbind]; [|discriminate]
  end.
  intros E. injection E as <-. eexists.
  cbn [QUANTITY PRODUCT VARIANT_SIZE PRODUCT_TITLE]. repeat split.
Qed.

(** Every row that [parse_excel] produces has a quantity that is not
    negative, a product name without underscore, a size that is one of the
    six sizes or empty, and a title that is the name, " - " and one of the
    two cuts or nothing. *)
Theorem parse_excel_row_invariant wb rows row :
  parse_excel wb = Ok rows -> In row rows ->
  (0 <= QUANTITY row)%Z /\
  lacks 95 (PRODUCT row) = true /\
  In (VARIANT_SIZE row) ([] :: size_list) /\
  (exists cut, In cut ([] :: cut_list) /\
               PRODUCT_TITLE row = PRODUCT row ++ str " - " ++ cut).
Proof.
  intros H Hin.
  destruct (parse_excel_row_origin _ _ _ H Hin)
    as [width [cells [q [c [Hrow Hq]]]]].
  pose proof (quantity_is_natural c q Hq) as Hpos.
  destruct (parse_row_fields _ _ _ _ Hrow) as [product [Eq [Ep [Es Et]]]].
  rewrite Eq, Ep, Es, Et. split; [exact Hpos|]. split; [|split].
  - apply forallb_strip. apply re_split_head_lacks.
  - apply first_contained_In.
  - eexists. split; [apply first_contained_In | now rewrite Ep].
Qed.

(** A sheet whose width is not seven makes the parse fail as soon as it has
    a row: more columns cannot be named, and with fewer the loop misses a
    column of the row. *)
Theorem parse_sheet_needs_seven_columns sh :
  sheet_width sh <> 7%nat -> sheet_rows sh <> [] ->
  is_ok (parse_sheet sh) = false.
Proof.
  intros Hw Hr. unfold parse_sheet.
  destruct (sheet_rows sh) as [|r rs]; [congruence|]. clear Hr.
  destruct (sheet_width sh) as [|[|[|[|[|[|[|[|w]]]]]]]];
    try reflexivity; try congruence.
  - (* five columns: RETAIL_PRICE is missing *)
    change (index_of (str "QUANTITY") (firstn 5 COLUMNS)) with (Some 4%nat).
    cbv beta iota.
    destruct (map_result _ (r :: rs)) as [qs|] eqn:Eq; [|reflexivity].
    cbn [map_result] in Eq.
    destruct (_calc_avg_quantity (nth 4 r CellNaN)); cbn [rbind] in Eq; [|discriminate].
    destruct (map_result _ rs); cbn [rbind] in Eq; [|discriminate].
    inversion Eq; subst; clear Eq.
    cbn [rbind combine map_result]. unfold parse_row, row_get.
    change (index_of (str "RETAIL_PRICE") (firstn 5 COLUMNS)) with (@None nat).
    repeat match goal with
    | |- context [match index_of ?n ?l with _ => _ end] =>
        let v := eval cbv in (index_of n l) in change (index_of n l) with v; cbv iota
    end.
    repeat match goal with
    | |- context [nth_error r ?i] => destruct (nth_error r i); cbn [rbind]
    end; reflexivity.
  - (* six columns: UNIT_PRICE is missing *)
    change (index_of (str "QUANTITY") (firstn 6 COLUMNS)) with (Some 4%nat).
    cbv beta iota.
    destruct (map_result _ (r :: rs)) as [qs|] eqn:Eq; [|reflexivity].
    cbn [map_result] in Eq.
    destruct (_calc_avg_quantity (nth 4 r CellNaN)); cbn [rbind] in Eq; [|discriminate].
    destruct (map_result _ rs); cbn [rbind] in Eq; [|discriminate].
    inversion Eq; subst; clear Eq.
    cbn [rbind combine map_result]. unfold parse_row, row_get.
    repeat match goal with
    | |- context [match index_of ?n ?l with _ => _ end] =>
        let v := eval cbv in (index_of n l) in change (index_of n l) with v; cbv iota
    end.
    repeat match goal with
    | |- context [nth_error r ?i] => destruct (nth_error r i); cbn [rbind]
    end; reflexivity.
Qed.

End ParsedRows.

Section ParsedRowsExamples.
Import ProductParser Samples.

Lemma parse_excel_row_invariant_witness :
  parse_excel (U := ascii_only) (workbook "Lemon - Fine Cut - Small Jar" "10-12pc")
  = Ok [lemon_row 11] /\
  (0 <= QUANTITY (lemon_row 11))%Z /\
  lacks 95 (PRODUCT (lemon_row 11)) = true.
Proof.
  split; [reflexivity|].
  destruct (parse_excel_row_invariant (U := ascii_only)
              (workbook "Lemon - Fine Cut - Small Jar" "10-12pc")
              [lemon_row 11] (lemon_row 11) eq_refl (or_introl eq_refl))
    as [H1 [H2 _]].
  split; assumption.
Defined.

Lemma parse_sheet_needs_seven_columns_witness :
  is_ok (parse_sheet (U := ascii_only)
           {| sheet_name := str "Retail"; sheet_width := 6;
              sheet_rows := [firstn 6 (sample_row "Lemon - Fine Cut" "7pc")] |})
  = false.
Proof.
  apply (parse_sheet_needs_seven_columns (U := ascii_only)); discriminate.
Defined.

End ParsedRowsExamples.

(** ** upload_file and the image loop: ids and traces *)

Section UploadTraces.
Import Effects MediaUploader main Protocol.
Context {U : UnicodeData} {W : World}.

Lemma upload_images_added folder names :
  forall image_ids st ids,
    fst (upload_images folder names image_ids st) = Ok ids ->
    exists added,
      ids = image_ids ++ added /\
      forallb truthy added = true /\
      (List.length added <= List.length (filter is_image names))%nat.
Proof.
  induction names as [|fn names IH]; intros image_ids st ids H;
    cbn [upload_images filter] in *.
  - inversion H. exists []. rewrite app_nil_r. repeat split. cbn. lia.
  - destruct (is_image fn); [|now apply (IH _ st)].
    unfold bind in H.
    destruct (upload_file (path_join folder fn) st) as [[[file_id url]|e] st'];
      [|discriminate].
    destruct (truthy file_id) eqn:Et.
    + destruct (IH _ _ _ H) as [added [-> [Ht Hl]]].
      exists (file_id :: added). rewrite <- app_assoc. split; [reflexivity|].
      split; [cbn [forallb]; now rewrite Et, Ht | cbn [List.length]; lia].
    + destruct (IH _ _ _ H) as [added [-> [Ht Hl]]].
      exists added. split; [reflexivity|].
      split; [exact Ht | cbn [List.length]; lia].
Qed.

(** The ids that the image loop of [cmd_recipes_publish] collects: when the
    loop returns, it returns the ids it started with followed by truthy ids
    only, at most one for each image name of the listing, so the [None] of a
    failed upload is never among them.  It returns whenever the standard
    output takes every line of the log; otherwise the exception of [print]
    in the handler of [upload_file] ends it. *)
Theorem upload_images_collects_truthy folder names image_ids st :
  (forall ids,
      fst (upload_images folder names image_ids st) = Ok ids ->
      exists added,
        ids = image_ids ++ added /\
        forallb truthy added = true /\
        (List.length added <= List.length (filter is_image names))%nat) /\
  ((forall m w, fst (stdout_print m w) = Ok tt) ->
   is_ok (fst (upload_images folder names image_ids st)) = true).
Proof.
  split.
  - apply upload_images_added.
  - intros Hout.
    destruct (upload_images_returns folder names Hout image_ids st)
      as [ids [st' E]].
    now rewrite E.
Qed.

Lemma create_staged_upload_trace file_path st :
  (snd (snd (_create_staged_upload file_path st)) = snd st /\
   is_ok (fst (_create_staged_upload file_path st)) = false) \/
  (exists staging,
      snd (snd (_create_staged_upload file_path st))
      = snd st ++ [Queried stagedUploadsCreate staging]).
Proof.
  unfold _create_staged_upload, query; unfold bind, call, emit, lift.
  destruct (os_getsize file_path (fst st)) as [[size|e] w]; cbn [fst snd].
  - right. eexists.
    match goal with |- context [api_query ?o ?v ?w] =>
      destruct (api_query o v w) as [[result|e] w'] end; cbn [fst snd]; reflexivity.
  - left. split; reflexivity.
Qed.

Lemma upload_to_staged_target_trace target file_path st :
  (snd (snd (_upload_to_staged_target target file_path st)) = snd st /\
   is_ok (fst (_upload_to_staged_target target file_path st)) = false) \/
  (exists url data,
      snd (snd (_upload_to_staged_target target file_path st))
      = snd st ++ [Posted url data (basename file_path)]).
Proof.
  unfold _upload_to_staged_target, post; unfold bind, call, emit, lift, raise, ret.
  destruct (open_rb file_path (fst st)) as [[[]|e] w]; cbn [fst snd];
    [|left; split; reflexivity].
  destruct (getitem_str target (str "parameters")) as [parameters|e];
    [|left; split; reflexivity].
  destruct (py_iter parameters) as [ps|e]; [|left; split; reflexivity].
  destruct (form_data ps []) as [data|e]; [|left; split; reflexivity].
  destruct (getitem_str target (str "url")) as [url|e];
    [|left; split; reflexivity].
  right. exists url, data. cbn [fst snd].
  destruct (requests_post url data (basename file_path) w) as [[status|e] w'];
    cbn [fst snd]; [|reflexivity].
  destruct ((400 <=? status)%Z && (status <? 600)%Z); cbn [fst snd]; [reflexivity|].
  destruct (getitem_str target (str "resourceUrl")); reflexivity.
Qed.

Lemma finalize_upload_trace resource_url file_name st :
  exists files,
    snd (snd (_finalize_upload resource_url file_name st))
    = snd st ++ [Queried fileCreate files].
Proof.
  unfold _finalize_upload, query; unfold bind, call, emit, lift, ret.
  eexists. cbn [fst snd].
  match goal with |- context [api_query ?o ?v ?w] =>
    destruct (api_query o v w) as [[result|e] w'] end; cbn [fst snd];
    [|reflexivity].
  match goal with |- context [rbind ?m ?k] => destruct (rbind m k) as [files|e] end;
    [|reflexivity].
  destruct (truthy files); [|reflexivity].
  match goal with |- context [rbind ?m ?k] => destruct (rbind m k) end;
    reflexivity.
Qed.

Lemma bind_ok {A B} (m : M A) (k : A -> M B) st a st' :
  m st = (Ok a, st') -> bind m k st = k a st'.
Proof. intros H. unfold bind. now rewrite H. Qed.

Lemma bind_err {A B} (m : M A) (k : A -> M B) st e st' :
  m st = (Err e, st') -> bind m k st = (Err e, st').
Proof. intros H. unfold bind. now rewrite H. Qed.

Lemma log_cases m st :
  (exists w, log m st = (Ok tt, (w, snd st ++ [Logged m]))) \/
  (exists e w, log m st = (Err e, (w, snd st))).
Proof.
  unfold log, bind, call, emit.
  destruct (stdout_print m (fst st)) as [[[]|e] w]; cbn [fst snd]; eauto.
Qed.

(** The handler after the requests that were made. *)
Lemma handler_outcome file_path e (st st1 : state) requests :
  upload_requests file_path requests ->
  snd st1 = snd st ++ requests ->
  exists events,
    snd (snd ((let! tt := log (UploadFailed file_path e) in ret (VNone, VNone)) st1))
    = snd st ++ events /\
    upload_outcome file_path
      (fst ((let! tt := log (UploadFailed file_path e) in ret (VNone, VNone)) st1))
      events.
Proof.
  intros Hr Ht. unfold bind.
  destruct (log_cases (UploadFailed file_path e) st1) as [[w ->] | [e' [w ->]]];
    unfold ret; cbn [fst snd]; rewrite Ht.
  - exists (requests ++ [Logged (UploadFailed file_path e)]).
    rewrite app_assoc. split; [reflexivity | now constructor].
  - exists requests. split; [reflexivity | now constructor].
Qed.

(** Whatever the storefront, the network, the file system and the standard
    output do, one [upload_file] adds to the trace the requests that it
    made, in the order staging, transfer, file creation, never one without
    the one before it and never two of a kind, and it ends in one of three
    ways: with the pair of the success and its line of the log after all
    three requests, with [(None, None)] and the line of the failure, or with
    the exception of [print] and no line at all. *)
Theorem upload_file_protocol file_path st :
  exists events,
    snd (snd (upload_file file_path st)) = snd st ++ events /\
    upload_outcome file_path (fst (upload_file file_path st)) events.
Proof.
  rewrite upload_file_outcome.
  pose proof (create_staged_upload_trace file_path st) as H1.
  destruct (_create_staged_upload file_path st) as [[target|e] st1] eqn:E1;
    cbn [fst snd] in H1.
  2:{ rewrite (bind_err _ _ _ _ _ E1). cbv beta iota.
      destruct H1 as [[H1 _]|[staging H1]].
      - apply (handler_outcome file_path e st st1 []); [constructor|].
        now rewrite app_nil_r.
      - apply (handler_outcome file_path e st st1 _ (staged _ staging) H1). }
  destruct H1 as [[_ H1]|[staging H1]]; [discriminate|].
  rewrite (bind_ok _ _ _ _ _ E1).
  pose proof (upload_to_staged_target_trace target file_path st1) as H2.
  destruct (_upload_to_staged_target target file_path st1) as [[url|e] st2] eqn:E2;
    cbn [fst snd] in H2.
  2:{ rewrite (bind_err _ _ _ _ _ E2). cbv beta iota.
      destruct H2 as [[H2 _]|[u [data H2]]].
      - apply (handler_outcome file_path e st st2 _ (staged _ staging)).
        now rewrite H2.
      - apply (handler_outcome file_path e st st2 _
                 (transferred _ staging u data)).
        now rewrite H2, H1, <- app_assoc. }
  destruct H2 as [[_ H2]|[u [data H2]]]; [discriminate|].
  rewrite (bind_ok _ _ _ _ _ E2).
  destruct (finalize_upload_trace url (basename file_path) st2) as [files H3].
  assert (Hall : snd (snd (_finalize_upload url (basename file_path) st2))
                 = snd st ++ [Queried stagedUploadsCreate staging;
                              Posted u data (basename file_path);
                              Queried fileCreate files]).
  { now rewrite H3, H2, H1, <- !app_assoc. }
  destruct (_finalize_upload url (basename file_path) st2) as [[file_id|e] st3] eqn:E3;
    cbn [fst snd] in Hall.
  2:{ rewrite (bind_err _ _ _ _ _ E3). cbv beta iota.
      apply (handler_outcome file_path e st st3 _
               (created _ staging u data files) Hall). }
  rewrite (bind_ok _ _ _ _ _ E3).
  destruct (log_cases (Uploaded file_path file_id) st3) as [[w E4] | [e [w E4]]].
  - rewrite (bind_ok _ _ _ _ _ E4). unfold ret. cbn [fst snd].
    rewrite Hall, <- app_assoc. eexists.
    split; [reflexivity | constructor].
  - rewrite (bind_err _ _ _ _ _ E4). cbv beta iota.
    apply (handler_outcome file_path e st (w, snd st3) _
             (created _ staging u data files) Hall).
Qed.

End UploadTraces.

Section UploadTracesExamples.
Import Effects MediaUploader main Samples.
#[local] Existing Instance ascii_only.

(** The loop on three images of which the second cannot be transferred, and
    a file that is no image: it returns, and what it returns are two truthy
    ids, fewer than the three images of the listing. *)
Lemma upload_images_collects_truthy_witness :
  fst (upload_images (W := scripted_world) (str "recipes/mule")
         [str "a.jpg"; str "b.jpg"; str "c.JPG"; str "notes.txt"] [] (tt, []))
  = Ok [VStr (str "gid://shopify/MediaImage/7");
        VStr (str "gid://shopify/MediaImage/7")] /\
  exists added,
    [VStr (str "gid://shopify/MediaImage/7");
     VStr (str "gid://shopify/MediaImage/7")] = [] ++ added /\
    forallb truthy added = true /\
    (List.length added
     <= List.length (filter is_image [str "a.jpg"; str "b.jpg"; str "c.JPG";
                                      str "notes.txt"]))%nat.
Proof.
  split; [reflexivity|].
  apply (proj1 (upload_images_collects_truthy (U := ascii_only)
                  (W := scripted_world) (str "recipes/mule")
                  [str "a.jpg"; str "b.jpg"; str "c.JPG"; str "notes.txt"]
                  [] (tt, []))).
  reflexivity.
Defined.

End UploadTracesExamples.

(** ** The name of an uploaded file, and its kind *)

Section UploadNames.
Import MediaUploader main.
Context {U : UnicodeData}.

Lemma basename_from_plain cur name :
  lacks 47 name = true -> basename_from cur name = rev cur ++ name.
Proof.
  revert cur. induction name as [|c name IH]; intros cur H; cbn [basename_from].
  - now rewrite app_nil_r.
  - unfold lacks in H. cbn [forallb] in H. apply andb_prop in H as [Hc H].
    destruct (N.eqb_spec c 47) as [->|_]; [now rewrite N.eqb_refl in Hc|].
    rewrite (IH (c :: cur) H). cbn [rev]. now rewrite <- app_assoc.
Qed.

Lemma basename_from_slash cur dir name :
  basename_from cur (dir ++ 47%N :: name) = basename_from [] name.
Proof.
  revert cur. induction dir as [|c dir IH]; intros cur; cbn [app basename_from].
  - reflexivity.
  - destruct (c =? 47)%N; apply IH.
Qed.

Lemma endswith_char c s : endswith [c] s = true -> exists s', s = s' ++ [c].
Proof.
  unfold endswith. cbn [rev app]. intros H.
  destruct (rev s) as [|x r] eqn:E; cbn [startswith] in H; [discriminate|].
  apply andb_prop in H as [H _]. apply N.eqb_eq in H. subst x.
  exists (rev r). rewrite <- (rev_involutive s), E. reflexivity.
Qed.

Lemma basename_joined folder fn :
  lacks 47 fn = true -> basename (path_join folder fn) = fn.
Proof.
  intros H. unfold basename, path_join.
  destruct (startswith (str "/") fn); [now rewrite basename_from_plain|].
  destruct folder as [|c folder]; [now rewrite basename_from_plain|].
  destruct (endswith (str "/") (c :: folder)) eqn:E.
  - change (str "/") with [47%N] in E.
    destruct (endswith_char _ _ E) as [dir ->].
    rewrite <- app_assoc. cbn [app]. rewrite basename_from_slash.
    now rewrite basename_from_plain.
  - change (str "/" ++ fn) with (47%N :: fn). rewrite basename_from_slash.
    now rewrite basename_from_plain.
Qed.

(** The file name that [upload_file] sends for an entry of the folder's
    listing is the entry itself: [basename] undoes [os.path.join] on every
    name without a slash, whatever the folder is. *)
Theorem basename_of_joined_path folder fn :
  lacks 47 fn = true -> basename (path_join folder fn) = fn.
Proof. exact (basename_joined folder fn). Qed.

Lemma content_type_video file_path :
  str_eqb (_get_content_type file_path) (str "video/mp4")
  = str_eqb (lower (splitext_ext file_path)) (str ".mp4").
Proof.
  unfold _get_content_type. set (ext := lower (splitext_ext file_path)).
  destruct (str_eqb ext (str ".jpg")) eqn:E1;
    [apply str_eqb_eq in E1; now rewrite E1|].
  destruct (str_eqb ext (str ".jpeg")) eqn:E2;
    [apply str_eqb_eq in E2; now rewrite E2|].
  destruct (str_eqb ext (str ".png")) eqn:E3;
    [apply str_eqb_eq in E3; now rewrite E3|].
  destruct (str_eqb ext (str ".gif")) eqn:E4;
    [apply str_eqb_eq in E4; now rewrite E4|].
  cbn [orb]. destruct (str_eqb ext (str ".mp4")); reflexivity.
Qed.

Lemma lower_ascii s : forallb is_ascii s = true -> lower s = map ascii_lower s.
Proof. unfold lower. now intros ->. Qed.

Lemma mp4_suffix r :
  startswith [52; 112; 109; 46]%N (map ascii_lower r) = true ->
  exists c1 c2 c3 rest,
    r = c1 :: c2 :: c3 :: 46%N :: rest /\
    ascii_lower c1 = 52%N /\ ascii_lower c2 = 112%N /\ ascii_lower c3 = 109%N.
Proof.
  destruct r as [|c1 [|c2 [|c3 [|c4 rest]]]]; cbn [map startswith]; intros H;
    repeat match goal with
    | H : _ && _ = true |- _ => apply andb_prop in H as [? H]
    end; try discriminate.
  repeat match goal with
  | H : (_ =? _)%N = true |- _ => apply N.eqb_eq in H
  end.
  exists c1, c2, c3, rest.
  assert (c4 = 46%N) as -> by (unfold ascii_lower in *; cmp_cases).
  repeat split; congruence.
Qed.

Lemma split_last_dot_spec r acc :
  match split_last_dot r acc with
  | Some (stem, ext) =>
      exists pre rest,
        r = pre ++ 46%N :: rest /\ stem = rev rest /\ ext = 46%N :: rev pre ++ acc
  | None => True
  end.
Proof.
  revert acc. induction r as [|c r IH]; intros acc; cbn [split_last_dot];
    [exact I|].
  destruct (N.eqb_spec c 46) as [->|Hc].
  - exists [], r. repeat split.
  - specialize (IH (c :: acc)).
    destruct (split_last_dot r (c :: acc)) as [[stem ext]|]; [|exact I].
    destruct IH as [pre [rest [-> [-> ->]]]].
    exists (c :: pre), rest. repeat split.
    cbn [rev]. now rewrite <- app_assoc.
Qed.

Lemma kind_by_reversed_name r :
  forallb is_ascii r = true ->
  startswith [46%N] (rev r) = false ->
  str_eqb
    (lower match split_last_dot r [] with
           | Some (stem, ext) =>
               if existsb (fun c => negb (c =? 46)%N) stem then ext else []
           | None => []
           end) (str ".mp4")
  = startswith [52; 112; 109; 46]%N (map ascii_lower r).
Proof.
  intros Hr Hd.
  destruct (startswith _ (map ascii_lower r)) eqn:Es.
  - destruct (mp4_suffix r Es) as [c1 [c2 [c3 [rest [-> [H1 [H2 H3]]]]]]].
    cbn [split_last_dot].
    assert ((c1 =? 46)%N = false) as -> by (unfold ascii_lower in *; cmp_cases).
    assert ((c2 =? 46)%N = false) as -> by (unfold ascii_lower in *; cmp_cases).
    assert ((c3 =? 46)%N = false) as -> by (unfold ascii_lower in *; cmp_cases).
    rewrite N.eqb_refl.
    cbn [rev] in Hd. rewrite <- !app_assoc in Hd. cbn [app] in Hd.
    assert (existsb (fun c => negb (c =? 46)%N) (rev rest) = true) as ->.
    { destruct (rev rest) as [|x xs]; cbn [app startswith] in Hd.
      - rewrite N.eqb_refl in Hd. discriminate.
      - cbn [existsb]. rewrite N.eqb_sym.
        destruct (46 =? x)%N; [discriminate | reflexivity]. }
    cbn [forallb] in Hr.
    repeat match goal with
    | H : _ && _ = true |- _ => apply andb_prop in H as [? H]
    end.
    rewrite lower_ascii
      by (cbn [forallb];
          repeat match goal with H : is_ascii _ = true |- _ => rewrite H end;
          reflexivity).
    cbn [map]. rewrite H1, H2, H3. reflexivity.
  - destruct (str_eqb _ _) eqn:Ee; [|reflexivity]. exfalso.
    apply str_eqb_eq in Ee.
    pose proof (split_last_dot_spec r []) as Hs.
    destruct (split_last_dot r []) as [[stem ext]|]; [|discriminate].
    destruct Hs as [pre [rest [-> [-> ->]]]].
    destruct (existsb _ (rev rest)); [|discriminate].
    rewrite app_nil_r in Ee. rewrite forallb_app in Hr.
    apply andb_prop in Hr as [Hpre _].
    rewrite lower_ascii in Ee
      by (cbn [forallb]; now rewrite forallb_rev, Hpre).
    cbn [map] in Ee. injection Ee as Ee.
    rewrite map_rev in Ee. apply (f_equal (@rev N)) in Ee.
    rewrite rev_involutive in Ee.
    rewrite map_app, Ee in Es. discriminate.
Qed.

(** The staging request and the file creation decide on their own whether a
    file is a video, the one from its extension and the other from the end of
    its name.  For a name in ASCII that does not start with a dot the two
    agree, so no file is staged as one kind and registered as the other. *)
Theorem staged_kind_matches_final file_path :
  forallb is_ascii (basename file_path) = true ->
  startswith (str ".") (basename file_path) = false ->
  str_eqb (_get_content_type file_path) (str "video/mp4")
  = endswith (str ".mp4") (lower (basename file_path)).
Proof.
  intros Ha Hd. rewrite content_type_video.
  unfold splitext_ext, endswith. rewrite (lower_ascii _ Ha), <- map_rev.
  apply kind_by_reversed_name.
  - now rewrite forallb_rev.
  - now rewrite rev_involutive.
Qed.

End UploadNames.

Section UploadNamesExamples.
Import MediaUploader main.

Lemma basename_of_joined_path_witness :
  path_join (str "recipes/mule") (str "a.jpg") = str "recipes/mule/a.jpg" /\
  basename (path_join (str "recipes/mule") (str "a.jpg")) = str "a.jpg".
Proof.
  split; [reflexivity|].
  apply (basename_of_joined_path (str "recipes/mule") (str "a.jpg")).
  reflexivity.
Defined.

(** A clip is a video for both requests; the hidden file ".mp4", which the
    theorem leaves out, is staged as an image and registered as a video. *)
Lemma staged_kind_matches_final_witness :
  str_eqb (_get_content_type (U := ascii_only) (str "clips/Mule.MP4"))
    (str "video/mp4") = true /\
  endswith (str ".mp4") (lower (U := ascii_only) (basename (str "clips/Mule.MP4")))
  = true /\
  str_eqb (_get_content_type (U := ascii_only) (str "clips/.mp4"))
    (str "video/mp4") = false /\
  endswith (str ".mp4") (lower (U := ascii_only) (basename (str "clips/.mp4")))
  = true.
Proof.
  split; [reflexivity|]. split; [|split; reflexivity].
  rewrite <- (staged_kind_matches_final (U := ascii_only) (str "clips/Mule.MP4"));
    reflexivity.
Defined.

End UploadNamesExamples.

(** ** title_case and sanitize *)

Section TitleFacts.
Import utils Titles.
Context {U : UnicodeData} {T : UnicodeTitle}.

Lemma isspace_lower c : isspace (ascii_lower c) = isspace c.
Proof.
  unfold isspace, ascii_lower, is_ascii.
  destruct ((65 <=? c) && (c <=? 90))%N eqn:E; [|reflexivity].
  apply andb_prop in E as [E1 E2]. apply N.leb_le in E1, E2.
  cmp_cases.
Qed.

Lemma lstrip_lower s : lstrip (map ascii_lower s) = map ascii_lower (lstrip s).
Proof.
  induction s as [|c s IH]; [reflexivity|].
  cbn [map lstrip]. rewrite isspace_lower. destruct (isspace c); [exact IH|].
  reflexivity.
Qed.

Lemma strip_lower s : strip (map ascii_lower s) = map ascii_lower (strip s).
Proof.
  unfold strip, rstrip.
  now rewrite lstrip_lower, <- map_rev, lstrip_lower, map_rev.
Qed.

Lemma title_from_lower b s :
  map ascii_lower (title_from b s) = map ascii_lower s.
Proof.
  revert b. induction s as [|c s IH]; intros b; [reflexivity|].
  cbn [title_from map]. rewrite IH. f_equal.
  unfold ascii_lower, ascii_upper. destruct b; cmp_cases.
Qed.

Lemma title_from_ascii b s :
  forallb is_ascii s = true -> forallb is_ascii (title_from b s) = true.
Proof.
  revert b. induction s as [|c s IH]; intros b H; [reflexivity|].
  cbn [forallb title_from] in *. apply andb_prop in H as [Hc H].
  rewrite (IH _ H), andb_true_r.
  unfold is_ascii, ascii_lower, ascii_upper in *. destruct b; cmp_cases.
Qed.

Lemma lower_map_fixed s :
  forallb is_ascii s = true -> forallb is_ascii (map ascii_lower s) = true.
Proof.
  induction s as [|c s IH]; [reflexivity|]. cbn [forallb map]. intros H.
  apply andb_prop in H as [Hc H]. rewrite (IH H), andb_true_r.
  unfold is_ascii, ascii_lower in *. cmp_cases.
Qed.

(** On ASCII, [sanitize] does not see what [title] changes. *)
Lemma sanitize_title x :
  forallb is_ascii x = true -> sanitize (title x) = sanitize x.
Proof.
  intros Ha. unfold sanitize, title. rewrite Ha. f_equal.
  unfold lower.
  rewrite (forallb_strip _ _ (title_from_ascii false x Ha)).
  rewrite (forallb_strip _ _ Ha).
  now rewrite <- !strip_lower, title_from_lower.
Qed.

Lemma lstrip_head s :
  match lstrip s with [] => True | c :: _ => isspace c = false end.
Proof.
  induction s as [|c s IH]; [exact I|]. cbn [lstrip].
  destruct (isspace c) eqn:E; [exact IH | exact E].
Qed.

Lemma lstrip_app_nonempty a b : lstrip a <> [] -> lstrip (a ++ b) = lstrip a ++ b.
Proof.
  induction a as [|c a IH]; cbn [lstrip app]; [congruence|].
  destruct (isspace c); [exact IH | reflexivity].
Qed.

Lemma rstrip_cons c s : rstrip s <> [] -> rstrip (c :: s) = c :: rstrip s.
Proof.
  unfold rstrip. intros H. cbn [rev].
  rewrite lstrip_app_nonempty.
  - now rewrite rev_app_distr.
  - intros E. apply H. now rewrite E.
Qed.

Lemma rstrip_head c s : isspace c = false -> rstrip (c :: s) = c :: rstrip s.
Proof.
  intros Hc. unfold rstrip. cbn [rev].
  assert (H : forall a, lstrip (a ++ [c]) = lstrip a ++ [c]).
  { induction a as [|x a IH]; cbn [lstrip app]; [now rewrite Hc|].
    destruct (isspace x); [exact IH | reflexivity]. }
  now rewrite H, rev_app_distr.
Qed.

Lemma lstrip_idempotent s : lstrip (lstrip s) = lstrip s.
Proof.
  pose proof (lstrip_head s) as H. destruct (lstrip s) as [|c t]; [reflexivity|].
  cbn [lstrip]. now rewrite H.
Qed.

Lemma strip_idempotent s : strip (strip s) = strip s.
Proof.
  unfold strip at 1 2.
  assert (H : lstrip (rstrip (lstrip s)) = rstrip (lstrip s)).
  { pose proof (lstrip_head s) as Hh. destruct (lstrip s) as [|c t]; [reflexivity|].
    rewrite (rstrip_head _ _ Hh). cbn [lstrip]. now rewrite Hh. }
  rewrite H. unfold rstrip at 1 2.
  now rewrite rev_involutive, lstrip_idempotent.
Qed.

Lemma replace_underscore t :
  replace (str "_") (str " ") t = map (fun c => if (c =? 95)%N then 32%N else c) t.
Proof.
  unfold replace. change (str "_") with [95%N]. change (str " ") with [32%N].
  induction t as [|c t IH]; [reflexivity|].
  cbn [replace_from startswith map List.length Nat.sub app].
  rewrite N.eqb_sym, andb_true_r. destruct (c =? 95)%N; now rewrite IH.
Qed.

(** Title-casing is invisible to [sanitize]: for a value in ASCII, the
    handle of its title is the handle of the value with its underscores read
    as spaces. *)
Theorem sanitize_of_title_case value :
  forallb is_ascii value = true ->
  sanitize (title_case value) = sanitize (replace (str "_") (str " ") value).
Proof.
  intros Ha. unfold title_case.
  assert (Hr : forallb is_ascii (replace (str "_") (str " ") value) = true).
  { rewrite replace_underscore. rewrite forallb_forall in *. intros c Hin.
    apply in_map_iff in Hin as [d [<- Hd]]. specialize (Ha d Hd).
    destruct (d =? 95)%N; [reflexivity | exact Ha]. }
  rewrite (sanitize_title _ (forallb_strip _ _ Hr)).
  unfold sanitize. now rewrite strip_idempotent.
Qed.

Lemma separated_spaced b h :
  separated b h = true ->
  forallb (fun c => handle_char c || (c =? 32)%N)
    (map (fun c => if (c =? 95)%N then 32%N else c) h) = true.
Proof.
  revert b. induction h as [|c h IH]; intros b H; [reflexivity|].
  cbn [separated map forallb] in *. destruct (N.eqb_spec c 95) as [->|Hc].
  - apply andb_prop in H as [_ H]. now rewrite (IH _ H).
  - apply andb_prop in H as [Hh H]. now rewrite Hh, (IH _ H).
Qed.

Lemma separated_rstrip b h :
  separated b h = true -> h <> [] ->
  rstrip (map (fun c => if (c =? 95)%N then 32%N else c) h)
  = map (fun c => if (c =? 95)%N then 32%N else c) h.
Proof.
  revert b. induction h as [|c h IH]; intros b H Hne; [congruence|].
  cbn [separated] in H. cbn [map].
  destruct h as [|d h].
  - destruct (N.eqb_spec c 95) as [->|Hc].
    + cbn in H. now destruct b.
    + apply andb_prop in H as [Hh _].
      rewrite (rstrip_head _ _ (handle_char_not_space _ Hh)). reflexivity.
  - assert (Ht : exists b', separated b' (d :: h) = true).
    { destruct (c =? 95)%N; apply andb_prop in H as [_ H]; eauto. }
    destruct Ht as [b' Ht].
    specialize (IH b' Ht ltac:(discriminate)).
    rewrite rstrip_cons; rewrite IH; [reflexivity | discriminate].
Qed.

Lemma separated_runs b r h :
  separated b h = true -> (r = true -> b = true) ->
  re_sub_runs r (map (fun c => if (c =? 95)%N then 32%N else c) h) = h.
Proof.
  revert b r. induction h as [|c h IH]; intros b r H Hr; [reflexivity|].
  cbn [separated map re_sub_runs] in *.
  destruct (N.eqb_spec c 95) as [->|Hc].
  - apply andb_prop in H as [Hb H]. destruct b; [discriminate|].
    destruct r; [now specialize (Hr eq_refl)|].
    change (handle_char 32) with false. cbv iota.
    now rewrite (IH true true H).
  - apply andb_prop in H as [Hh H]. rewrite Hh.
    rewrite (IH false false H); [reflexivity | discriminate].
Qed.

(** From the title back to the handle: on a handle of [[a-z0-9_]] whose
    underscores stand singly between other characters, [sanitize] undoes
    [title_case]. *)
Theorem sanitize_undoes_title_case h :
  clean_handle h = true -> sanitize (title_case h) = h.
Proof.
  intros Hc. destruct h as [|c h]; [reflexivity|].
  cbn [clean_handle] in Hc.
  pose proof (separated_spaced _ _ Hc) as Hs.
  set (spaced := map (fun c => if (c =? 95)%N then 32%N else c) (c :: h)) in *.
  assert (Ha : forallb is_ascii spaced = true).
  { rewrite forallb_forall in *. intros x Hx. specialize (Hs x Hx).
    unfold handle_char, is_ascii in *. cmp_cases. }
  assert (Hstrip : strip spaced = spaced).
  { unfold strip.
    assert (Hl : lstrip spaced = spaced).
    { subst spaced. cbn [map separated] in *.
      destruct (N.eqb_spec c 95) as [->|Hne]; [discriminate|].
      apply andb_prop in Hc as [Hh _]. cbn [lstrip].
      now rewrite (handle_char_not_space _ Hh). }
    rewrite Hl. apply (separated_rstrip true); [exact Hc | discriminate]. }
  unfold title_case. rewrite replace_underscore. fold spaced.
  rewrite Hstrip, (sanitize_title _ Ha). unfold sanitize, lower.
  rewrite Hstrip, Ha.
  assert (Hlow : map ascii_lower spaced = spaced).
  { clear -Hs. induction spaced as [|x t IH]; [reflexivity|].
    cbn [forallb map] in *. apply andb_prop in Hs as [Hx Ht].
    rewrite (IH Ht). f_equal. unfold handle_char, ascii_lower in *. cmp_cases. }
  rewrite Hlow. apply (separated_runs true false); [exact Hc | discriminate].
Qed.

End TitleFacts.

Section TitleExamples.
Import utils Titles.
#[local] Existing Instance ascii_only.

#[local] Existing Instance ascii_titles.

Lemma sanitize_of_title_case_witness :
  title_case (str "_old-fashioned_no2 ") = str "Old-Fashioned No2" /\
  sanitize (title_case (str "_old-fashioned_no2 ")) = str "old_fashioned_no2".
Proof.
  split; [reflexivity|].
  rewrite (sanitize_of_title_case (str "_old-fashioned_no2 ")); reflexivity.
Defined.

Lemma sanitize_undoes_title_case_witness :
  title_case (str "blood_orange_mule") = str "Blood Orange Mule" /\
  sanitize (title_case (str "blood_orange_mule")) = str "blood_orange_mule".
Proof.
  split; [reflexivity|].
  apply (sanitize_undoes_title_case (str "blood_orange_mule")). reflexivity.
Defined.

End TitleExamples.

(** ** update_or_create_collection: what it asks of the storefront *)

Section CollectionFacts.
Import CollectionManager.
Context {U : UnicodeData} {S : Storefront}.

Lemma replace_space_dash t : lacks 32 (replace (str " ") (str "-") t) = true.
Proof.
  unfold replace, lacks. change (str " ") with [32%N]. change (str "-") with [45%N].
  induction t as [|c t IH]; [reflexivity|].
  cbn [replace_from startswith List.length Nat.sub app].
  rewrite andb_true_r. destruct (N.eqb_spec 32 c) as [<-|Hc]; cbn [app forallb].
  - exact IH.
  - rewrite IH. now destruct (N.eqb_spec 32 c).
Qed.

Lemma query_trace op variables st :
  snd (snd (query op variables st)) = snd st ++ [Queried op variables].
Proof.
  unfold query, bind, emit. cbn [fst snd].
  now destruct (api_query op variables (fst st)) as [r w].
Qed.

(** One [update_or_create_collection] starts with the lookup of a handle
    without a space, and goes on with at most one more step: nothing (a step
    raised), the line [No new products], one [collectionAddProducts] whose
    product ids are not empty and all taken from [product_ids], or one
    [CollectionCreate] with all of [product_ids].  It never sends both
    mutations, and never an empty addition. *)
Theorem update_or_create_collection_requests title product_ids st :
  exists events,
    snd (snd (update_or_create_collection title product_ids st))
    = snd st
      ++ Queried getCollectionByHandle
           (VDict [(str "handle", VStr (collection_handle title))])
      :: events /\
    lacks 32 (collection_handle title) = true /\
    collection_requests title product_ids events.
Proof.
  unfold update_or_create_collection, get_collection_by_handle.
  set (handle := collection_handle title).
  assert (Hh : lacks 32 handle = true) by apply replace_space_dash.
  unfold bind at 1 2.
  pose proof (query_trace getCollectionByHandle
                (VDict [(str "handle", VStr handle)]) st) as Hq.
  destruct (query getCollectionByHandle (VDict [(str "handle", VStr handle)]) st)
    as [[result|e] st1]; cbn [fst snd] in Hq.
  2:{ exists []. cbn [fst snd]. rewrite Hq. repeat split; [exact Hh | constructor]. }
  unfold ret at 1.
  destruct (truthy _).
  - unfold bind at 1, lift at 1.
    destruct (existing_ids _) as [existing|e].
    2:{ exists []. cbn [fst snd]. rewrite Hq. repeat split; [exact Hh | constructor]. }
    destruct (filter _ product_ids) as [|x new_ids] eqn:Ef.
    + unfold log_no_new_products; unfold bind, emit, lift. cbn [fst snd].
      destruct (stdout_print title (fst st1)) as [[[]|e] w]; cbn [fst snd].
      * exists [LoggedNoNewProducts title]. rewrite Hq, <- app_assoc.
        repeat split; [exact Hh | constructor].
      * exists []. rewrite Hq. repeat split; [exact Hh | constructor].
    + unfold bind at 1, lift at 1.
      destruct (getitem_str _ (str "id")) as [id|e].
      2:{ exists []. cbn [fst snd]. rewrite Hq.
          repeat split; [exact Hh | constructor]. }
      unfold bind at 1.
      pose proof (query_trace collectionAddProducts
                    (VDict [(str "id", id); (str "productIds", VList (x :: new_ids))])
                    st1) as Hq2.
      destruct (query collectionAddProducts _ st1) as [[r|e] st2];
        cbn [fst snd] in *; unfold ret; cbn [fst snd];
        rewrite Hq2, Hq, <- app_assoc; eexists;
        (split; [reflexivity|]); (split; [exact Hh|]);
        (constructor; [discriminate|]);
        intros y Hy; rewrite <- Ef in Hy; now apply filter_In in Hy.
  - unfold bind at 1.
    match goal with |- context [query CollectionCreate ?v st1] =>
      pose proof (query_trace CollectionCreate v st1) as Hq2;
      destruct (query CollectionCreate v st1) as [[r|e] st2]
    end; cbn [fst snd] in *; unfold ret; cbn [fst snd];
      rewrite Hq2, Hq, <- app_assoc; eexists;
      (split; [reflexivity|]); (split; [exact Hh|]); constructor.
Qed.

Lemma filter_none {A} (f : A -> bool) l :
  (forall x, In x l -> f x = false) -> filter f l = [].
Proof.
  induction l as [|a l IH]; intros H; [reflexivity|].
  cbn [filter]. rewrite (H a (or_introl eq_refl)).
  apply IH. intros x Hx. apply H. now right.
Qed.

(** Adding what is there already changes nothing in the storefront: when
    the lookup finds a collection whose products include every id of
    [product_ids], the call sends no mutation.  It prints that there is
    nothing new and returns the id of the collection that it found; when
    [print] raises on the line, which holds the title, the exception leaves
    the call instead. *)
Theorem update_or_create_collection_nothing_new
    title product_ids st collection st1 existing :
  get_collection_by_handle (collection_handle title) st = (Ok collection, st1) ->
  truthy collection = true ->
  existing_ids collection = Ok existing ->
  (forall pid, In pid product_ids -> py_in pid existing = true) ->
  (forall w,
      stdout_print title (fst st1) = (Ok tt, w) ->
      update_or_create_collection title product_ids st
      = (getitem_str collection (str "id"),
         (w, snd st1 ++ [LoggedNoNewProducts title]))) /\
  (forall e w,
      stdout_print title (fst st1) = (Err e, w) ->
      update_or_create_collection title product_ids st = (Err e, (w, snd st1))).
Proof.
  intros Hg Ht He Hall.
  assert (Hrun : update_or_create_collection title product_ids st
                 = bind (log_no_new_products title)
                     (fun _ => lift (getitem_str collection (str "id"))) st1).
  { unfold update_or_create_collection.
    unfold bind at 1. rewrite Hg, Ht.
    unfold bind at 1, lift at 1. rewrite He.
    rewrite filter_none; [reflexivity|].
    intros pid Hp. now rewrite (Hall pid Hp). }
  rewrite Hrun. unfold log_no_new_products; unfold bind, emit, lift.
  split.
  - intros w Hp. now rewrite Hp.
  - intros e w Hp. now rewrite Hp.
Qed.

End CollectionFacts.

Section CollectionExamples.
Import CollectionManager.
#[local] Existing Instance ascii_only.
#[local] Existing Instance scripted_storefront.

(** The products 2 and 1 are both in "Summer Picks": nothing is sent beyond
    the lookup; with the product 3 one addition of that product alone
    follows. *)
Lemma update_or_create_collection_nothing_new_witness :
  update_or_create_collection (str " Summer Picks")
    [VStr (str "gid://shopify/Product/2"); VStr (str "gid://shopify/Product/1")]
    (tt, [])
  = (Ok (VStr (str "gid://shopify/Collection/9")),
     (tt, [Queried getCollectionByHandle
             (VDict [(str "handle", VStr (str "summer-picks"))]);
           LoggedNoNewProducts (str " Summer Picks")])) /\
  snd (snd (update_or_create_collection (str " Summer Picks")
              [VStr (str "gid://shopify/Product/2");
               VStr (str "gid://shopify/Product/3")] (tt, [])))
  = [Queried getCollectionByHandle
       (VDict [(str "handle", VStr (str "summer-picks"))]);
     Queried collectionAddProducts
       (VDict [(str "id", VStr (str "gid://shopify/Collection/9"));
               (str "productIds", VList [VStr (str "gid://shopify/Product/3")])])].
Proof.
  split; [|reflexivity].
  destruct (update_or_create_collection_nothing_new
              (U := ascii_only) (S := scripted_storefront)
              (str " Summer Picks")
              [VStr (str "gid://shopify/Product/2");
               VStr (str "gid://shopify/Product/1")]
              ((tt, []) : @state scripted_storefront) summer_picks
              ((tt, [Queried getCollectionByHandle
                       (VDict [(str "handle", VStr (str "summer-picks"))])])
               : @state scripted_storefront)
              [VStr (str "gid://shopify/Product/1");
               VStr (str "gid://shopify/Product/2")]
              eq_refl eq_refl eq_refl) as [Hprinted _].
  - intros pid [<- | [<- | []]]; reflexivity.
  - rewrite (Hprinted tt eq_refl). reflexivity.
Defined.

End CollectionExamples.

(** ** The fields of a recipe *)

Section RecipeFields.
Import Effects MediaUploader main recipes.
Context {U : UnicodeData} {W : World}.

Lemma image_fields_nth image_ids :
  forall start i img_id,
    nth_error image_ids i = Some img_id ->
    nth_error (image_fields start image_ids) i
    = Some (VDict [(str "key",
                    VStr (str "image_" ++ decimal (N.of_nat (start + i))));
                   (str "value", img_id)]).
Proof.
  induction image_ids as [|x rest IH]; intros start i img_id H.
  - destruct i; discriminate.
  - destruct i as [|i]; cbn [nth_error image_fields] in *.
    + inversion H. now rewrite Nat.add_0_r.
    + rewrite (IH (S start) i img_id H).
      replace (S start + i)%nat with (start + S i)%nat by lia. reflexivity.
Qed.

Lemma nth_error_first_three (image_ids : list value) i :
  (i < 3)%nat -> nth_error (firstn 3 image_ids) i = nth_error image_ids i.
Proof.
  intros Hi. destruct image_ids as [|a [|b [|c rest]]];
    destruct i as [|[|[|i]]]; try reflexivity; lia.
Qed.

(** What [cmd_recipes_publish] hands to the upsert: the title field with the
    title, then one field for each of the first three ids and no other,
    where the field of the id at the position [i] (from 0) has the key
    image_ followed by [i + 1] and holds that id.  When the ids are those
    that the image loop returned, each of them is truthy: no field holds the
    [None] of a failed upload. *)
Theorem recipe_fields_of_uploads title image_ids :
  List.length (recipe_fields title image_ids)
  = S (Nat.min 3 (List.length image_ids)) /\
  nth_error (recipe_fields title image_ids) 0
  = Some (VDict [(str "key", VStr (str "title")); (str "value", VStr title)]) /\
  (forall i img_id,
      (i < 3)%nat -> nth_error image_ids i = Some img_id ->
      nth_error (recipe_fields title image_ids) (S i)
      = Some (VDict [(str "key",
                      VStr (str "image_" ++ decimal (N.of_nat (S i))));
                     (str "value", img_id)])) /\
  (forall folder names st,
      fst (upload_images folder names [] st) = Ok image_ids ->
      forallb truthy image_ids = true).
Proof.
  split; [|split; [reflexivity|split]].
  - unfold recipe_fields. cbn [List.length]. f_equal.
    destruct image_ids as [|a [|b [|c [|d rest]]]]; reflexivity.
  - intros i img_id Hi H. unfold recipe_fields. cbn [nth_error].
    apply (image_fields_nth _ 1 i img_id).
    now rewrite nth_error_first_three.
  - intros folder names st H.
    destruct (upload_images_added folder names [] st image_ids H)
      as [added [-> [Ht _]]].
    exact Ht.
Qed.

End RecipeFields.

Section RecipeFieldsExamples.
Import Effects MediaUploader main recipes Samples.

(** Four ids: the fourth has no field, and the third is image_3. *)
Lemma recipe_fields_of_uploads_witness :
  nth_error (recipe_fields (str "Mule") [VInt 1; VInt 2; VInt 3; VInt 4]) 3
  = Some (VDict [(str "key", VStr (str "image_3")); (str "value", VInt 3)]) /\
  List.length (recipe_fields (str "Mule") [VInt 1; VInt 2; VInt 3; VInt 4]) = 4%nat.
Proof.
  destruct (recipe_fields_of_uploads (U := ascii_only) (W := scripted_world)
              (str "Mule") [VInt 1; VInt 2; VInt 3; VInt 4])
    as [Hlen [_ [Hnth _]]].
  split; [|exact Hlen].
  apply (Hnth 2%nat (VInt 3)); [lia | reflexivity].
Defined.

End RecipeFieldsExamples.

(** ** The answer of the model without its fence *)

Section FenceFacts.
Import Fences.
Context {U : UnicodeData}.

Lemma kept_edge_cons s :
  kept_edge s = true ->
  exists c t, s = c :: t /\ isspace c = false /\ c <> 96%N /\ c <> 32%N /\ c <> 10%N.
Proof.
  destruct s as [|c t]; [discriminate|]. cbn [kept_edge]. intros H.
  apply negb_true_iff, orb_false_elim in H as [Hs Hb].
  exists c, t. split; [reflexivity|]. split; [exact Hs|].
  apply N.eqb_neq in Hb. split; [exact Hb|].
  split; intros ->; discriminate.
Qed.

Lemma lstrip_kept s : kept_edge s = true -> lstrip s = s.
Proof.
  intros H. destruct (kept_edge_cons s H) as [c [t [-> [Hs _]]]].
  cbn [lstrip]. now rewrite Hs.
Qed.

Lemma lstrip_chars_kept s t :
  kept_edge s = true -> lstrip_chars fence_chars (s ++ t) = s ++ t.
Proof.
  intros H. destruct (kept_edge_cons s H) as [c [r [-> [_ [H1 [H2 H3]]]]]].
  cbn [app lstrip_chars fence_chars existsb].
  apply N.eqb_neq in H1, H2, H3. now rewrite H1, H2, H3.
Qed.

Lemma strip_bare body : bare body = true -> strip body = body.
Proof.
  unfold bare. intros H. apply andb_prop in H as [Hf Hl].
  unfold strip, rstrip. rewrite (lstrip_kept _ Hf), (lstrip_kept _ Hl).
  apply rev_involutive.
Qed.

Lemma strip_chars_bare body : bare body = true -> strip_chars fence_chars body = body.
Proof.
  unfold bare. intros H. apply andb_prop in H as [Hf Hl].
  unfold strip_chars.
  rewrite <- (app_nil_r body) at 1. rewrite (lstrip_chars_kept _ [] Hf), app_nil_r.
  rewrite <- (app_nil_r (rev body)). rewrite (lstrip_chars_kept _ [] Hl), app_nil_r.
  apply rev_involutive.
Qed.

Lemma replace_absent old new s :
  contains old s = false -> replace_from old new 0 s = s.
Proof.
  induction s as [|c s IH]; [reflexivity|].
  cbn [contains replace_from]. intros H. apply orb_false_elim in H as [H1 H2].
  rewrite H1. now rewrite (IH H2).
Qed.

Lemma strip_fenced body : strip (fenced body) = fenced body.
Proof.
  unfold strip, rstrip, fenced.
  change (lstrip (str "```json" ++ [10%N] ++ body ++ [10%N] ++ str "```"))
    with (str "```json" ++ [10%N] ++ body ++ [10%N] ++ str "```").
  rewrite !rev_app_distr.
  change (rev (str "```")) with (str "```"). rewrite <- !app_assoc.
  change (lstrip (str "```" ++ rev [10%N] ++ rev body ++ rev [10%N] ++ rev (str "```json")))
    with (str "```" ++ rev [10%N] ++ rev body ++ rev [10%N] ++ rev (str "```json")).
  rewrite !rev_app_distr, !rev_involutive, <- !app_assoc. reflexivity.
Qed.

Lemma strip_chars_fenced body :
  bare body = true ->
  strip_chars fence_chars (fenced body) = str "json" ++ [10%N] ++ body.
Proof.
  unfold bare. intros H. apply andb_prop in H as [_ Hl].
  unfold strip_chars, fenced.
  change (lstrip_chars fence_chars
            (str "```json" ++ [10%N] ++ body ++ [10%N] ++ str "```"))
    with (str "json" ++ [10%N] ++ body ++ [10%N] ++ str "```").
  rewrite !rev_app_distr. change (rev (str "```")) with (str "```").
  rewrite <- !app_assoc.
  change (lstrip_chars fence_chars
            (str "```" ++ rev [10%N] ++ rev body ++ rev [10%N] ++ rev (str "json")))
    with (lstrip_chars fence_chars (rev body ++ rev [10%N] ++ rev (str "json"))).
  rewrite (lstrip_chars_kept _ _ Hl).
  rewrite !rev_app_distr, !rev_involutive, <- !app_assoc. reflexivity.
Qed.

(** shopify_utils/transcriber.py gives back the answer of the model without
    its fence: a text that begins and ends with a character other than white
    space and the backquote, and that does not hold the tag json with its
    line feed anywhere, comes back unchanged, fenced or not. *)
Theorem shopify_transcript_unfenced body :
  bare body = true ->
  contains (str "json" ++ [10%N]) body = false ->
  shopify_transcriber.generate_corrected_transcript (fenced body) = body /\
  shopify_transcriber.generate_corrected_transcript body = body.
Proof.
  intros Hb Hc. unfold shopify_transcriber.generate_corrected_transcript. split.
  - rewrite strip_fenced, (strip_chars_fenced _ Hb). unfold replace.
    change (replace_from (str "json" ++ [10%N]) [] 0 (str "json" ++ [10%N] ++ body))
      with (replace_from (str "json" ++ [10%N]) [] 0 body).
    now rewrite (replace_absent _ _ _ Hc), (strip_bare _ Hb).
  - rewrite (strip_bare _ Hb), (strip_chars_bare _ Hb). unfold replace.
    now rewrite (replace_absent _ _ _ Hc), (strip_bare _ Hb).
Qed.

Lemma lower_json_prefix body :
  forallb is_ascii body = true ->
  startswith (str "json") (lower (str "json" ++ [10%N] ++ body)) = true.
Proof.
  intros Ha. unfold lower.
  change (forallb is_ascii (str "json" ++ [10%N] ++ body))
    with (forallb is_ascii body).
  rewrite Ha. reflexivity.
Qed.

(** transcription/transcriber.py does the same for an answer in ASCII, and
    here the tag may occur inside the text: only the tag at the start is
    cut.  Without a fence the text comes back unchanged unless it starts
    with the tag itself. *)
Theorem transcription_transcript_unfenced body :
  bare body = true ->
  forallb is_ascii body = true ->
  transcription.generate_corrected_transcript (fenced body) = body /\
  (startswith (str "json") (lower body) = false ->
   transcription.generate_corrected_transcript body = body).
Proof.
  intros Hb Ha. unfold transcription.generate_corrected_transcript. split.
  - rewrite strip_fenced, (strip_chars_fenced _ Hb), (lower_json_prefix _ Ha).
    change (skipn 4 (str "json" ++ [10%N] ++ body)) with (10%N :: body).
    unfold strip. change (lstrip (10%N :: body)) with (lstrip body).
    exact (strip_bare _ Hb).
  - intros Hj. now rewrite (strip_bare _ Hb), (strip_chars_bare _ Hb), Hj.
Qed.

End FenceFacts.

Section FenceExamples.
Import Fences.
#[local] Existing Instance ascii_only.

(** A fenced object comes back bare; an ingredient that ends a line with
    the word json is damaged by shopify_utils/transcriber.py, which the
    hypothesis of the theorem rules out. *)
Lemma shopify_transcript_unfenced_witness :
  shopify_transcriber.generate_corrected_transcript
    (fenced (str "{'intro': 'Stir.'}")) = str "{'intro': 'Stir.'}" /\
  shopify_transcriber.generate_corrected_transcript
    (fenced (str "{'intro': 'use json" ++ [10%N] ++ str "files'}"))
  = str "{'intro': 'use files'}".
Proof.
  split; [|reflexivity].
  apply (shopify_transcript_unfenced (U := ascii_only) (str "{'intro': 'Stir.'}"));
    reflexivity.
Defined.

Lemma transcription_transcript_unfenced_witness :
  transcription.generate_corrected_transcript
    (fenced (str "{'intro': 'use json" ++ [10%N] ++ str "files'}"))
  = str "{'intro': 'use json" ++ [10%N] ++ str "files'}".
Proof.
  apply (transcription_transcript_unfenced (U := ascii_only)
           (str "{'intro': 'use json" ++ [10%N] ++ str "files'}"));
    reflexivity.
Defined.

End FenceExamples.

(** ** rename_and_resize_images: what a run touches, and what it loses *)

Section RenameFacts.
Import MediaUploader main image_tools.
Context {U : UnicodeData} {P : Pictures}.

Lemma str_eqb_neq a b : a <> b -> str_eqb a b = false.
Proof.
  intros H. destruct (str_eqb a b) eqn:E; [|reflexivity].
  apply str_eqb_eq in E. contradiction.
Qed.

Lemma str_eqb_refl a : str_eqb a a = true.
Proof. now apply str_eqb_eq. Qed.



Lemma basename_from_lacks cur path :
  lacks 47 cur = true -> lacks 47 (basename_from cur path) = true.
Proof.
  revert cur. induction path as [|c path IH]; intros cur H; cbn [basename_from].
  - unfold lacks in *. now rewrite forallb_rev.
  - destruct (N.eqb_spec c 47) as [->|Hc]; [now apply IH|].
    apply IH. unfold lacks in *. cbn [forallb]. rewrite H, andb_true_r.
    apply negb_true_iff, N.eqb_neq. congruence.
Qed.

Lemma new_name_lacks subdir c : lacks 47 (new_name (basename subdir) c) = true.
Proof.
  unfold new_name, basename. rewrite !lacks_app.
  rewrite (basename_from_lacks [] subdir eq_refl).
  rewrite (digits_lack 47 (decimal c)); [reflexivity | now left|].
  apply uint_chars_digits.
Qed.

Lemma uint_chars_injective u : forall v, uint_chars u = uint_chars v -> u = v.
Proof.
  induction u; intros v H; destruct v; cbn [uint_chars] in H;
    try discriminate; try reflexivity;
    injection H as H; f_equal; now apply IHu.
Qed.

Lemma decimal_injective a b : decimal a = decimal b -> a = b.
Proof.
  intros H. apply DecimalN.Unsigned.to_uint_inj.
  now apply uint_chars_injective.
Qed.

Lemma new_name_path_injective subdir a b :
  path_join subdir (new_name (basename subdir) a)
  = path_join subdir (new_name (basename subdir) b) -> a = b.
Proof.
  intros H. apply (f_equal basename) in H.
  rewrite !basename_joined in H by apply new_name_lacks.
  unfold new_name in H. apply app_inv_head in H.
  apply app_inv_head in H. apply app_inv_tail in H.
  now apply decimal_injective.
Qed.

Lemma new_name_is_picture d c :
  forallb is_ascii d = true -> is_picture (new_name d c) = true.
Proof.
  intros Hd.
  assert (E : endswith (str "jpg") (lower (new_name d c)) = true).
  { unfold new_name.
    replace (d ++ str "_" ++ decimal c ++ str ".jpg")
      with ((d ++ str "_" ++ decimal c) ++ str ".jpg")
      by now rewrite <- !app_assoc.
    rewrite lower_ascii.
    - unfold endswith. rewrite map_app, rev_app_distr. reflexivity.
    - rewrite !forallb_app, Hd.
      assert (Hc : forallb is_ascii (decimal c) = true).
      { pose proof (uint_chars_digits (N.to_uint c)) as H.
        unfold decimal. rewrite forallb_forall in *. intros x Hx.
        specialize (H x Hx). unfold is_ascii. cmp_cases. }
      now rewrite Hc. }
  unfold is_picture. rewrite E.
  now destruct (endswith (str "png") _).
Qed.

Lemma rename_files_stays_away subdir width files :
  forall counter fs fs',
    (1 < counter)%N ->
    fs (path_join subdir (new_name (basename subdir) 1)) = None ->
    rename_files subdir width counter files fs = Ok fs' ->
    fs' (path_join subdir (new_name (basename subdir) 1)) = None.
Proof.
  induction files as [|fn rest IH]; intros counter fs fs' Hc Hnone H;
    cbn [rename_files] in H.
  - inversion H. now subst.
  - destruct (is_picture fn); [|now apply (IH counter fs)].
    unfold resize_image in H.
    destruct (fs (path_join subdir fn)) as [c|]; [|discriminate].
    destruct (resized c width) as [out|e]; cbn [rbind] in H; [|discriminate].
    apply (IH (counter + 1)%N _ _ ltac:(lia)) in H; [exact H|].
    unfold remove, write.
    destruct (str_eqb _ (path_join subdir fn)); [reflexivity|].
    rewrite str_eqb_neq; [exact Hnone|].
    intros E. apply new_name_path_injective in E. lia.
Qed.

Lemma rename_files_drops_first subdir width files :
  forallb is_ascii (basename subdir) = true ->
  forall counter fs fs',
    (1 < counter)%N ->
    In (new_name (basename subdir) 1) files ->
    rename_files subdir width counter files fs = Ok fs' ->
    fs' (path_join subdir (new_name (basename subdir) 1)) = None.
Proof.
  intros Ha.
  induction files as [|fn rest IH]; intros counter fs fs' Hc Hin H;
    [destruct Hin|].
  cbn [rename_files] in H. destruct (is_picture fn) eqn:Ep.
  - unfold resize_image in H.
    destruct (fs (path_join subdir fn)) as [c|]; [|discriminate].
    destruct (resized c width) as [out|e]; cbn [rbind] in H; [|discriminate].
    destruct Hin as [-> | Hin].
    + apply (rename_files_stays_away _ _ _ (counter + 1)%N _ _ ltac:(lia)) in H;
        [exact H|].
      unfold remove. now rewrite str_eqb_refl.
    + apply (IH (counter + 1)%N _ _ ltac:(lia) Hin H).
  - destruct Hin as [-> | Hin].
    + now rewrite (new_name_is_picture _ 1 Ha) in Ep.
    + apply (IH _ _ _ Hc Hin H).
Qed.

(** A second run loses a picture: when the listing of a directory (with a
    name in ASCII) holds the name that the counter 1 gives, as it does after
    an earlier run, a run that ends without an exception leaves no file of
    that name.  The file is resized onto itself and removed, or overwritten
    by the first picture of the listing and removed when its turn comes. *)
Theorem rename_files_loses_first subdir width files fs fs' :
  forallb is_ascii (basename subdir) = true ->
  In (new_name (basename subdir) 1) files ->
  rename_files subdir width 1 files fs = Ok fs' ->
  fs' (path_join subdir (new_name (basename subdir) 1)) = None.
Proof.
  intros Ha. revert fs.
  induction files as [|fn rest IH]; intros fs Hin H; [destruct Hin|].
  cbn [rename_files] in H. destruct (is_picture fn) eqn:Ep.
  - unfold resize_image in H.
    destruct (fs (path_join subdir fn)) as [c|]; [|discriminate].
    destruct (resized c width) as [out|e]; cbn [rbind] in H; [|discriminate].
    destruct Hin as [-> | Hin].
    + apply (rename_files_stays_away _ _ _ (1 + 1)%N _ _ ltac:(lia)) in H;
        [exact H|].
      unfold remove. now rewrite str_eqb_refl.
    + apply (rename_files_drops_first _ _ _ Ha (1 + 1)%N _ _ ltac:(lia) Hin H).
  - destruct Hin as [-> | Hin].
    + now rewrite (new_name_is_picture _ 1 Ha) in Ep.
    + apply (IH _ Hin H).
Qed.

End RenameFacts.

Section RenameExamples.
Import MediaUploader main image_tools.
#[local] Existing Instance ascii_only.
#[local] Existing Instance noted_pictures.

(** The folder of an earlier run with a new picture first in the listing:
    the new picture takes the name mule_1.jpg, the old one is read from
    there as mule_2.jpg, and mule_1.jpg is gone, with the old picture. *)
Lemma rename_files_loses_first_witness :
  exists fs',
    rename_files (str "pics/mule") 720 1
      [str "new.png"; str "mule_1.jpg"; str "notes.txt"] mule_folder = Ok fs' /\
    fs' (str "pics/mule/mule_1.jpg") = None /\
    fs' (str "pics/mule/mule_2.jpg") = Some (str "second@720@720") /\
    fs' (str "pics/mule/new.png") = None.
Proof.
  eexists. split; [reflexivity|]. split; [|split; reflexivity].
  apply (rename_files_loses_first (U := ascii_only) (P := noted_pictures)
           (str "pics/mule") 720
           [str "new.png"; str "mule_1.jpg"; str "notes.txt"] mule_folder);
    [reflexivity | right; left; reflexivity | reflexivity].
Defined.


End RenameExamples.

(** ** _update_variant_metafields: one request at most *)

Section MetafieldTraces.
Import Effects VariantUpdater ProductParser VariantProtocol.
Context {W : World} {F : Floats}.


End MetafieldTraces.

(** ** The description of a video: its edges and its lines *)

Section DescriptionFacts.
Import uploader RichLines.
Context {U : UnicodeData} {J : Json}.

(** The description of a video, when it is built, neither starts nor ends
    with white space. *)
Theorem video_description_stripped meta d :
  _video_description_from_meta meta = Ok d -> strip d = d.
Proof.
  unfold _video_description_from_meta, describe.
  repeat match goal with
  | |- rbind ?m _ = _ -> _ => destruct m; cbn [rbind]; [|discriminate]
  end.
  intros E. inversion E. apply strip_idempotent.
Qed.

Lemma item_line_text ordered i item :
  item_line ordered i item
  = let? text := item_text item in
    Ok match text with
       | [] => []
       | _ :: _ => [marker ordered i ++ text]
       end.
Proof.
  unfold item_line, item_text.
  repeat match goal with
  | |- rbind ?m _ = _ => destruct m; cbn [rbind]; [|reflexivity]
  end.
  destruct (strip _); [reflexivity|]. unfold marker.
  destruct ordered; [now rewrite <- !app_assoc | reflexivity].
Qed.

Lemma item_text_stripped item text : item_text item = Ok text -> strip text = text.
Proof.
  unfold item_text.
  repeat match goal with
  | |- rbind ?m _ = _ -> _ => destruct m; cbn [rbind]; [|discriminate]
  end.
  intros E. inversion E. apply strip_idempotent.
Qed.

Lemma lines_of_positions ordered texts :
  forall i line,
    In line (lines_of ordered i texts) <->
    exists k text,
      nth_error texts k = Some text /\ text <> [] /\
      line = marker ordered (i + k) ++ text.
Proof.
  induction texts as [|text rest IH]; intros i line; cbn [lines_of].
  - split; [intros [] | intros [k [t [H _]]]; destruct k; discriminate].
  - assert (Hrest : In line (lines_of ordered (S i) rest) <->
                    exists k t, nth_error (text :: rest) (S k) = Some t /\
                                t <> [] /\ line = marker ordered (i + S k) ++ t).
    { rewrite IH. split; intros [k [t [H1 [H2 H3]]]]; exists k, t;
        (split; [exact H1|]); (split; [exact H2|]);
        rewrite H3; do 2 f_equal; lia. }
    destruct text as [|c t].
    + rewrite Hrest. split.
      * intros [k [x H]]. exists (S k), x. exact H.
      * intros [[|k] [x [H1 [H2 H3]]]].
        -- inversion H1. congruence.
        -- exists k, x. auto.
    + cbn [In]. rewrite Hrest. split.
      * intros [<- | [k [x H]]].
        -- exists 0%nat, (c :: t). rewrite Nat.add_0_r.
           repeat split; discriminate.
        -- exists (S k), x. exact H.
      * intros [[|k] [x [H1 [H2 H3]]]].
        -- left. inversion H1; subst. now rewrite Nat.add_0_r.
        -- right. exists k, x. auto.
Qed.

(** The lines that the loop of [_format_rich_list] builds are the texts of
    the items, each without white space around it, with a marker before
    them, where an item whose text is empty gives no line and the marker of
    an ordered list is the position of the item among the items, not that
    of the line among the lines: behind an item without text the numbers
    have a gap. *)
Theorem item_lines_shape ordered items :
  forall i lines,
    item_lines ordered i items = Ok lines ->
    exists texts,
      map_result item_text items = Ok texts /\
      Forall (fun text => strip text = text) texts /\
      lines = lines_of ordered i texts /\
      (forall line,
          In line lines <->
          exists k text,
            nth_error texts k = Some text /\ text <> [] /\
            line = (if ordered then decimal (N.of_nat (i + k)) ++ str ". "
                    else [8226%N; 32%N]) ++ text).
Proof.
  assert (H : forall i lines,
             item_lines ordered i items = Ok lines ->
             exists texts,
               map_result item_text items = Ok texts /\
               Forall (fun text => strip text = text) texts /\
               lines = lines_of ordered i texts).
  { induction items as [|item rest IH]; intros i lines H;
      cbn [item_lines map_result] in *.
    - inversion H. exists []. repeat split. constructor.
    - rewrite item_line_text in H.
      destruct (item_text item) as [text|e] eqn:Et; cbn [rbind] in *;
        [|discriminate].
      destruct (item_lines ordered (S i) rest) as [more|e] eqn:Em;
        cbn [rbind] in H; [|discriminate].
      destruct (IH _ _ Em) as [texts [-> [Hs ->]]].
      exists (text :: texts). cbn [rbind]. split; [reflexivity|].
      split; [constructor; [now apply (item_text_stripped item) | exact Hs]|].
      inversion H. now destruct text. }
  intros i lines E. destruct (H i lines E) as [texts [Ht [Hs ->]]].
  exists texts. repeat split; try assumption;
    apply (lines_of_positions ordered texts i line).
Qed.

End DescriptionFacts.

Section DescriptionExamples.
Import uploader RichLines Samples.
#[local] Existing Instance ascii_only.
#[local] Existing Instance sample_json.

Lemma video_description_stripped_witness :
  _video_description_from_meta
    (VDict [(str "fields",
             VList [VDict [(str "key", VStr (str "intro"));
                           (str "value", VStr (str "  Bright and bitter. "))]])])
  = Ok (str "Bright and bitter.") /\
  strip (str "Bright and bitter.") = str "Bright and bitter.".
Proof.
  split; [reflexivity|].
  apply (video_description_stripped (U := ascii_only) (J := sample_json)
           (VDict [(str "fields",
                    VList [VDict [(str "key", VStr (str "intro"));
                                  (str "value", VStr (str "  Bright and bitter. "))]])])).
  reflexivity.
Defined.

(** An ordered list of three items of which the second is blank: the lines
    are numbered 1 and 3. *)
Lemma item_lines_shape_witness :
  item_lines true 1
    [VDict [(str "children",
             VList [VDict [(str "type", VStr (str "text"));
                           (str "value", VStr (str "2 oz gin"))]])];
     VDict [(str "children",
             VList [VDict [(str "type", VStr (str "text"));
                           (str "value", VStr (str "  "))]])];
     VDict [(str "children",
             VList [VDict [(str "type", VStr (str "text"));
                           (str "value", VStr (str "Stir."))]])]]
  = Ok [str "1. 2 oz gin"; str "3. Stir."] /\
  exists texts,
    [str "1. 2 oz gin"; str "3. Stir."] = lines_of true 1 texts /\
    List.length texts = 3%nat.
Proof.
  split; [reflexivity|].
  destruct (item_lines_shape (U := ascii_only) (J := sample_json) true
              [VDict [(str "children",
                       VList [VDict [(str "type", VStr (str "text"));
                                     (str "value", VStr (str "2 oz gin"))]])];
               VDict [(str "children",
                       VList [VDict [(str "type", VStr (str "text"));
                                     (str "value", VStr (str "  "))]])];
               VDict [(str "children",
                       VList [VDict [(str "type", VStr (str "text"));
                                     (str "value", VStr (str "Stir."))]])]]
              1%nat [str "1. 2 oz gin"; str "3. Stir."] eq_refl)
    as [texts [Ht [_ [Hl _]]]].
  exists texts. split; [exact Hl|].
  cbv in Ht. inversion Ht. reflexivity.
Defined.

End DescriptionExamples.
